(** * SpreadLov real-time core: presence, focus tracking and message routing

    A shallow embedding of the server side of the chat application
    (server/storage.ts, server/pg-storage.ts, server/routes.ts and
    shared/schema.ts) together with the properties its design document
    states about it.

    The server is a single-threaded event loop: every handler below is a
    function from the state of the process to its next state, and the
    calls a handler makes on the outside world (socket writes, socket
    closes, storage writes, HTTP answers) are appended, in program order,
    to an effect trace kept in the state.

    Modelling choices:
    - a handler runs to its end before the next event is taken, so what
      other events could do at its [await]s is not represented;
    - the [storage] object the handlers call is [MemStorage], the
      implementation of [IStorage] that the repository defines down to the
      last map update, and its calls do not fail; of [PgStorage] the model
      has the two notification statements, as operations on a table;
    - [randomUUID()] is a generator that never repeats itself and
      [new Date()] reads a clock that the environment advances;
    - a socket object is a number, and [ws.readyState] lives in a table of
      sockets shared by everything that holds the object. *)

From Stdlib Require Import ZArith Ascii String Sorted.
From stdpp Require Import base option list gmap sets strings pretty.

Set Default Proof Using "Type".
Set Warnings "-register-all".
Open Scope string_scope.
Open Scope nat_scope.
Open Scope list_scope.
Open Scope stdpp_scope.

(** ** JavaScript [Map]: a finite map that iterates in insertion order *)

Module JsMap.
Section ops.
Context {K V : Type} `{EqDecision K}.

(** [map.get(k)] *)
Fixpoint get (k : K) (m : list (K * V)) : option V :=
  match m with
  | [] => None
  | (k', v) :: r => if decide (k = k') then Some v else get k r
  end.

(** [map.has(k)] *)
Definition has (k : K) (m : list (K * V)) : bool :=
  match get k m with Some _ => true | None => false end.

(** [map.set(k, v)]: an existing key keeps its place in the iteration
    order, a new key goes last. *)
Fixpoint set (k : K) (v : V) (m : list (K * V)) : list (K * V) :=
  match m with
  | [] => [(k, v)]
  | (k', v') :: r =>
      if decide (k = k') then (k, v) :: r else (k', v') :: set k v r
  end.

(** [map.delete(k)] *)
Fixpoint delete (k : K) (m : list (K * V)) : list (K * V) :=
  match m with
  | [] => []
  | (k', v') :: r =>
      if decide (k = k') then delete k r else (k', v') :: delete k r
  end.

(** [Array.from(map.keys())] and [Array.from(map.values())] *)
Definition keys (m : list (K * V)) : list K := m.*1.
Definition values (m : list (K * V)) : list V := m.*2.

(** The entries stored under [k]. *)
Definition entries (k : K) (m : list (K * V)) : list (K * V) :=
  filter (λ e, e.1 = k) m.

(** A genuine [Map] holds each key once. *)
Definition wf (m : list (K * V)) : Prop := NoDup (keys m).
End ops.
End JsMap.

(** ** JSON values, as [res.json] and [JSON.stringify] see them *)

Inductive Json : Type :=
| JNull
| JBool (b : bool)
| JNum (n : Z)
| JStr (s : string)
| JDate (t : nat)
| JArr (items : list Json)
| JObj (fields : list (string * Json)).

Definition jstr (o : option string) : Json :=
  match o with Some s => JStr s | None => JNull end.
Definition jnum (o : option Z) : Json :=
  match o with Some n => JNum n | None => JNull end.
Definition jbool (o : option bool) : Json :=
  match o with Some b => JBool b | None => JNull end.
Definition jdate (o : option nat) : Json :=
  match o with Some t => JDate t | None => JNull end.

(** Object literals: [{...o, k: v}] keeps the place of a key the spread
    already brought and replaces its value. *)
Definition obj_get (k : string) (o : list (string * Json)) : option Json :=
  JsMap.get k o.
Definition obj_set (k : string) (v : Json) (o : list (string * Json)) :
  list (string * Json) := JsMap.set k v o.
Definition obj_keys (o : list (string * Json)) : list string := o.*1.

(** JavaScript truthiness of the values the handlers test, and [x || null]. *)
Definition truthy_str (o : option string) : bool :=
  match o with Some s => negb (String.eqb s "") | None => false end.
Definition truthy_bool (o : option bool) : bool :=
  match o with Some b => b | None => false end.
Definition or_null (o : option string) : option string :=
  if truthy_str o then o else None.

(** ** shared/schema.ts: the rows of the four tables *)

Module User.
Record t : Type := mk {
  id : string;
  username : string;
  password : string;
  email : string;
  firstName : string;
  lastName : string;
  gender : string;
  profilePhoto : option string;
  age : Z;
  location : option string;
  bio : option string;
  photos : Json;
  isOnline : option bool;
  lastSeen : option nat;
  createdAt : option nat;
  filterGender : option string;
  filterLocation : option string;
  filterAgeMin : option Z;
  filterAgeMax : option Z
}.

(** [{...user, isOnline, lastSeen}] *)
Definition with_presence (u : t) (online : bool) (now : nat) : t :=
  mk (id u) (username u) (password u) (email u) (firstName u) (lastName u)
     (gender u) (profilePhoto u) (age u) (location u) (bio u) (photos u)
     (Some online) (Some now) (createdAt u)
     (filterGender u) (filterLocation u) (filterAgeMin u) (filterAgeMax u).

(** The object [res.json(user)] would write for an unprojected row. *)
Definition to_json (u : t) : list (string * Json) :=
  [ ("id", JStr (id u)); ("username", JStr (username u));
    ("password", JStr (password u)); ("email", JStr (email u));
    ("firstName", JStr (firstName u)); ("lastName", JStr (lastName u));
    ("gender", JStr (gender u)); ("profilePhoto", jstr (profilePhoto u));
    ("age", JNum (age u)); ("location", jstr (location u));
    ("bio", jstr (bio u)); ("photos", photos u);
    ("isOnline", jbool (isOnline u)); ("lastSeen", jdate (lastSeen u));
    ("createdAt", jdate (createdAt u));
    ("filterGender", jstr (filterGender u));
    ("filterLocation", jstr (filterLocation u));
    ("filterAgeMin", jnum (filterAgeMin u));
    ("filterAgeMax", jnum (filterAgeMax u)) ].
End User.

Module Conversation.
Record t : Type := mk {
  id : string;
  participant1Id : string;
  participant2Id : string;
  lastMessageAt : option nat;
  createdAt : option nat
}.

Definition to_json (c : t) : list (string * Json) :=
  [ ("id", JStr (id c)); ("participant1Id", JStr (participant1Id c));
    ("participant2Id", JStr (participant2Id c));
    ("lastMessageAt", jdate (lastMessageAt c));
    ("createdAt", jdate (createdAt c)) ].
End Conversation.

Module Message.
Record t : Type := mk {
  id : string;
  conversationId : string;
  senderId : string;
  content : option string;
  imageUrl : option string;
  timestamp : option nat
}.

Definition to_json (m : t) : list (string * Json) :=
  [ ("id", JStr (id m)); ("conversationId", JStr (conversationId m));
    ("senderId", JStr (senderId m)); ("content", jstr (content m));
    ("imageUrl", jstr (imageUrl m)); ("timestamp", jdate (timestamp m)) ].
End Message.

Inductive NotificationType : Type := profile_view | message_received.

Global Instance NotificationType_eq_dec : EqDecision NotificationType.
Proof. solve_decision. Defined.

Definition NotificationType_name (ty : NotificationType) : string :=
  match ty with
  | profile_view => "profile_view"
  | message_received => "message_received"
  end.

Module Notification.
Record t : Type := mk {
  id : string;
  userId : string;
  type : NotificationType;
  fromUserId : string;
  conversationId : option string;
  isRead : option bool;
  data : Json;
  createdAt : option nat
}.

(** [{...notification, isRead: true}] *)
Definition read (n : t) : t :=
  mk (id n) (userId n) (type n) (fromUserId n) (conversationId n)
     (Some true) (data n) (createdAt n).

Definition to_json (n : t) : list (string * Json) :=
  [ ("id", JStr (id n)); ("userId", JStr (userId n));
    ("type", JStr (NotificationType_name (type n)));
    ("fromUserId", JStr (fromUserId n));
    ("conversationId", jstr (conversationId n));
    ("isRead", jbool (isRead n)); ("data", data n);
    ("createdAt", jdate (createdAt n)) ].
End Notification.

(** [InsertConversation], [InsertMessage] and [InsertNotification]: what the
    callers hand to the storage layer. *)
Record InsertConversation : Type := {
  ic_participant1Id : string;
  ic_participant2Id : string
}.

Record InsertMessage : Type := {
  im_conversationId : string;
  im_senderId : string;
  im_content : option string;
  im_imageUrl : option string
}.

Record InsertNotification : Type := {
  in_userId : string;
  in_type : NotificationType;
  in_fromUserId : string;
  in_conversationId : option string;
  in_data : Json
}.

(** [InsertUser]: what registration hands to [createUser]. An optional
    column the caller leaves out reads as [null] in the stored row. *)
Record InsertUser : Type := {
  iu_username : string;
  iu_password : string;
  iu_email : string;
  iu_firstName : string;
  iu_lastName : string;
  iu_gender : string;
  iu_profilePhoto : option string;
  iu_age : Z;
  iu_location : option string;
  iu_bio : option string;
  iu_photos : option (list string);
  iu_filterGender : option string;
  iu_filterLocation : option string;
  iu_filterAgeMin : option Z;
  iu_filterAgeMax : option Z
}.

(** [Partial<User>]: an object that has some of the columns; [None] is a
    key the object does not have. *)
Module PartialUser.
Record t : Type := mk {
  id : option string;
  username : option string;
  password : option string;
  email : option string;
  firstName : option string;
  lastName : option string;
  gender : option string;
  profilePhoto : option (option string);
  age : option Z;
  location : option (option string);
  bio : option (option string);
  photos : option Json;
  isOnline : option (option bool);
  lastSeen : option (option nat);
  createdAt : option (option nat);
  filterGender : option (option string);
  filterLocation : option (option string);
  filterAgeMin : option (option Z);
  filterAgeMax : option (option Z)
}.

(** [{}] *)
Definition empty : t :=
  mk None None None None None None None None None None None None None None
     None None None None None.

(** [delete updates.id] and [delete updates.password] *)
Definition delete_id (u : t) : t :=
  mk None (username u) (password u) (email u) (firstName u) (lastName u)
     (gender u) (profilePhoto u) (age u) (location u) (bio u) (photos u)
     (isOnline u) (lastSeen u) (createdAt u)
     (filterGender u) (filterLocation u) (filterAgeMin u) (filterAgeMax u).

Definition delete_password (u : t) : t :=
  mk (id u) (username u) None (email u) (firstName u) (lastName u)
     (gender u) (profilePhoto u) (age u) (location u) (bio u) (photos u)
     (isOnline u) (lastSeen u) (createdAt u)
     (filterGender u) (filterLocation u) (filterAgeMin u) (filterAgeMax u).

(** [{ profilePhoto }], [{ photos }] and the four filter columns *)
Definition of_profilePhoto (url : string) : t :=
  mk None None None None None None None (Some (Some url)) None None None None
     None None None None None None None.

Definition of_photos (photos : Json) : t :=
  mk None None None None None None None None None None None (Some photos)
     None None None None None None None.

Definition of_filters (filterGender filterLocation : option string)
    (filterAgeMin filterAgeMax : option Z) : t :=
  mk None None None None None None None None None None None None None None
     None (Some filterGender) (Some filterLocation) (Some filterAgeMin)
     (Some filterAgeMax).

(** [{...user, ...updates}] *)
Definition spread (user : User.t) (updates : t) : User.t :=
  User.mk (default (User.id user) (id updates))
          (default (User.username user) (username updates))
          (default (User.password user) (password updates))
          (default (User.email user) (email updates))
          (default (User.firstName user) (firstName updates))
          (default (User.lastName user) (lastName updates))
          (default (User.gender user) (gender updates))
          (default (User.profilePhoto user) (profilePhoto updates))
          (default (User.age user) (age updates))
          (default (User.location user) (location updates))
          (default (User.bio user) (bio updates))
          (default (User.photos user) (photos updates))
          (default (User.isOnline user) (isOnline updates))
          (default (User.lastSeen user) (lastSeen updates))
          (default (User.createdAt user) (createdAt updates))
          (default (User.filterGender user) (filterGender updates))
          (default (User.filterLocation user) (filterLocation updates))
          (default (User.filterAgeMin user) (filterAgeMin updates))
          (default (User.filterAgeMax user) (filterAgeMax updates)).
End PartialUser.

(** What [getUserConversations] and [getUserNotifications] build: the row
    with the joined user, which is [undefined] when the user has no row. *)
Record EnrichedConversation : Type := {
  ec_conversation : Conversation.t;
  ec_otherUser : option User.t;
  ec_lastMessage : option Message.t
}.

Record EnrichedNotification : Type := {
  en_notification : Notification.t;
  en_fromUser : option User.t
}.

(** [array.sort(compareFn)]: the sort is stable, so with a comparator that
    is the difference of two keys its result is the one of inserting each
    element before the first element that does not compare below it. *)
Fixpoint sort_insert {A} (compareFn : A → A → Z) (x : A) (sorted : list A) :
    list A :=
  match sorted with
  | [] => [x]
  | y :: r =>
      if (compareFn x y <=? 0)%Z then x :: y :: r
      else y :: sort_insert compareFn x r
  end.

Definition Array_sort {A} (compareFn : A → A → Z) (l : list A) : list A :=
  foldr (sort_insert compareFn) [] l.

(** [new Date(t).getTime()], and [new Date(t || 0).getTime()]: a missing
    time reads as the epoch. *)
Definition getTime (t : option nat) : Z := Z.of_nat (default 0 t).

(** ** server/routes.ts: [toPublicUser] *)

Definition toPublicUser (user : User.t) : list (string * Json) :=
  [ ("id", JStr (User.id user));
    ("username", JStr (User.username user));
    ("firstName", JStr (User.firstName user));
    ("lastName", JStr (User.lastName user));
    ("gender", JStr (User.gender user));
    ("age", JNum (User.age user));
    ("location", jstr (User.location user));
    ("bio", jstr (User.bio user));
    ("profilePhoto", jstr (User.profilePhoto user));
    ("photos", User.photos user);
    ("isOnline", jbool (User.isOnline user));
    ("lastSeen", jdate (User.lastSeen user)) ].

(** [x ? toPublicUser(x) : null] *)
Definition publicOrNull (found : option User.t) : Json :=
  match found with
  | Some u => JObj (toPublicUser u)
  | None => JNull
  end.

(** ** server/storage.ts: [MemStorage]

    [randomUUID()] and [new Date()] are the two things a method reads from
    outside the object; they are passed in as [id] and [now]. *)

Module MemStorage.
Record t : Type := mk {
  users : list (string * User.t);
  conversations : list (string * Conversation.t);
  messages : list (string * Message.t);
  notifications : list (string * Notification.t)
}.

(** The constructor: four empty maps. *)
Definition new : t := mk [] [] [] [].

Definition set_users (f : list (string * User.t) → list (string * User.t))
    (s : t) : t :=
  mk (f (users s)) (conversations s) (messages s) (notifications s).
Definition set_conversations
    (f : list (string * Conversation.t) → list (string * Conversation.t))
    (s : t) : t :=
  mk (users s) (f (conversations s)) (messages s) (notifications s).
Definition set_messages
    (f : list (string * Message.t) → list (string * Message.t)) (s : t) : t :=
  mk (users s) (conversations s) (f (messages s)) (notifications s).
Definition set_notifications
    (f : list (string * Notification.t) → list (string * Notification.t))
    (s : t) : t :=
  mk (users s) (conversations s) (messages s) (f (notifications s)).

Definition getUser (id : string) (s : t) : option User.t :=
  JsMap.get id (users s).

Definition same_pair (user1Id user2Id : string) (conv : Conversation.t) : bool :=
  (String.eqb (Conversation.participant1Id conv) user1Id
     && String.eqb (Conversation.participant2Id conv) user2Id)
  || (String.eqb (Conversation.participant1Id conv) user2Id
     && String.eqb (Conversation.participant2Id conv) user1Id).

Definition getConversation (user1Id user2Id : string) (s : t) :
    option Conversation.t :=
  List.find (same_pair user1Id user2Id) (JsMap.values (conversations s)).

Definition createConversation (ins : InsertConversation) (id : string)
    (now : nat) (s : t) : Conversation.t * t :=
  let conversation :=
    Conversation.mk id (ic_participant1Id ins) (ic_participant2Id ins)
                    (Some now) (Some now) in
  (conversation, set_conversations (JsMap.set id conversation) s).

Definition createMessage (ins : InsertMessage) (id : string) (now : nat)
    (s : t) : Message.t * t :=
  let message :=
    Message.mk id (im_conversationId ins) (im_senderId ins)
               (or_null (im_content ins)) (or_null (im_imageUrl ins))
               (Some now) in
  let s1 := set_messages (JsMap.set id message) s in
  (* Update conversation's last message time *)
  let s2 :=
    match JsMap.get (im_conversationId ins) (conversations s1) with
    | Some conversation =>
        set_conversations
          (JsMap.set (im_conversationId ins)
             (Conversation.mk (Conversation.id conversation)
                (Conversation.participant1Id conversation)
                (Conversation.participant2Id conversation)
                (Some now) (Conversation.createdAt conversation))) s1
    | None => s1
    end in
  (message, s2).

Definition getAllUsers (s : t) : list User.t := JsMap.values (users s).

Definition getOnlineUsers (s : t) : list User.t :=
  filter (λ user, truthy_bool (User.isOnline user) = true)
         (JsMap.values (users s)).

Definition setUserOnlineStatus (userId : string) (isOnline : bool)
    (now : nat) (s : t) : t :=
  match JsMap.get userId (users s) with
  | Some user =>
      set_users (JsMap.set userId (User.with_presence user isOnline now)) s
  | None => s
  end.

Definition createNotification (ins : InsertNotification) (id : string)
    (now : nat) (s : t) : Notification.t * t :=
  let notification :=
    Notification.mk id (in_userId ins) (in_type ins) (in_fromUserId ins)
                    (or_null (in_conversationId ins)) (Some false)
                    (in_data ins) (Some now) in
  (notification, set_notifications (JsMap.set id notification) s).

Definition markNotificationAsRead (notificationId : string) (s : t) : t :=
  match JsMap.get notificationId (notifications s) with
  | Some notification =>
      set_notifications
        (JsMap.set notificationId (Notification.read notification)) s
  | None => s
  end.

(** The filter shared by [markAllNotificationsAsRead] and
    [getUnreadNotificationCount]:
    [notification.userId === userId && !notification.isRead]. *)
Definition unread_of (userId : string) (notification : Notification.t) : bool :=
  String.eqb (Notification.userId notification) userId
  && negb (truthy_bool (Notification.isRead notification)).

Definition markAllNotificationsAsRead (userId : string) (s : t) : t :=
  set_notifications
    (λ m,
       fold_left
         (λ acc notification,
            JsMap.set (Notification.id notification)
                      (Notification.read notification) acc)
         (List.filter (unread_of userId) (JsMap.values m)) m) s.

Definition deleteNotification (notificationId : string) (s : t) : t :=
  set_notifications (JsMap.delete notificationId) s.

Definition getUnreadNotificationCount (userId : string) (s : t) : nat :=
  length (List.filter (unread_of userId) (JsMap.values (notifications s))).

Definition getUserByUsername (username : string) (s : t) : option User.t :=
  List.find (λ user, String.eqb (User.username user) username)
            (JsMap.values (users s)).

Definition getUserByEmail (email : string) (s : t) : option User.t :=
  List.find (λ user, String.eqb (User.email user) email)
            (JsMap.values (users s)).

Definition createUser (insertUser : InsertUser) (id : string) (now : nat)
    (s : t) : User.t * t :=
  let user :=
    User.mk id (iu_username insertUser) (iu_password insertUser)
            (iu_email insertUser) (iu_firstName insertUser)
            (iu_lastName insertUser) (iu_gender insertUser)
            (or_null (iu_profilePhoto insertUser)) (iu_age insertUser)
            (or_null (iu_location insertUser)) (or_null (iu_bio insertUser))
            match iu_photos insertUser with
            | Some urls => JArr (JStr <$> urls)
            | None => JNull
            end
            (Some false) (Some now) (Some now)
            (iu_filterGender insertUser) (iu_filterLocation insertUser)
            (iu_filterAgeMin insertUser) (iu_filterAgeMax insertUser) in
  (user, set_users (JsMap.set id user) s).

Definition updateUser (id : string) (updates : PartialUser.t) (s : t) :
    option User.t * t :=
  match JsMap.get id (users s) with
  | None => (None, s)
  | Some user =>
      let updatedUser := PartialUser.spread user updates in
      (Some updatedUser, set_users (JsMap.set id updatedUser) s)
  end.

Definition getMessages (conversationId : string) (s : t) : list Message.t :=
  Array_sort
    (λ a b, getTime (Message.timestamp a) - getTime (Message.timestamp b))%Z
    (List.filter (λ msg, String.eqb (Message.conversationId msg) conversationId)
                 (JsMap.values (messages s))).

Definition getUserConversations (userId : string) (s : t) :
    list EnrichedConversation :=
  let userConversations :=
    List.filter
      (λ conv, String.eqb (Conversation.participant1Id conv) userId
               || String.eqb (Conversation.participant2Id conv) userId)
      (JsMap.values (conversations s)) in
  let enrichedConversations :=
    map (λ conv,
           let otherUserId :=
             if String.eqb (Conversation.participant1Id conv) userId
             then Conversation.participant2Id conv
             else Conversation.participant1Id conv in
           let otherUser := getUser otherUserId s in
           let messages := getMessages (Conversation.id conv) s in
           let lastMessage := last messages in
           {| ec_conversation := conv;
              ec_otherUser := otherUser;
              ec_lastMessage := lastMessage |})
        userConversations in
  Array_sort
    (λ a b, getTime (Conversation.lastMessageAt (ec_conversation b))
            - getTime (Conversation.lastMessageAt (ec_conversation a)))%Z
    enrichedConversations.

Definition getUserNotifications (userId : string) (s : t) :
    list EnrichedNotification :=
  let userNotifications :=
    Array_sort
      (λ a b, getTime (Notification.createdAt b)
              - getTime (Notification.createdAt a))%Z
      (List.filter
         (λ notification, String.eqb (Notification.userId notification) userId)
         (JsMap.values (notifications s))) in
  map (λ notification,
         {| en_notification := notification;
            en_fromUser := getUser (Notification.fromUserId notification) s |})
      userNotifications.
End MemStorage.

(** ** server/pg-storage.ts: the notification statements of [PgStorage]

    The [notifications] table is a bag of rows; a [where] clause selects
    the rows on which its condition is true, so a row whose [is_read] is
    NULL is selected by neither [eq(isRead, false)] nor [eq(isRead, true)]. *)

Module PgStorage.
Definition where_unread (userId : string) (row : Notification.t) : bool :=
  String.eqb (Notification.userId row) userId
  && match Notification.isRead row with
     | Some b => negb b
     | None => false
     end.

(** [update notifications set is_read = true where user_id = $1 and
    is_read = false] *)
Definition markAllNotificationsAsRead (userId : string)
    (rows : list Notification.t) : list Notification.t :=
  map (λ row, if where_unread userId row then Notification.read row else row)
      rows.

(** [select id from notifications where user_id = $1 and is_read = false],
    then [result.length] *)
Definition getUnreadNotificationCount (userId : string)
    (rows : list Notification.t) : nat :=
  length (List.filter (where_unread userId) rows).
End PgStorage.

(** ** The process: sockets, sessions, the two shared maps and the trace *)

(** [ws.readyState] *)
Inductive ReadyState : Type := CONNECTING | OPEN | CLOSING | CLOSED.

Global Instance ReadyState_eq_dec : EqDecision ReadyState.
Proof. solve_decision. Defined.

(** The value type of [connectedUsers]; a socket object is named by a
    number, its identity. *)
Record UserConnection : Type := mkUserConnection {
  conn_ws : nat;
  conn_userId : string
}.

(** A session record, as far as the handshake reads it:
    [sessionData.passport?.user]. *)
Record Passport : Type := { passport_user : option string }.
Record SessionData : Type := { session_passport : option Passport }.

(** The upgrade request: [cookies] is what [parseCookie] returns for the
    request's Cookie header, or for the empty string when there is none. *)
Record Request : Type := { cookies : list (string * string) }.

(** Frames a client sends, after [JSON.parse]; [unrecognized] stands for
    any other [type] and for text that does not parse. *)
Inductive Inbound : Type :=
| openChatWindow (otherUserId : string)
| closeChatWindow (otherUserId : string)
| sendMessage (receiverId : string) (content imageUrl : option string)
| typing (receiverId : string) (isTyping : bool)
| unrecognized.

(** Frames the server sends. *)
Inductive Outbound : Type :=
| userOnline (userId : string)
| userOffline (userId : string)
| newMessage (message : Message.t) (sender : Json)
| messageConfirmed (message : Message.t)
| userTyping (userId : string) (isTyping : bool)
| newNotification (id : string) (type : NotificationType)
    (fromUserId fromUserName : string) (fromUserPhoto : option string)
    (message : string) (createdAt : option nat).

(** Writes that reach the storage layer. *)
Inductive Write : Type :=
| CreatedConversation (id : string)
| CreatedMessage (id : string)
| CreatedNotification (id : string)
| OnlineStatus (userId : string) (isOnline : bool).

(** What a handler does to the outside world, in program order. *)
Inductive Effect : Type :=
| WsSend (ws : nat) (payload : Outbound)
| WsClose (ws : nat) (code : option nat) (reason : option string)
| Stored (w : Write)
| ReqLogout (userId : string)
| SendStatus (status : nat)
| SendJson (status : nat) (body : Json)
| NextError.

Record State : Type := mkState {
  storage : MemStorage.t;
  sessionStore : gmap string SessionData;
  connectedUsers : list (string * UserConnection);
  activeChatWindows : gmap string (gset string);
  (** every socket object the server has accepted, with its [readyState] *)
  sockets : gmap nat ReadyState;
  (** the sockets on which the message and close listeners are installed,
      with the [userId] their closure captured *)
  listeners : gmap nat string;
  uuidSeed : nat;
  clock : nat;
  trace : list Effect
}.

Definition set_storage (f : MemStorage.t → MemStorage.t) (st : State) : State :=
  mkState (f (storage st)) (sessionStore st) (connectedUsers st)
          (activeChatWindows st) (sockets st) (listeners st) (uuidSeed st)
          (clock st) (trace st).
Definition set_sessionStore
    (f : gmap string SessionData → gmap string SessionData) (st : State) : State :=
  mkState (storage st) (f (sessionStore st)) (connectedUsers st)
          (activeChatWindows st) (sockets st) (listeners st) (uuidSeed st)
          (clock st) (trace st).
Definition set_connectedUsers
    (f : list (string * UserConnection) → list (string * UserConnection))
    (st : State) : State :=
  mkState (storage st) (sessionStore st) (f (connectedUsers st))
          (activeChatWindows st) (sockets st) (listeners st) (uuidSeed st)
          (clock st) (trace st).
Definition set_activeChatWindows
    (f : gmap string (gset string) → gmap string (gset string))
    (st : State) : State :=
  mkState (storage st) (sessionStore st) (connectedUsers st)
          (f (activeChatWindows st)) (sockets st) (listeners st) (uuidSeed st)
          (clock st) (trace st).
Definition set_sockets (f : gmap nat ReadyState → gmap nat ReadyState)
    (st : State) : State :=
  mkState (storage st) (sessionStore st) (connectedUsers st)
          (activeChatWindows st) (f (sockets st)) (listeners st) (uuidSeed st)
          (clock st) (trace st).
Definition set_listeners (f : gmap nat string → gmap nat string)
    (st : State) : State :=
  mkState (storage st) (sessionStore st) (connectedUsers st)
          (activeChatWindows st) (sockets st) (f (listeners st)) (uuidSeed st)
          (clock st) (trace st).
Definition set_uuidSeed (f : nat → nat) (st : State) : State :=
  mkState (storage st) (sessionStore st) (connectedUsers st)
          (activeChatWindows st) (sockets st) (listeners st) (f (uuidSeed st))
          (clock st) (trace st).
Definition set_clock (f : nat → nat) (st : State) : State :=
  mkState (storage st) (sessionStore st) (connectedUsers st)
          (activeChatWindows st) (sockets st) (listeners st) (uuidSeed st)
          (f (clock st)) (trace st).
Definition set_trace (f : list Effect → list Effect) (st : State) : State :=
  mkState (storage st) (sessionStore st) (connectedUsers st)
          (activeChatWindows st) (sockets st) (listeners st) (uuidSeed st)
          (clock st) (f (trace st)).

(** Handlers are state transformers. *)
Definition M (A : Type) : Type := State → A * State.

Global Instance M_ret : MRet M := λ A a st, (a, st).
Global Instance M_bind : MBind M :=
  λ A B f c st, let '(a, st') := c st in f a st'.

Definition gets {A} (f : State → A) : M A := λ st, (f st, st).
Definition modify (f : State → State) : M unit := λ st, (tt, f st).
Definition exec {A} (c : M A) (st : State) : State := (c st).2.
Definition eval {A} (c : M A) (st : State) : A := (c st).1.

(** The empty statement. *)
Definition skip : M unit := mret tt.

Fixpoint forEach {A} (l : list A) (f : A → M unit) : M unit :=
  match l with
  | [] => skip
  | x :: r => f x;; forEach r f
  end.

Definition emit (e : Effect) : M unit := modify (set_trace (λ t, t ++ [e])).

(** [randomUUID()]: a generator that never repeats itself. *)
Definition uuid_of (n : nat) : string := "uuid-" +:+ pretty n.

Definition randomUUID : M string :=
  λ st, (uuid_of (uuidSeed st), set_uuidSeed S st).

(** [new Date()] *)
Definition newDate : M nat := gets clock.

(** *** The [storage] singleton, called from the handlers *)

Definition storage_getUser (id : string) : M (option User.t) :=
  gets (λ st, MemStorage.getUser id (storage st)).

Definition storage_getConversation (user1Id user2Id : string) :
    M (option Conversation.t) :=
  gets (λ st, MemStorage.getConversation user1Id user2Id (storage st)).

Definition storage_createConversation (ins : InsertConversation) :
    M Conversation.t :=
  id ← randomUUID;
  now ← newDate;
  s ← gets storage;
  let '(conversation, s') := MemStorage.createConversation ins id now s in
  modify (set_storage (λ _, s'));;
  emit (Stored (CreatedConversation id));;
  mret conversation.

Definition storage_createMessage (ins : InsertMessage) : M Message.t :=
  id ← randomUUID;
  now ← newDate;
  s ← gets storage;
  let '(message, s') := MemStorage.createMessage ins id now s in
  modify (set_storage (λ _, s'));;
  emit (Stored (CreatedMessage id));;
  mret message.

Definition storage_createNotification (ins : InsertNotification) :
    M Notification.t :=
  id ← randomUUID;
  now ← newDate;
  s ← gets storage;
  let '(notification, s') := MemStorage.createNotification ins id now s in
  modify (set_storage (λ _, s'));;
  emit (Stored (CreatedNotification id));;
  mret notification.

Definition storage_setUserOnlineStatus (userId : string) (isOnline : bool) :
    M unit :=
  now ← newDate;
  modify (set_storage (MemStorage.setUserOnlineStatus userId isOnline now));;
  emit (Stored (OnlineStatus userId isOnline)).

(** *** Sockets *)

Definition readyState (ws : nat) : M ReadyState :=
  gets (λ st, default CLOSED (sockets st !! ws)).

(** [ws.send(JSON.stringify(payload))] *)
Definition ws_send (ws : nat) (payload : Outbound) : M unit :=
  emit (WsSend ws payload).

(** [ws.close(code, reason)]: an open socket starts its closing handshake. *)
Definition ws_close (ws : nat) (code : option nat) (reason : option string) :
    M unit :=
  modify (set_sockets
            (alter (λ rs, match rs with CLOSED => CLOSED | _ => CLOSING end) ws));;
  emit (WsClose ws code reason).

(** [c && c.ws.readyState === WebSocket.OPEN] *)
Definition writable (c : option UserConnection) : M bool :=
  match c with
  | Some c => rs ← readyState (conn_ws c); mret (bool_decide (rs = OPEN))
  | None => mret false
  end.

(** *** server/routes.ts: the closures of [registerRoutes] *)

Definition broadcastToAll (message : Outbound) : M unit :=
  conns ← gets connectedUsers;
  forEach conns (λ entry,
    rs ← readyState (conn_ws entry.2);
    if bool_decide (rs = OPEN) then ws_send (conn_ws entry.2) message
    else skip).

Definition sendToUser (userId : string) (message : Outbound) : M bool :=
  userConnection ← gets (λ st, JsMap.get userId (connectedUsers st));
  ok ← writable userConnection;
  match userConnection, ok with
  | Some c, true => ws_send (conn_ws c) message;; mret true
  | _, _ => mret false
  end.

(** The focus query the message router evaluates:
    [activeChatWindows.has(a) && activeChatWindows.get(a).has(b)]. *)
Definition isFocused (a b : string) (st : State) : bool :=
  match activeChatWindows st !! a with
  | Some peers => bool_decide (b ∈ peers)
  | None => false
  end.

(** [app.post("/api/logout")]; [reqUser] is [req.user] when
    [req.isAuthenticated()], and [logoutErr] tells whether [req.logout]
    hands an error to its callback. *)
Definition postLogout (reqUser : option User.t) (logoutErr : bool) : M unit :=
  match reqUser with
  | None => emit (SendStatus 401)
  | Some u =>
      let userId := User.id u in
      (* Close WebSocket connection if exists *)
      userConnection ← gets (λ st, JsMap.get userId (connectedUsers st));
      match userConnection with
      | Some c =>
          ws_close (conn_ws c) None None;;
          modify (set_connectedUsers (JsMap.delete userId));;
          (* Clear all active chat windows for this user during logout *)
          modify (set_activeChatWindows (delete userId));;
          storage_setUserOnlineStatus userId false;;
          (* Broadcast user offline status *)
          broadcastToAll (userOffline userId)
      | None => skip
      end;;
      (* Logout from session *)
      emit (ReqLogout userId);;
      if logoutErr then emit NextError else emit (SendStatus 200)
  end.

(** [sessionId.slice(2)] and [s.split('.')[0]] *)
Definition slice2 (s : string) : string :=
  match s with
  | String _ (String _ r) => r
  | _ => ""
  end.

Fixpoint before_dot (s : string) : string :=
  match s with
  | "" => ""
  | String c r => if Ascii.eqb c "."%char then "" else String c (before_dot r)
  end.

(** [wss.on('connection')], down to the installation of the message and
    close listeners. [storeErr] tells whether the session store hands an
    error to its callback. *)
Definition onConnection (ws : nat) (req : Request) (storeErr : bool) : M unit :=
  let sessionId := JsMap.get "connect.sid" (cookies req) in
  if negb (truthy_str sessionId) then
    ws_close ws (Some 1008) (Some "Authentication required")
  else
    let sid := default "" sessionId in
    (* Extract session ID from signed cookie *)
    let actualSessionId :=
      if String.prefix "s:" sid then before_dot (slice2 sid) else sid in
    if storeErr then ws_close ws (Some 1011) (Some "Authentication failed")
    else
      sessionData ← gets (λ st, sessionStore st !! actualSessionId);
      (* sessionData.passport?.user *)
      let principal :=
        match sessionData with
        | Some d =>
            match session_passport d with
            | Some p => passport_user p
            | None => None
            end
        | None => None
        end in
      if negb (truthy_str principal) then
        ws_close ws (Some 1008) (Some "Authentication required")
      else
        let authenticatedUserId := default "" principal in
        found ← storage_getUser authenticatedUserId;
        match found with
        | None => ws_close ws (Some 1008) (Some "User not found")
        | Some _ =>
            (* Successfully authenticated - set up connection *)
            modify (set_connectedUsers
                      (JsMap.set authenticatedUserId
                         (mkUserConnection ws authenticatedUserId)));;
            storage_setUserOnlineStatus authenticatedUserId true;;
            (* Broadcast user online status *)
            broadcastToAll (userOnline authenticatedUserId);;
            (* ws.on('message', ...) and ws.on('close', ...) *)
            modify (set_listeners <[ws := authenticatedUserId]>)
        end.

(** The cases of the [switch] in [ws.on('message')]; [ws] and [userId] are
    the variables the listener closes over. *)

Definition activeChatWindows_has (userId : string) : M bool :=
  gets (λ st, bool_decide (is_Some (activeChatWindows st !! userId))).

(** [activeChatWindows.get(userId)!] *)
Definition activeChatWindows_get (userId : string) : M (gset string) :=
  gets (λ st, default ∅ (activeChatWindows st !! userId)).

Definition handleOpenChatWindow (userId openUserId : string) : M unit :=
  if negb (truthy_str (Some userId)) then skip
  else
    present ← activeChatWindows_has userId;
    (if (present : bool) then skip
     else modify (set_activeChatWindows <[userId := ∅]>));;
    modify (set_activeChatWindows (alter (λ peers, peers ∪ {[openUserId]}) userId)).

Definition handleCloseChatWindow (userId closeUserId : string) : M unit :=
  if negb (truthy_str (Some userId)) then skip
  else
    present ← activeChatWindows_has userId;
    if (present : bool) then
      modify (set_activeChatWindows
                (alter (λ peers, peers ∖ {[closeUserId]}) userId));;
      peers ← activeChatWindows_get userId;
      if bool_decide (size (peers : gset string) = 0)
      then modify (set_activeChatWindows (delete userId))
      else skip
    else skip.

Definition handleSendMessage (ws : nat) (userId receiverId : string)
    (content imageUrl : option string) : M unit :=
  if negb (truthy_str (Some userId)) then skip
  else
    (* Get or create conversation *)
    existing ← storage_getConversation userId receiverId;
    conversation ←
      match existing with
      | Some c => mret c
      | None =>
          storage_createConversation
            {| ic_participant1Id := userId; ic_participant2Id := receiverId |}
      end;
    (* Create message *)
    newMsg ← storage_createMessage
      {| im_conversationId := Conversation.id conversation;
         im_senderId := userId;
         im_content := content;
         im_imageUrl := imageUrl |};
    (* Send to receiver if online *)
    receiverConnection ← gets (λ st, JsMap.get receiverId (connectedUsers st));
    ok ← writable receiverConnection;
    match receiverConnection, ok with
    | Some c, true =>
        senderUser ← storage_getUser userId;
        ws_send (conn_ws c)
          (newMessage newMsg (publicOrNull senderUser))
    | _, _ => skip
    end;;
    (* Check if both users have the chat window open (actively chatting) *)
    senderHasChatOpen ← gets (isFocused userId receiverId);
    receiverHasChatOpen ← gets (isFocused receiverId userId);
    let bothActivelyChatting := senderHasChatOpen && receiverHasChatOpen in
    (* Only create notification if they're NOT both actively chatting *)
    (if negb bothActivelyChatting then
       notification ← storage_createNotification
         {| in_userId := receiverId;
            in_type := message_received;
            in_fromUserId := userId;
            in_conversationId := Some (Conversation.id conversation);
            in_data := JNull |};
       (* Send real-time notification to receiver if they're online *)
       senderUser ← storage_getUser userId;
       ok' ← writable receiverConnection;
       match senderUser, receiverConnection, ok' with
       | Some u, Some c, true =>
           ws_send (conn_ws c)
             (newNotification (Notification.id notification) message_received
                userId (User.firstName u) (User.profilePhoto u)
                (User.firstName u +:+ " sent you a message.")
                (Notification.createdAt notification))
       | _, _, _ => skip
       end
     else skip);;
    (* Confirm to sender *)
    ws_send ws (messageConfirmed newMsg).

Definition handleTyping (userId typingReceiverId : string) (isTyping : bool) :
    M unit :=
  if negb (truthy_str (Some userId)) then skip
  else
    typingReceiverConnection ←
      gets (λ st, JsMap.get typingReceiverId (connectedUsers st));
    ok ← writable typingReceiverConnection;
    match typingReceiverConnection, ok with
    | Some c, true => ws_send (conn_ws c) (userTyping userId isTyping)
    | _, _ => skip
    end.

Definition onMessage (ws : nat) (userId : string) (message : Inbound) : M unit :=
  match message with
  | openChatWindow openUserId => handleOpenChatWindow userId openUserId
  | closeChatWindow closeUserId => handleCloseChatWindow userId closeUserId
  | sendMessage receiverId content imageUrl =>
      handleSendMessage ws userId receiverId content imageUrl
  | typing receiverId isTyping => handleTyping userId receiverId isTyping
  | unrecognized => skip
  end.

(** [ws.on('close')] *)
Definition onClose (userId : string) : M unit :=
  if truthy_str (Some userId) then
    modify (set_connectedUsers (JsMap.delete userId));;
    storage_setUserOnlineStatus userId false;;
    (* Clear all active chat windows for this user *)
    modify (set_activeChatWindows (delete userId));;
    (* Broadcast user offline status *)
    broadcastToAll (userOffline userId)
  else skip.

(** ** The HTTP routes of [registerRoutes] that answer with users

    [GET /api/users/:userId] is modelled in full, since it writes a
    notification and pushes it to the viewed user. Of the other routes the
    model keeps the expression handed to [res.json]; what they read from
    the request and from storage comes in as arguments. *)

Definition message_body (text : string) : Json := JObj [("message", JStr text)].

(** [GET /api/users] and [GET /api/users/online]: [candidates] is
    [getAllUsers()] or [getOnlineUsers()], [keep] the conjunction of the
    gender, location and age filters the query string asks for. *)
Definition usersBody (reqUserId : string) (keep : User.t → bool)
    (candidates : list User.t) : Json :=
  let users := List.filter (λ u, negb (String.eqb (User.id u) reqUserId)) candidates in
  let users := List.filter keep users in
  JArr (map (λ u, JObj (toPublicUser u)) users).

(** [GET /api/users/:userId] *)
Definition getUserProfile (reqUser : option User.t) (userId : string) : M unit :=
  match reqUser with
  | None => emit (SendStatus 401)
  | Some me =>
      (* Prevent users from accessing their own profile through this endpoint *)
      if String.eqb userId (User.id me) then
        emit (SendJson 400 (message_body "Use /api/user for your own profile"))
      else
        found ← storage_getUser userId;
        match found with
        | None => emit (SendJson 404 (message_body "User not found"))
        | Some u =>
            (* Create profile view notification for the viewed user *)
            notification ← storage_createNotification
              {| in_userId := userId;
                 in_type := profile_view;
                 in_fromUserId := User.id me;
                 in_conversationId := None;
                 in_data := JNull |};
            (* Send real-time notification to viewed user if they're online *)
            fromUser ← storage_getUser (User.id me);
            match fromUser with
            | Some from =>
                sent ← sendToUser userId
                  (newNotification (Notification.id notification) profile_view
                     (User.id me) (User.firstName from) (User.profilePhoto from)
                     (User.firstName from +:+ " viewed your profile.")
                     (Notification.createdAt notification));
                skip
            | None => skip
            end;;
            emit (SendJson 200 (JObj (toPublicUser u)))
        end
  end.

(** What [getUserConversations] and [getUserNotifications] return: a row
    spread into an object that also carries the joined user. *)
Record ConversationWithUser : Type := {
  cu_conversation : Conversation.t;
  cu_otherUser : User.t;
  cu_lastMessage : option Message.t
}.

Definition ConversationWithUser_json (c : ConversationWithUser) :
    list (string * Json) :=
  Conversation.to_json (cu_conversation c)
    ++ [("otherUser", JObj (User.to_json (cu_otherUser c)))]
    ++ match cu_lastMessage c with
       | Some m => [("lastMessage", JObj (Message.to_json m))]
       | None => []
       end.

Record NotificationWithUser : Type := {
  nu_notification : Notification.t;
  nu_fromUser : User.t
}.

Definition NotificationWithUser_json (n : NotificationWithUser) :
    list (string * Json) :=
  Notification.to_json (nu_notification n)
    ++ [("fromUser", JObj (User.to_json (nu_fromUser n)))].

(** [GET /api/conversations]:
    [{...conv, otherUser: toPublicUser(conv.otherUser)}] *)
Definition safeConversation (conv : ConversationWithUser) : Json :=
  JObj (obj_set "otherUser" (JObj (toPublicUser (cu_otherUser conv)))
          (ConversationWithUser_json conv)).

Definition conversationsBody (conversations : list ConversationWithUser) : Json :=
  JArr (map safeConversation conversations).

(** [GET /api/notifications]:
    [{...notification, fromUser: toPublicUser(notification.fromUser)}] *)
Definition safeNotification (notification : NotificationWithUser) : Json :=
  JObj (obj_set "fromUser" (JObj (toPublicUser (nu_fromUser notification)))
          (NotificationWithUser_json notification)).

Definition notificationsBody (notifications : list NotificationWithUser) : Json :=
  JArr (map safeNotification notifications).

(** [PATCH /api/profile], once [updateUser] has found the row *)
Definition profileBody (updatedUser : User.t) : Json :=
  JObj (toPublicUser updatedUser).

(** [POST /api/upload/profile] *)
Definition uploadProfileBody (profilePhotoUrl : string)
    (updatedUser : option User.t) : Json :=
  JObj [("profilePhoto", JStr profilePhotoUrl);
        ("user", publicOrNull updatedUser)].

(** [POST /api/upload/photos] *)
Definition uploadPhotosBody (allPhotos newPhotoUrls : list Json)
    (updatedUser : option User.t) : Json :=
  JObj [("photos", JArr allPhotos); ("newPhotos", JArr newPhotoUrls);
        ("user", publicOrNull updatedUser)].

(** [DELETE /api/photos] *)
Definition deletePhotoBody (updatedPhotos : list Json)
    (updatedUser : option User.t) : Json :=
  JObj [("photos", JArr updatedPhotos); ("user", publicOrNull updatedUser)].

(** The columns of [users] that [toPublicUser] is there to hold back. *)
Definition private_columns : list string :=
  ["password"; "email"; "filterGender"; "filterLocation"; "filterAgeMin";
   "filterAgeMax"].

Definition public_columns : list string :=
  ["id"; "username"; "firstName"; "lastName"; "gender"; "age"; "location";
   "bio"; "profilePhoto"; "photos"; "isOnline"; "lastSeen"].

(** A JSON value is a public profile when it is an object with exactly the
    public columns and none of the private ones. *)
Definition is_public_profile (j : Json) : Prop :=
  match j with
  | JObj o =>
      obj_keys o = public_columns
      ∧ Forall (λ k, obj_get k o = None) private_columns
  | _ => False
  end.

(** ** The event loop

    One event is handled at a time. A [Connection] event brings a socket
    object the server has not seen before, already open; [WsClosed] is the
    transport reporting that a socket is gone, after which its listeners
    are never called again. [PostLogout] and [GetUserProfile] are the two
    HTTP requests that touch the sockets. [Tick] and [SessionWrite] are the
    clock and the login collaborator, which act on the process from
    outside. *)

Inductive Event : Type :=
| Connection (ws : nat) (req : Request) (storeErr : bool)
| WsMessage (ws : nat) (message : Inbound)
| WsClosed (ws : nat)
| PostLogout (reqUser : option User.t) (logoutErr : bool)
| GetUserProfile (reqUser : option User.t) (userId : string)
| Tick
| SessionWrite (sid : string) (data : option SessionData).

Definition known_socket (ws : nat) : M bool :=
  gets (λ st, bool_decide (is_Some (sockets st !! ws))).

Definition listener_of (ws : nat) : M (option string) :=
  gets (λ st, listeners st !! ws).

Definition handle (e : Event) : M unit :=
  match e with
  | Connection ws req storeErr =>
      known ← known_socket ws;
      if (known : bool) then skip
      else modify (set_sockets <[ws := OPEN]>);; onConnection ws req storeErr
  | WsMessage ws message =>
      listener ← listener_of ws;
      match (listener : option string) with
      | Some userId => onMessage ws userId message
      | None => skip
      end
  | WsClosed ws =>
      modify (set_sockets (alter (λ _, CLOSED) ws));;
      listener ← listener_of ws;
      match (listener : option string) with
      | Some userId => onClose userId;; modify (set_listeners (delete ws))
      | None => skip
      end
  | PostLogout reqUser logoutErr => postLogout reqUser logoutErr
  | GetUserProfile reqUser userId => getUserProfile reqUser userId
  | Tick => modify (set_clock S)
  | SessionWrite sid data =>
      modify (set_sessionStore
                (λ m, match data with
                      | Some d => <[sid := d]> m
                      | None => delete sid m
                      end))
  end.

Definition step (st : State) (e : Event) : State := exec (handle e) st.

Definition run (st : State) (es : list Event) : State := fold_left step es st.

(** The effects a computation adds to the trace. *)
Definition new_effects (before after : State) : list Effect :=
  drop (length (trace before)) (trace after).

(** ** Vocabulary of the properties *)

(** The socket [sendToUser] would write to: the registry has an entry for
    the user and the entry's socket is open. *)
Definition deliverable (userId : string) (st : State) : option nat :=
  match JsMap.get userId (connectedUsers st) with
  | Some c =>
      if bool_decide (default CLOSED (sockets st !! conn_ws c) = OPEN)
      then Some (conn_ws c) else None
  | None => None
  end.

(** Classifiers of effects. *)
Definition is_WsSend (e : Effect) : bool :=
  match e with WsSend _ _ => true | _ => false end.

Definition is_userOffline_to (ws : nat) (userId : string) (e : Effect) : bool :=
  match e with
  | WsSend h (userOffline u) => Nat.eqb h ws && String.eqb u userId
  | _ => false
  end.

Definition is_userOffline (e : Effect) : bool :=
  match e with WsSend _ (userOffline _) => true | _ => false end.

Definition is_CreatedNotification (e : Effect) : bool :=
  match e with Stored (CreatedNotification _) => true | _ => false end.

Definition is_newNotification (e : Effect) : bool :=
  match e with
  | WsSend _ (newNotification _ _ _ _ _ _ _) => true
  | _ => false
  end.

(** A computation [preserves] a component of the state when running it
    leaves that component as it was. *)
Definition preserves {A B} (f : State → B) (c : M A) : Prop :=
  ∀ st, f (exec c st) = f st.

(** The focus tracker as the design document words it: [open] adds the
    peer to the user's set, creating the set if absent; [close] removes it
    and deletes the set entry if it becomes empty. *)
Module FocusTrackerSpec.
Definition open (u x : string) (m : gmap string (gset string)) :
    gmap string (gset string) :=
  <[u := default ∅ (m !! u) ∪ {[x]}]> m.

Definition close (u x : string) (m : gmap string (gset string)) :
    gmap string (gset string) :=
  match m !! u with
  | Some peers =>
      if decide (peers ∖ {[x]} = ∅) then delete u m
      else <[u := peers ∖ {[x]}]> m
  | None => m
  end.
End FocusTrackerSpec.

(** Every key of a storage map was drawn from [randomUUID] before the
    generator reached [seed]. *)
Definition minted {V} (seed : nat) (m : list (string * V)) : Prop :=
  ∀ k, k ∈ JsMap.keys m → ∃ i, i < seed ∧ k = uuid_of i.

(** The invariant of the process. *)
Record invariant (st : State) : Prop := {
  inv_registry : JsMap.wf (connectedUsers st);
  inv_listeners : ∀ ws u, listeners st !! ws = Some u → u ≠ "";
  inv_conversations : minted (uuidSeed st) (MemStorage.conversations (storage st));
  inv_messages : minted (uuidSeed st) (MemStorage.messages (storage st));
  inv_notifications : minted (uuidSeed st) (MemStorage.notifications (storage st))
}.

(** The process starts with no socket, an empty registry and an empty
    focus tracker, on whatever the storage layer holds. *)
Record initial (st : State) : Prop := {
  init_connectedUsers : connectedUsers st = [];
  init_activeChatWindows : activeChatWindows st = ∅;
  init_sockets : sockets st = ∅;
  init_listeners : listeners st = ∅;
  init_trace : trace st = [];
  init_conversations : minted (uuidSeed st) (MemStorage.conversations (storage st));
  init_messages : minted (uuidSeed st) (MemStorage.messages (storage st));
  init_notifications : minted (uuidSeed st) (MemStorage.notifications (storage st))
}.

Inductive reachable : State → Prop :=
| reachable_initial st : initial st → reachable st
| reachable_step st e : reachable st → reachable (step st e).

(** An [openChatWindow] or a [closeChatWindow] frame for peer [x], and the
    operation of the design document it stands for. *)
Definition focus_frame (opening : bool) (x : string) : Inbound :=
  if opening then openChatWindow x else closeChatWindow x.

Definition focus_op (opening : bool) (u x : string)
    (m : gmap string (gset string)) : gmap string (gset string) :=
  if opening then FocusTrackerSpec.open u x m else FocusTrackerSpec.close u x m.

(** A computation [keeps] a property of the state when the property
    survives running it. *)
Definition keeps {A} (P : State → Prop) (c : M A) : Prop :=
  ∀ st, P st → P (exec c st).

(** The session verifier of the design document: what the handshake
    decides before it touches the registry. *)
Inductive Verdict : Type :=
| Authenticated (userIdentity : string)
| Unauthenticated
| PrincipalNotFound
| VerifierFailed.

Definition sessionVerifier (req : Request) (storeErr : bool) (st : State) :
    Verdict :=
  let sessionId := JsMap.get "connect.sid" (cookies req) in
  if negb (truthy_str sessionId) then Unauthenticated
  else
    let sid := default "" sessionId in
    let actualSessionId :=
      if String.prefix "s:" sid then before_dot (slice2 sid) else sid in
    if storeErr then VerifierFailed
    else
      let principal :=
        match sessionStore st !! actualSessionId with
        | Some d =>
            match session_passport d with
            | Some p => passport_user p
            | None => None
            end
        | None => None
        end in
      if negb (truthy_str principal) then Unauthenticated
      else
        match MemStorage.getUser (default "" principal) (storage st) with
        | Some _ => Authenticated (default "" principal)
        | None => PrincipalNotFound
        end.

(** ** Vocabulary of the notification store *)

(** [createNotification] files every row under its own [id]. *)
Definition keyed (m : list (string * Notification.t)) : Prop :=
  Forall (λ e, Notification.id e.2 = e.1) m.

(** What [markAllNotificationsAsRead(userId)] is meant to do to one row. *)
Definition mark_read (userId : string) (n : Notification.t) : Notification.t :=
  if MemStorage.unread_of userId n then Notification.read n else n.

(** The rows that belong to somebody else. *)
Definition of_others {K} (userId : string) (e : K * Notification.t) : bool :=
  negb (String.eqb (Notification.userId e.2) userId).

(** ** The message router, step by step

    The [sendMessage] case cut at the numbered steps of the design
    document: look up or create the conversation and persist the message;
    attempt delivery; evaluate suppression and notify; confirm. *)

Definition router_persist (userId receiverId : string)
    (content imageUrl : option string) : M (Conversation.t * Message.t) :=
  existing ← storage_getConversation userId receiverId;
  conversation ←
    match existing with
    | Some c => mret c
    | None =>
        storage_createConversation
          {| ic_participant1Id := userId; ic_participant2Id := receiverId |}
    end;
  newMsg ← storage_createMessage
    {| im_conversationId := Conversation.id conversation;
       im_senderId := userId;
       im_content := content;
       im_imageUrl := imageUrl |};
  mret (conversation, newMsg).

Definition router_deliver (userId receiverId : string) (newMsg : Message.t) :
    M (option UserConnection) :=
  receiverConnection ← gets (λ st, JsMap.get receiverId (connectedUsers st));
  ok ← writable receiverConnection;
  match receiverConnection, ok with
  | Some c, true =>
      senderUser ← storage_getUser userId;
      ws_send (conn_ws c) (newMessage newMsg (publicOrNull senderUser))
  | _, _ => skip
  end;;
  mret receiverConnection.

Definition router_notify (userId receiverId : string)
    (conversation : Conversation.t) (receiverConnection : option UserConnection) :
    M unit :=
  senderHasChatOpen ← gets (isFocused userId receiverId);
  receiverHasChatOpen ← gets (isFocused receiverId userId);
  let bothActivelyChatting := senderHasChatOpen && receiverHasChatOpen in
  if negb bothActivelyChatting then
    notification ← storage_createNotification
      {| in_userId := receiverId;
         in_type := message_received;
         in_fromUserId := userId;
         in_conversationId := Some (Conversation.id conversation);
         in_data := JNull |};
    senderUser ← storage_getUser userId;
    ok' ← writable receiverConnection;
    match senderUser, receiverConnection, ok' with
    | Some u, Some c, true =>
        ws_send (conn_ws c)
          (newNotification (Notification.id notification) message_received
             userId (User.firstName u) (User.profilePhoto u)
             (User.firstName u +:+ " sent you a message.")
             (Notification.createdAt notification))
    | _, _, _ => skip
    end
  else skip.

Definition router_steps (ws : nat) (userId receiverId : string)
    (content imageUrl : option string) : M unit :=
  persisted ← router_persist userId receiverId content imageUrl;
  receiverConnection ← router_deliver userId receiverId persisted.2;
  router_notify userId receiverId persisted.1 receiverConnection;;
  ws_send ws (messageConfirmed persisted.2).

(** Two states that differ in their traces at most. *)
Definition same_but_trace (st st' : State) : Prop :=
  st' = set_trace (λ _, trace st') st.

(** The items of a JSON array and the entries of a JSON object stored
    under one key. *)
Definition array_items (j : Json) : list Json :=
  match j with JArr items => items | _ => [] end.

Definition fields_named (k : string) (j : Json) : list Json :=
  match j with
  | JObj o => (List.filter (λ e, String.eqb e.1 k) o).*2
  | _ => []
  end.

(** The frames [broadcastToAll(message)] writes: one per registry entry
    whose socket is open, in registry order. *)
Definition broadcast_frames (message : Outbound)
    (conns : list (string * UserConnection)) (socks : gmap nat ReadyState) :
    list Effect :=
  map (λ entry, WsSend (conn_ws entry.2) message)
      (List.filter
         (λ entry, bool_decide (default CLOSED (socks !! conn_ws entry.2) = OPEN))
         conns).

(** ** Sample data: two users, their sessions, and both of them online *)

Definition sample_user (id name : string) : User.t :=
  User.mk id name "secret" (name +:+ "@example.org") name "Doe" "other" None
          30%Z None None JNull (Some false) None None None None None None.

Definition alice : User.t := sample_user "A" "alice".
Definition bob : User.t := sample_user "B" "bob".

Definition sample_session (userId : string) : SessionData :=
  {| session_passport := Some {| passport_user := Some userId |} |}.

Definition sample_request (sid : string) : Request :=
  {| cookies := [("connect.sid", sid)] |}.

Definition sample_start : State :=
  mkState (MemStorage.mk [("A", alice); ("B", bob)] [] [] [])
          (<["sa" := sample_session "A"]> (<["sb" := sample_session "B"]> ∅))
          [] ∅ ∅ ∅ 0 0 [].

(** Alice connects on socket 1 with a signed cookie, Bob on socket 2. *)
Definition sample_online : State :=
  run sample_start
      [Connection 1 (sample_request "s:sa.signature") false;
       Connection 2 (sample_request "sb") false].

(** A notification store of two unread rows, one for Bob and one for Alice. *)
Definition sample_notifications : MemStorage.t :=
  MemStorage.mk [("A", alice); ("B", bob)] [] []
    [("n1", Notification.mk "n1" "B" message_received "A" None (Some false)
              JNull (Some 0));
     ("n2", Notification.mk "n2" "A" profile_view "B" None None JNull (Some 1))].

(** ** Vocabulary of the further properties *)

(** A session id as the session middleware mints it has no dot in it;
    the dot separates it from the signature in the signed cookie. *)
Fixpoint dot_free (s : string) : bool :=
  match s with
  | "" => true
  | String c r => negb (Ascii.eqb c "."%char) && dot_free r
  end.

(** A cookie jar that holds the session cookie and nothing else. *)
Definition session_cookie (value : string) : Request :=
  {| cookies := [("connect.sid", value)] |}.

(** What a rejected handshake tells the client: close code and reason. *)
Definition rejection (v : Verdict) : option (nat * string) :=
  match v with
  | Authenticated _ => None
  | Unauthenticated => Some (1008, "Authentication required")
  | PrincipalNotFound => Some (1008, "User not found")
  | VerifierFailed => Some (1011, "Authentication failed")
  end.

(** No two stored conversations are between the same two users. *)
Definition one_conversation_per_pair (m : list (string * Conversation.t)) : Prop :=
  ∀ i j e1 e2,
    m !! i = Some e1 → m !! j = Some e2 →
    MemStorage.same_pair (Conversation.participant1Id e1.2)
                         (Conversation.participant2Id e1.2) e2.2 = true →
    i = j.

(** The users whose stored row says they are online, by key. *)
Definition online_keys (s : MemStorage.t) : list string :=
  (List.filter (λ e, truthy_bool (User.isOnline e.2)) (MemStorage.users s)).*1.


(** ** The HTTP routes that read and write the storage only

    [req.user] comes in as [reqUser], [None] when [req.isAuthenticated()]
    is false; what a route reads from the parameters, the query string or
    the body comes in as arguments, with the types the client sends.
    [updateUser] and the notification updates change the storage and leave
    no entry of their own in the trace. *)

Definition storage_updateUser (id : string) (updates : PartialUser.t) :
    M (option User.t) :=
  λ st, let r := MemStorage.updateUser id updates (storage st) in
        (r.1, set_storage (λ _, r.2) st).

Definition storage_getMessages (conversationId : string) : M (list Message.t) :=
  gets (λ st, MemStorage.getMessages conversationId (storage st)).

(** [GET /api/conversations/:userId/messages] *)
Definition getConversationMessages (reqUser : option User.t) (userId : string) :
    M unit :=
  match reqUser with
  | None => emit (SendStatus 401)
  | Some me =>
      existing ← storage_getConversation (User.id me) userId;
      conversation ←
        match existing with
        | Some c => mret c
        | None =>
            (* Create conversation if it doesn't exist *)
            storage_createConversation
              {| ic_participant1Id := User.id me; ic_participant2Id := userId |}
        end;
      messages ← storage_getMessages (Conversation.id conversation);
      emit (SendJson 200 (JArr (map (λ m, JObj (Message.to_json m)) messages)))
  end.

(** [GET /api/conversations]: [toPublicUser(conv.otherUser)] throws when
    the other participant has no row, and the [catch] answers 500. *)
Definition joinedConversation (conv : EnrichedConversation) :
    option ConversationWithUser :=
  match ec_otherUser conv with
  | Some otherUser =>
      Some {| cu_conversation := ec_conversation conv;
              cu_otherUser := otherUser;
              cu_lastMessage := ec_lastMessage conv |}
  | None => None
  end.

Definition getConversations (reqUser : option User.t) : M unit :=
  match reqUser with
  | None => emit (SendStatus 401)
  | Some me =>
      conversations ←
        gets (λ st, MemStorage.getUserConversations (User.id me) (storage st));
      match mapM joinedConversation conversations with
      | Some joined => emit (SendJson 200 (conversationsBody joined))
      | None =>
          emit (SendJson 500 (message_body "Failed to fetch conversations"))
      end
  end.

(** [PATCH /api/profile] *)
Definition patchProfile (reqUser : option User.t) (body : PartialUser.t) :
    M unit :=
  match reqUser with
  | None => emit (SendStatus 401)
  | Some me =>
      let updates := body in
      let updates := PartialUser.delete_id updates in (* Prevent ID modification *)
      let updates := PartialUser.delete_password updates in
      updatedUser ← storage_updateUser (User.id me) updates;
      match updatedUser with
      | None => emit (SendJson 404 (message_body "User not found"))
      | Some u => emit (SendJson 200 (profileBody u))
      end
  end.

(** The filter preferences: [x || ""], [n || 20] and [x || null] on the
    strings and numbers of a JSON body. *)
Definition or_str (o : option string) (d : string) : string :=
  if truthy_str o then default d o else d.

Definition or_num (o : option Z) (d : Z) : Z :=
  match o with
  | Some n => if (n =? 0)%Z then d else n
  | None => d
  end.

Definition or_null_num (o : option Z) : option Z :=
  match o with
  | Some n => if (n =? 0)%Z then None else Some n
  | None => None
  end.

Definition filtersJson (gender location : string) (ageMin ageMax : Z) : Json :=
  JObj [("gender", JStr gender); ("location", JStr location);
        ("ageMin", JNum ageMin); ("ageMax", JNum ageMax)].

Definition savedFilters (user : User.t) : Json :=
  filtersJson (or_str (User.filterGender user) "")
              (or_str (User.filterLocation user) "")
              (or_num (User.filterAgeMin user) 20)
              (or_num (User.filterAgeMax user) 40).

(** [GET /api/user/filters] *)
Definition getFilters (reqUser : option User.t) : M unit :=
  match reqUser with
  | None => emit (SendStatus 401)
  | Some me =>
      user ← storage_getUser (User.id me);
      match user with
      | None => emit (SendJson 404 (message_body "User not found"))
      | Some user => emit (SendJson 200 (savedFilters user))
      end
  end.

(** [PATCH /api/user/filters], with [{ gender, location, ageMin, ageMax }]
    taken from the body *)
Definition patchFilters (reqUser : option User.t)
    (gender location : option string) (ageMin ageMax : option Z) : M unit :=
  match reqUser with
  | None => emit (SendStatus 401)
  | Some me =>
      updatedUser ← storage_updateUser (User.id me)
        (PartialUser.of_filters (or_null gender) (or_null location)
                                (or_null_num ageMin) (or_null_num ageMax));
      match updatedUser with
      | None => emit (SendJson 404 (message_body "User not found"))
      | Some updatedUser => emit (SendJson 200 (savedFilters updatedUser))
      end
  end.

(** [DELETE /api/user/filters] *)
Definition deleteFilters (reqUser : option User.t) : M unit :=
  match reqUser with
  | None => emit (SendStatus 401)
  | Some me =>
      updatedUser ← storage_updateUser (User.id me)
        (PartialUser.of_filters None None None None);
      match updatedUser with
      | None => emit (SendJson 404 (message_body "User not found"))
      | Some _ => emit (SendJson 200 (filtersJson "" "" 20 40))
      end
  end.

(** [POST /api/upload/profile]: [file] is [req.file.filename]. *)
Definition uploadProfile (reqUser : option User.t) (file : option string) :
    M unit :=
  match reqUser with
  | None => emit (SendStatus 401)
  | Some me =>
      match file with
      | None => emit (SendJson 400 (message_body "No file uploaded"))
      | Some filename =>
          let profilePhotoUrl := "/uploads/" +:+ filename in
          updatedUser ← storage_updateUser (User.id me)
            (PartialUser.of_profilePhoto profilePhotoUrl);
          emit (SendJson 200 (uploadProfileBody profilePhotoUrl updatedUser))
      end
  end.

(** [currentUser.photos && Array.isArray(currentUser.photos) ?
    currentUser.photos : []] *)
Definition existingPhotos (currentUser : User.t) : list Json :=
  match User.photos currentUser with
  | JArr photos => photos
  | _ => []
  end.

(** [POST /api/upload/photos]: [files] are the names of [req.files]; the
    upload middleware hands over five files at most. *)
Definition uploadPhotos (reqUser : option User.t) (files : list string) :
    M unit :=
  match reqUser with
  | None => emit (SendStatus 401)
  | Some me =>
      if bool_decide (length files = 0) then
        emit (SendJson 400 (message_body "No files uploaded"))
      else
        (* Get current user to check existing photos *)
        currentUser ← storage_getUser (User.id me);
        match currentUser with
        | None => emit (SendJson 404 (message_body "User not found"))
        | Some currentUser =>
            let existingPhotos := existingPhotos currentUser in
            let newPhotoUrls := map (λ file, JStr ("/uploads/" +:+ file)) files in
            (* Ensure total photos don't exceed 5 (including existing ones) *)
            let allPhotos := existingPhotos ++ newPhotoUrls in
            if bool_decide (5 < length allPhotos) then
              emit (SendJson 400
                      (JObj [("message",
                              JStr ("Maximum 5 photos allowed. You currently have "
                                    +:+ pretty (length existingPhotos)
                                    +:+ " photos."));
                             ("maxPhotos", JNum 5);
                             ("currentCount",
                              JNum (Z.of_nat (length existingPhotos)));
                             ("attemptedUpload",
                              JNum (Z.of_nat (length newPhotoUrls)))]))
            else
              updatedUser ← storage_updateUser (User.id me)
                (PartialUser.of_photos (JArr allPhotos));
              emit (SendJson 200
                      (uploadPhotosBody allPhotos newPhotoUrls updatedUser))
        end
  end.

(** [photo !== photoUrl], for a [photoUrl] that is a string *)
Definition strict_ne (photo : Json) (photoUrl : string) : bool :=
  match photo with
  | JStr s => negb (String.eqb s photoUrl)
  | _ => true
  end.

(** [DELETE /api/photos] *)
Definition deletePhoto (reqUser : option User.t) (photoUrl : option string) :
    M unit :=
  match reqUser with
  | None => emit (SendStatus 401)
  | Some me =>
      if negb (truthy_str photoUrl) then
        emit (SendJson 400 (message_body "Photo URL is required"))
      else
        currentUser ← storage_getUser (User.id me);
        match currentUser with
        | None => emit (SendJson 404 (message_body "User not found"))
        | Some currentUser =>
            let existingPhotos := existingPhotos currentUser in
            let updatedPhotos :=
              List.filter (λ photo, strict_ne photo (default "" photoUrl))
                          existingPhotos in
            if bool_decide (length existingPhotos = length updatedPhotos) then
              emit (SendJson 404 (message_body "Photo not found in gallery"))
            else
              updatedUser ← storage_updateUser (User.id me)
                (PartialUser.of_photos (JArr updatedPhotos));
              emit (SendJson 200 (deletePhotoBody updatedPhotos updatedUser))
        end
  end.

(** The notification routes *)
Definition joinedNotification (notification : EnrichedNotification) :
    option NotificationWithUser :=
  match en_fromUser notification with
  | Some fromUser =>
      Some {| nu_notification := en_notification notification;
              nu_fromUser := fromUser |}
  | None => None
  end.

(** [GET /api/notifications] *)
Definition getNotifications (reqUser : option User.t) : M unit :=
  match reqUser with
  | None => emit (SendStatus 401)
  | Some me =>
      notifications ←
        gets (λ st, MemStorage.getUserNotifications (User.id me) (storage st));
      match mapM joinedNotification notifications with
      | Some joined => emit (SendJson 200 (notificationsBody joined))
      | None =>
          emit (SendJson 500 (message_body "Failed to fetch notifications"))
      end
  end.

(** [GET /api/notifications/unread-count] *)
Definition getUnreadCount (reqUser : option User.t) : M unit :=
  match reqUser with
  | None => emit (SendStatus 401)
  | Some me =>
      count ← gets (λ st, MemStorage.getUnreadNotificationCount (User.id me)
                            (storage st));
      emit (SendJson 200 (JObj [("count", JNum (Z.of_nat count))]))
  end.

(** [POST /api/notifications/mark-read/:id] *)
Definition postMarkRead (reqUser : option User.t) (id : string) : M unit :=
  match reqUser with
  | None => emit (SendStatus 401)
  | Some _ =>
      modify (set_storage (MemStorage.markNotificationAsRead id));;
      emit (SendStatus 200)
  end.

(** [POST /api/notifications/mark-all-read] *)
Definition postMarkAllRead (reqUser : option User.t) : M unit :=
  match reqUser with
  | None => emit (SendStatus 401)
  | Some me =>
      modify (set_storage (MemStorage.markAllNotificationsAsRead (User.id me)));;
      emit (SendStatus 200)
  end.

(** [DELETE /api/notifications/:id] *)
Definition deleteNotificationRoute (reqUser : option User.t) (id : string) :
    M unit :=
  match reqUser with
  | None => emit (SendStatus 401)
  | Some _ =>
      modify (set_storage (MemStorage.deleteNotification id));;
      emit (SendStatus 200)
  end.

(** ** Discovery: [GET /api/users] and [GET /api/users/online]

    [parseInt] ([None] is [NaN]) and [toLowerCase] are the built-ins of
    the language, taken as they are. *)

(** [s.includes(sub)] *)
Definition includes (s sub : string) : bool :=
  match String.index 0 sub s with Some _ => true | None => false end.

Record UsersQuery : Type := {
  q_gender : option string;
  q_location : option string;
  q_ageMin : option string;
  q_ageMax : option string
}.

Section discovery.
Variable parseInt : string → option Z.
Variable toLowerCase : string → string.

Definition discover (reqUserId : string) (query : UsersQuery)
    (users : list User.t) : list User.t :=
  (* Filter out current user *)
  let users :=
    List.filter (λ user, negb (String.eqb (User.id user) reqUserId)) users in
  (* Apply filters with validation *)
  let users :=
    if truthy_str (q_gender query) then
      List.filter
        (λ user, String.eqb (User.gender user) (default "" (q_gender query)))
        users
    else users in
  let users :=
    if truthy_str (q_location query) then
      List.filter
        (λ user,
           truthy_str (User.location user)
           && includes (toLowerCase (default "" (User.location user)))
                       (toLowerCase (default "" (q_location query))))
        users
    else users in
  let users :=
    if truthy_str (q_ageMin query) then
      match parseInt (default "" (q_ageMin query)) with
      | Some minAge =>
          if (18 <=? minAge)%Z
          then List.filter (λ user, (minAge <=? User.age user)%Z) users
          else users
      | None => users
      end
    else users in
  let users :=
    if truthy_str (q_ageMax query) then
      match parseInt (default "" (q_ageMax query)) with
      | Some maxAge =>
          if (maxAge <=? 99)%Z
          then List.filter (λ user, (User.age user <=? maxAge)%Z) users
          else users
      | None => users
      end
    else users in
  users.

Definition getUsers (online : bool) (reqUser : option User.t)
    (query : UsersQuery) : M unit :=
  match reqUser with
  | None => emit (SendStatus 401)
  | Some me =>
      users ← gets (λ st, if online then MemStorage.getOnlineUsers (storage st)
                          else MemStorage.getAllUsers (storage st));
      emit (SendJson 200
              (JArr (map (λ user, JObj (toPublicUser user))
                         (discover (User.id me) query users))))
  end.
End discovery.

(** ** Vocabulary of the storage properties *)

(** [createUser] files every row under its own [id]. *)
Definition users_keyed (m : list (string * User.t)) : Prop :=
  Forall (λ e, User.id e.2 = e.1) m.

(** The rows of [userId] whose [isRead] is NULL. *)
Definition unread_unknown (userId : string) (row : Notification.t) : bool :=
  String.eqb (Notification.userId row) userId
  && match Notification.isRead row with Some _ => false | None => true end.

(** The conversations [userId] takes part in. *)
Definition involves (userId : string) (conv : Conversation.t) : bool :=
  String.eqb (Conversation.participant1Id conv) userId
  || String.eqb (Conversation.participant2Id conv) userId.

(** The other participant of a conversation, as [getUserConversations]
    picks it. *)
Definition otherUserId (userId : string) (conv : Conversation.t) : string :=
  if String.eqb (Conversation.participant1Id conv) userId
  then Conversation.participant2Id conv
  else Conversation.participant1Id conv.

(** The answer of a route: the effects it added to the trace. *)
Definition answer (route : M unit) (st : State) : list Effect :=
  new_effects st (exec route st).

(** A joined row seen as the enriched row it was made from. *)
Definition enrichedConversation (conv : ConversationWithUser) :
    EnrichedConversation :=
  {| ec_conversation := cu_conversation conv;
     ec_otherUser := Some (cu_otherUser conv);
     ec_lastMessage := cu_lastMessage conv |}.

Definition enrichedNotification (notification : NotificationWithUser) :
    EnrichedNotification :=
  {| en_notification := nu_notification notification;
     en_fromUser := Some (nu_fromUser notification) |}.

(** The query without its [ageMin], and without its [ageMax]. *)
Definition without_ageMin (query : UsersQuery) : UsersQuery :=
  {| q_gender := q_gender query; q_location := q_location query;
     q_ageMin := None; q_ageMax := q_ageMax query |}.

Definition without_ageMax (query : UsersQuery) : UsersQuery :=
  {| q_gender := q_gender query; q_location := q_location query;
     q_ageMin := q_ageMin query; q_ageMax := None |}.

(** The focus tracker holds no empty set, every focus set belongs to a
    user for whom some socket still has its listeners installed, and
    listeners are installed on accepted sockets only. *)
Record focus_live (st : State) : Prop := {
  live_listeners :
    ∀ ws u, listeners st !! ws = Some u → is_Some (sockets st !! ws);
  live_nonempty :
    ∀ u peers, activeChatWindows st !! u = Some peers → peers ≠ ∅;
  live_owner :
    ∀ u peers, activeChatWindows st !! u = Some peers →
               ∃ ws, listeners st !! ws = Some u
}.

(** What the focus tracker depends on. *)
Definition connections (st : State) :
    gmap nat ReadyState * gmap nat string * gmap string (gset string) :=
  (sockets st, listeners st, activeChatWindows st).

(** Every registry entry is filed under the user it names, and the
    socket it holds has the listeners of that user installed. *)
Definition registry_live (st : State) : Prop :=
  ∀ u c, JsMap.get u (connectedUsers st) = Some c →
         conn_userId c = u ∧ listeners st !! conn_ws c = Some u.

(** What the registry invariant depends on. *)
Definition registrations (st : State) :
    list (string * UserConnection) * gmap nat string :=
  (connectedUsers st, listeners st).

(** * Properties *)

(** ** Facts about [JsMap] *)

Section JsMap_facts.
Context {K V : Type} `{EqDecision K}.
Import JsMap.
Implicit Types (k : K) (v : V) (m : list (K * V)).

Lemma JsMap_get_None k m : get k m = None ↔ k ∉ keys m.
Proof.
  induction m as [|[k' v] r IH]; simpl.
  - split; [intros _; apply not_elem_of_nil | done].
  - rewrite not_elem_of_cons. destruct (decide (k = k')) as [->|Hne].
    + split; [done | intros [? _]; done].
    + rewrite IH. tauto.
Qed.

Lemma JsMap_get_Some_elem k v m : get k m = Some v → (k, v) ∈ m.
Proof.
  induction m as [|[k' v'] r IH]; simpl; [done|].
  destruct (decide (k = k')) as [->|Hne].
  - intros [= ->]. left.
  - intros H'. right. auto.
Qed.

Lemma JsMap_elem_get k v m : wf m → (k, v) ∈ m → get k m = Some v.
Proof.
  unfold wf, keys. induction m as [|[k' v'] r IH]; simpl.
  - intros _ H'. by apply elem_of_nil in H'.
  - rewrite NoDup_cons. intros [Hnotin Hnd] Hin.
    apply elem_of_cons in Hin as [[= -> ->]|Hin].
    + by rewrite decide_True.
    + destruct (decide (k = k')) as [->|Hne]; [|by apply IH].
      exfalso. apply Hnotin. apply list_elem_of_fmap. by exists (k', v).
Qed.

Lemma JsMap_get_set_eq k v m : get k (set k v m) = Some v.
Proof.
  induction m as [|[k' v'] r IH]; simpl.
  - by rewrite decide_True.
  - destruct (decide (k = k')) as [->|Hne]; simpl.
    + by rewrite decide_True.
    + by rewrite decide_False.
Qed.

Lemma JsMap_get_set_ne k k' v m : k ≠ k' → get k' (set k v m) = get k' m.
Proof.
  intros Hne. induction m as [|[k0 v0] r IH]; simpl.
  - by rewrite decide_False.
  - destruct (decide (k = k0)) as [->|Hne0]; simpl.
    + by rewrite !decide_False.
    + by rewrite IH.
Qed.

Lemma JsMap_get_delete_eq k m : get k (delete k m) = None.
Proof.
  induction m as [|[k' v'] r IH]; simpl; [done|].
  destruct (decide (k = k')) as [->|Hne]; simpl; [done|].
  by rewrite decide_False.
Qed.

Lemma JsMap_get_delete_ne k k' m : k ≠ k' → get k' (delete k m) = get k' m.
Proof.
  intros Hne. induction m as [|[k0 v0] r IH]; simpl; [done|].
  destruct (decide (k = k0)) as [->|Hne0]; simpl.
  - by rewrite decide_False.
  - by rewrite IH.
Qed.

Lemma JsMap_delete_absent k m : get k m = None → delete k m = m.
Proof.
  induction m as [|[k' v'] r IH]; simpl; [done|].
  destruct (decide (k = k')) as [->|Hne]; [done|].
  intros H'. by rewrite IH.
Qed.

Lemma JsMap_set_absent k v m : get k m = None → set k v m = m ++ [(k, v)].
Proof.
  induction m as [|[k' v'] r IH]; simpl; [done|].
  destruct (decide (k = k')) as [->|Hne]; [done|].
  intros H'. by rewrite IH.
Qed.

Lemma JsMap_keys_set_present k v m : has k m = true → keys (set k v m) = keys m.
Proof.
  unfold has, keys. induction m as [|[k' v'] r IH]; simpl; [done|].
  destruct (decide (k = k')) as [->|Hne]; simpl; [done|].
  intros H'. f_equal. by apply IH.
Qed.

Lemma JsMap_elem_of_keys_set k k' v m :
  k' ∈ keys (set k v m) ↔ k' = k ∨ k' ∈ keys m.
Proof.
  unfold keys. induction m as [|[k0 v0] r IH]; simpl.
  - rewrite list_elem_of_singleton. split; [auto|].
    intros [?|H']; [done|]. by apply elem_of_nil in H'.
  - destruct (decide (k = k0)) as [->|Hne]; simpl.
    + rewrite !elem_of_cons. tauto.
    + rewrite !elem_of_cons, IH. tauto.
Qed.

Lemma JsMap_elem_of_keys_delete k k' m :
  k' ∈ keys (delete k m) ↔ k' ≠ k ∧ k' ∈ keys m.
Proof.
  unfold keys. induction m as [|[k0 v0] r IH]; simpl.
  - split; [intros H'; by apply elem_of_nil in H' | intros [_ H']; done].
  - destruct (decide (k = k0)) as [->|Hne]; simpl.
    + rewrite IH, elem_of_cons. naive_solver.
    + rewrite !elem_of_cons, IH. naive_solver.
Qed.

Lemma JsMap_wf_nil : wf (@nil (K * V)).
Proof. constructor. Qed.

Lemma JsMap_wf_set k v m : wf m → wf (set k v m).
Proof.
  unfold wf. induction m as [|[k' v'] r IH]; simpl.
  - intros _. apply NoDup_singleton.
  - change (keys ((k', v') :: r)) with (k' :: keys r).
    rewrite NoDup_cons. intros [Hnotin Hnd].
    destruct (decide (k = k')) as [->|Hne].
    + change (keys ((k', v) :: r)) with (k' :: keys r).
      by apply NoDup_cons.
    + change (keys ((k', v') :: set k v r)) with (k' :: keys (set k v r)).
      apply NoDup_cons. split; [|by apply IH].
      rewrite JsMap_elem_of_keys_set. naive_solver.
Qed.

Lemma JsMap_wf_delete k m : wf m → wf (delete k m).
Proof.
  unfold wf. induction m as [|[k' v'] r IH]; simpl; [done|].
  change (keys ((k', v') :: r)) with (k' :: keys r).
  rewrite NoDup_cons. intros [Hnotin Hnd].
  destruct (decide (k = k')) as [->|Hne]; [by apply IH|].
  change (keys ((k', v') :: delete k r)) with (k' :: keys (delete k r)).
  apply NoDup_cons. split; [|by apply IH].
  rewrite JsMap_elem_of_keys_delete. naive_solver.
Qed.

(** Under [wf] the entries stored under a key are exactly what [get]
    returns. *)
Lemma JsMap_entries_get k m :
  wf m →
  entries k m = match get k m with Some v => [(k, v)] | None => [] end.
Proof.
  unfold wf, entries. induction m as [|[k' v'] r IH]; simpl; [done|].
  change (keys ((k', v') :: r)) with (k' :: keys r).
  rewrite NoDup_cons. intros [Hnotin Hnd].
  rewrite filter_cons. simpl.
  destruct (decide (k = k')) as [->|Hne].
  - rewrite decide_True by done.
    assert (get k' r = None) as Hn by by apply JsMap_get_None.
    rewrite IH, Hn; done.
  - rewrite decide_False by done. by apply IH.
Qed.

Lemma JsMap_entries_length k m : wf m → length (entries k m) ≤ 1.
Proof.
  intros Hwf. rewrite JsMap_entries_get by done. destruct (get k m); simpl; lia.
Qed.

Lemma JsMap_length_set_present k v m :
  has k m = true → length (set k v m) = length m.
Proof.
  intros H'. apply JsMap_keys_set_present with (v := v) in H'.
  unfold keys in H'. apply (f_equal length) in H'.
  by rewrite !length_fmap in H'.
Qed.
End JsMap_facts.

(** ** Reasoning about handlers *)

Lemma run_bind {A B} (c : M A) (k : A → M B) (st : State) :
  (c ≫= k) st = k (c st).1 (c st).2.
Proof. unfold mbind, M_bind. destruct (c st); reflexivity. Qed.

Lemma exec_bind {A B} (c : M A) (k : A → M B) (st : State) :
  exec (c ≫= k) st = exec (k (eval c st)) (exec c st).
Proof. unfold exec, eval. by rewrite run_bind. Qed.

Lemma eval_bind {A B} (c : M A) (k : A → M B) (st : State) :
  eval (c ≫= k) st = eval (k (eval c st)) (exec c st).
Proof. unfold exec, eval. by rewrite run_bind. Qed.

Lemma new_effects_app (before after : State) (l : list Effect) :
  trace after = trace before ++ l → new_effects before after = l.
Proof. unfold new_effects. intros ->. by rewrite drop_app_length. Qed.

Lemma preserves_bind {A B C} (f : State → C) (c : M A) (k : A → M B) :
  preserves f c → (∀ a, preserves f (k a)) → preserves f (c ≫= k).
Proof. intros Hc Hk st. rewrite exec_bind, Hk. apply Hc. Qed.

Lemma preserves_ret {A C} (f : State → C) (a : A) : preserves f (mret a).
Proof. intros st. reflexivity. Qed.

Lemma preserves_skip {C} (f : State → C) : preserves f skip.
Proof. intros st. reflexivity. Qed.

Lemma preserves_gets {A C} (f : State → C) (g : State → A) :
  preserves f (gets g).
Proof. intros st. reflexivity. Qed.

Lemma preserves_forEach {A C} (f : State → C) (l : list A) (body : A → M unit) :
  (∀ x, preserves f (body x)) → preserves f (forEach l body).
Proof.
  intros Hbody. induction l as [|x r IH]; simpl.
  - apply preserves_ret.
  - apply preserves_bind; [apply Hbody | intros _; apply IH].
Qed.

Create HintDb handlers.
#[global] Hint Unfold storage_getUser storage_getConversation
  storage_createConversation storage_createMessage storage_createNotification
  storage_setUserOnlineStatus readyState ws_send ws_close writable emit
  newDate broadcastToAll sendToUser activeChatWindows_has
  activeChatWindows_get known_socket listener_of : handlers.

(** Decompose a [preserves] goal along the structure of the computation;
    a [modify] of some other component is closed by computation. *)
Ltac preserving :=
  repeat first
    [ apply preserves_skip
    | apply preserves_ret
    | apply preserves_gets
    | apply preserves_bind; [|intros ?]
    | apply preserves_forEach; intros ?
    | match goal with
      | |- preserves _ (if ?b then _ else _) => destruct b
      | |- preserves _ (match ?x with _ => _ end) => destruct x
      end
    | (intros ?; reflexivity)
    | progress autounfold with handlers ].

Lemma broadcastToAll_connectedUsers message :
  preserves connectedUsers (broadcastToAll message).
Proof. preserving. Qed.

Lemma broadcastToAll_activeChatWindows message :
  preserves activeChatWindows (broadcastToAll message).
Proof. preserving. Qed.

Lemma broadcastToAll_storage message : preserves storage (broadcastToAll message).
Proof. preserving. Qed.

Lemma broadcastToAll_sockets message : preserves sockets (broadcastToAll message).
Proof. preserving. Qed.

Lemma broadcastToAll_listeners message :
  preserves listeners (broadcastToAll message).
Proof. preserving. Qed.

Lemma broadcastToAll_uuidSeed message :
  preserves uuidSeed (broadcastToAll message).
Proof. preserving. Qed.

(** ** The connection registry: [sendToUser] *)

Lemma sendToUser_run userId message st :
  sendToUser userId message st =
  match deliverable userId st with
  | Some h => (true, set_trace (λ t, t ++ [WsSend h message]) st)
  | None => (false, st)
  end.
Proof.
  unfold sendToUser, deliverable. rewrite run_bind. simpl.
  destruct (JsMap.get userId (connectedUsers st)) as [c|]; simpl; [|done].
  rewrite !run_bind. simpl. by destruct (bool_decide _).
Qed.

(** C6. [sendToUser(userId, event)] answers [false] exactly when the
    registry has no entry for [userId] or the entry's socket is not OPEN,
    and then it changes nothing and writes nothing; otherwise it answers
    [true] and its only effect is one write of the event to the entry's
    socket. It is a total function: an absent or unreachable recipient is
    answered, never raised. *)
Theorem sendToUser_false_is_noop (userId : string) (message : Outbound) (st : State) :
  (eval (sendToUser userId message) st = false
   ↔ JsMap.get userId (connectedUsers st) = None
     ∨ ∃ c, JsMap.get userId (connectedUsers st) = Some c
            ∧ default CLOSED (sockets st !! conn_ws c) ≠ OPEN)
  ∧ (eval (sendToUser userId message) st = false
     → exec (sendToUser userId message) st = st)
  ∧ (eval (sendToUser userId message) st = true
     → ∃ c, JsMap.get userId (connectedUsers st) = Some c
            ∧ sockets st !! conn_ws c = Some OPEN
            ∧ exec (sendToUser userId message) st
              = set_trace (λ t, t ++ [WsSend (conn_ws c) message]) st).
Proof.
  unfold eval, exec. rewrite sendToUser_run. unfold deliverable.
  destruct (JsMap.get userId (connectedUsers st)) as [c|] eqn:Hget; simpl.
  - case_bool_decide as Hopen; simpl.
    + split_and!.
      * split; [done|]. intros [?|(c' & [= <-] & Hne)]; done.
      * done.
      * intros _. exists c. split_and!; [done| |done].
        destruct (sockets st !! conn_ws c) as [rs|]; simpl in Hopen; by subst.
    + split_and!; [|done|done].
      split; [|done]. intros _. right. by exists c.
  - split_and!; [|done|done]. split; [|done]. intros _. by left.
Qed.

(** ** Logout *)

(** C9. When an authenticated user with no registry entry posts
    [/api/logout], the handler leaves the registry, the focus tracker, the
    stored rows (the online flag among them) and the sockets as they were
    and broadcasts nothing: all it does is end the HTTP session and answer
    the request. *)
Theorem logout_without_entry_only_ends_session
    (u : User.t) (logoutErr : bool) (st : State) :
  JsMap.get (User.id u) (connectedUsers st) = None →
  let st' := step st (PostLogout (Some u) logoutErr) in
  connectedUsers st' = connectedUsers st
  ∧ activeChatWindows st' = activeChatWindows st
  ∧ storage st' = storage st
  ∧ sockets st' = sockets st
  ∧ new_effects st st'
    = [ReqLogout (User.id u); if logoutErr then NextError else SendStatus 200]
  ∧ List.filter is_userOffline (new_effects st st') = [].
Proof.
  intros Hget. simpl.
  assert (trace (step st (PostLogout (Some u) logoutErr))
          = trace st ++ [ReqLogout (User.id u);
                         if logoutErr then NextError else SendStatus 200])
    as Htrace.
  { unfold step, exec. simpl. unfold postLogout. rewrite run_bind. simpl.
    rewrite Hget. rewrite !run_bind. simpl.
    destruct logoutErr; simpl; by rewrite <- app_assoc. }
  rewrite (new_effects_app _ _ _ Htrace).
  unfold step, exec. simpl. unfold postLogout. rewrite run_bind. simpl.
  rewrite Hget. rewrite !run_bind. simpl.
  destruct logoutErr; simpl; done.
Qed.

Lemma logout_without_entry_witness :
  JsMap.get (User.id alice) (connectedUsers sample_start) = None
  ∧ new_effects sample_start (step sample_start (PostLogout (Some alice) false))
    = [ReqLogout "A"; SendStatus 200].
Proof.
  assert (JsMap.get (User.id alice) (connectedUsers sample_start) = None)
    as Hno by reflexivity.
  split; [exact Hno|].
  destruct (logout_without_entry_only_ends_session alice false sample_start Hno)
    as (_ & _ & _ & _ & Heffects & _).
  exact Heffects.
Defined.

(** ** The handshake *)

(** C5. A handshake whose request carries no [connect.sid] cookie is
    answered by closing the socket with code 1008, "Authentication
    required", and by nothing else: no registry entry, no focus-tracker
    entry, no listener, no write to storage (so no online flag) and no
    frame sent to anybody. *)
Theorem handshake_without_cookie_is_closed
    (ws : nat) (req : Request) (storeErr : bool) (st : State) :
  JsMap.get "connect.sid" (cookies req) = None →
  sockets st !! ws = None →
  let st' := step st (Connection ws req storeErr) in
  new_effects st st' = [WsClose ws (Some 1008) (Some "Authentication required")]
  ∧ sockets st' = <[ws := CLOSING]> (sockets st)
  ∧ connectedUsers st' = connectedUsers st
  ∧ activeChatWindows st' = activeChatWindows st
  ∧ listeners st' = listeners st
  ∧ storage st' = storage st.
Proof.
  intros Hcookie Hfresh. simpl.
  assert (step st (Connection ws req storeErr)
          = set_trace (λ t, t ++ [WsClose ws (Some 1008)
                                    (Some "Authentication required")])
              (set_sockets (λ _, <[ws := CLOSING]> (sockets st)) st)) as ->.
  { unfold step, exec. simpl. rewrite run_bind. simpl.
    rewrite Hfresh. simpl. rewrite run_bind. simpl.
    unfold onConnection. rewrite Hcookie. simpl.
    unfold set_trace, set_sockets. simpl. f_equal.
    by rewrite alter_insert_eq. }
  split_and!; try done.
  by apply new_effects_app.
Qed.

Lemma handshake_without_cookie_witness :
  JsMap.get "connect.sid" (cookies {| cookies := [] |}) = None
  ∧ sockets sample_start !! 7 = None
  ∧ new_effects sample_start
      (step sample_start (Connection 7 {| cookies := [] |} false))
    = [WsClose 7 (Some 1008) (Some "Authentication required")].
Proof.
  assert (sockets sample_start !! 7 = None) as Hfresh by reflexivity.
  split_and!; [reflexivity|exact Hfresh|].
  destruct (handshake_without_cookie_is_closed 7 {| cookies := [] |} false
              sample_start eq_refl Hfresh) as (Heffects & _).
  exact Heffects.
Defined.

(** ** The focus tracker *)

Lemma set_activeChatWindows_id st : set_activeChatWindows (λ m, m) st = st.
Proof. by destruct st. Qed.

(** The [openChatWindow] case does what the design document calls [open]. *)
Lemma handleOpenChatWindow_exec u x st :
  u ≠ "" →
  exec (handleOpenChatWindow u x) st
  = set_activeChatWindows (FocusTrackerSpec.open u x) st.
Proof.
  intros Hu. unfold handleOpenChatWindow, exec. simpl.
  destruct (String.eqb_spec u "") as [?|_]; [done|]. simpl.
  rewrite !run_bind. simpl.
  unfold FocusTrackerSpec.open, set_activeChatWindows.
  destruct (activeChatWindows st !! u) as [peers|] eqn:Hu'; simpl.
  - f_equal.
    apply map_eq. intros v. rewrite lookup_alter, lookup_insert.
    destruct (decide (u = v)) as [<-|]; [by rewrite Hu'|done].
  - f_equal. by rewrite alter_insert_eq.
Qed.

(** The [closeChatWindow] case does what the design document calls [close]. *)
Lemma handleCloseChatWindow_exec u x st :
  u ≠ "" →
  exec (handleCloseChatWindow u x) st
  = set_activeChatWindows (FocusTrackerSpec.close u x) st.
Proof.
  intros Hu. unfold handleCloseChatWindow, exec. simpl.
  destruct (String.eqb_spec u "") as [?|_]; [done|]. simpl.
  rewrite !run_bind. simpl.
  unfold FocusTrackerSpec.close, set_activeChatWindows.
  destruct (activeChatWindows st !! u) as [peers|] eqn:Hu'; simpl.
  - rewrite ?run_bind. simpl.
    rewrite lookup_alter_eq, Hu'. simpl.
    destruct (decide (peers ∖ {[x]} = ∅)) as [Hempty|Hne].
    + rewrite bool_decide_eq_true_2 by (by rewrite Hempty, size_empty).
      simpl. f_equal. by rewrite delete_alter_eq.
    + rewrite bool_decide_eq_false_2; simpl.
      * f_equal. apply map_eq. intros v. rewrite lookup_alter, lookup_insert.
        destruct (decide (u = v)) as [<-|]; [by rewrite Hu'|done].
      * intros Hsize. apply Hne. apply leibniz_equiv. by apply size_empty_iff.
  - by destruct st.
Qed.

Lemma isFocused_open u x v y m st :
  activeChatWindows st = FocusTrackerSpec.open u x m →
  isFocused v y st
  = if decide (v = u)
    then bool_decide (y = x) || match m !! u with
                                | Some peers => bool_decide (y ∈ peers)
                                | None => false
                                end
    else match m !! v with
         | Some peers => bool_decide (y ∈ peers)
         | None => false
         end.
Proof.
  intros Hm. unfold isFocused. rewrite Hm. unfold FocusTrackerSpec.open.
  rewrite lookup_insert. destruct (decide (v = u)) as [->|Hne].
  - rewrite decide_True by done.
    destruct (m !! u) as [peers|]; simpl;
      repeat case_bool_decide; simpl; try done; set_solver.
  - by rewrite decide_False by done.
Qed.

Lemma isFocused_close u x v y m st :
  activeChatWindows st = FocusTrackerSpec.close u x m →
  isFocused v y st
  = match m !! v with
    | Some peers =>
        bool_decide (y ∈ peers) && negb (bool_decide (v = u ∧ y = x))
    | None => false
    end.
Proof.
  intros Hm. unfold isFocused. rewrite Hm. unfold FocusTrackerSpec.close.
  destruct (m !! u) as [peers|] eqn:Hu.
  - destruct (decide (peers ∖ {[x]} = ∅)) as [Hempty|Hne].
    + rewrite lookup_delete. destruct (decide (u = v)) as [<-|Hne].
      * rewrite Hu. repeat case_bool_decide; simpl; try done; set_solver.
      * destruct (m !! v); [|done].
        repeat case_bool_decide; simpl; try done; naive_solver.
    + rewrite lookup_insert. destruct (decide (u = v)) as [<-|Hne'].
      * rewrite Hu. repeat case_bool_decide; simpl; try done; set_solver.
      * destruct (m !! v); [|done].
        repeat case_bool_decide; simpl; try done; naive_solver.
  - destruct (m !! v) as [peers|] eqn:Hv; [|done].
    repeat case_bool_decide; simpl; try done. naive_solver.
Qed.

Lemma lookup_focus_open u x v m :
  FocusTrackerSpec.open u x m !! v
  = if decide (u = v) then Some (default ∅ (m !! u) ∪ {[x]}) else m !! v.
Proof. unfold FocusTrackerSpec.open. by rewrite lookup_insert. Qed.

Lemma lookup_focus_close u x v m :
  FocusTrackerSpec.close u x m !! v
  = if decide (u = v)
    then match m !! u with
         | Some peers =>
             if decide (peers ∖ {[x]} = ∅) then None else Some (peers ∖ {[x]})
         | None => None
         end
    else m !! v.
Proof.
  unfold FocusTrackerSpec.close. destruct (m !! u) as [peers|] eqn:Hu.
  - destruct (decide (peers ∖ {[x]} = ∅)).
    + rewrite lookup_delete. by destruct (decide (u = v)).
    + rewrite lookup_insert. by destruct (decide (u = v)).
  - destruct (decide (u = v)) as [<-|]; done.
Qed.

(** Operations of one user on two different peers commute. *)
Lemma focus_op_comm b1 b2 u x y m :
  x ≠ y →
  focus_op b1 u x (focus_op b2 u y m) = focus_op b2 u y (focus_op b1 u x m).
Proof.
  intros Hxy. apply map_eq. intros v.
  destruct b1, b2; unfold focus_op;
    rewrite ?lookup_focus_open, ?lookup_focus_close.
  all: destruct (decide (u = v)) as [<-|Hne]; [|try done].
  all: rewrite ?lookup_focus_open, ?lookup_focus_close, ?decide_True by done.
  all: destruct (m !! u) as [peers|]; simpl;
    repeat case_decide; simpl; try done; f_equal; set_solver.
Qed.

Lemma step_focus_frame ws u b x st :
  listeners st !! ws = Some u →
  u ≠ "" →
  step st (WsMessage ws (focus_frame b x))
  = set_activeChatWindows (focus_op b u x) st.
Proof.
  intros Hl Hu. unfold step. simpl. rewrite exec_bind.
  change (exec (listener_of ws) st) with st.
  change (eval (listener_of ws) st) with (listeners st !! ws). rewrite Hl.
  destruct b; simpl.
  - by apply handleOpenChatWindow_exec.
  - by apply handleCloseChatWindow_exec.
Qed.

(** C7. For a user [U] on a live connection and two different peers [X]
    and [Y]: an [openChatWindow] or [closeChatWindow] frame from [U] for
    [X] never changes whether [U] is focused on [Y]; [open] adds [X] to
    [U]'s set, creating the set if it is absent; [close] removes [X] and
    deletes [U]'s entry when the set becomes empty; the sets of other
    users are not touched; and a frame for [X] and a frame for [Y] leave
    the same focus tracker in either order. *)
Theorem focus_frames_for_other_peers_commute
    (ws : nat) (U X Y : string) (st : State) :
  listeners st !! ws = Some U →
  U ≠ "" →
  X ≠ Y →
  let opened := step st (WsMessage ws (openChatWindow X)) in
  let closed := step st (WsMessage ws (closeChatWindow X)) in
  isFocused U Y opened = isFocused U Y st
  ∧ isFocused U Y closed = isFocused U Y st
  ∧ activeChatWindows opened !! U
    = Some (default ∅ (activeChatWindows st !! U) ∪ {[X]})
  ∧ activeChatWindows closed !! U
    = match activeChatWindows st !! U with
      | Some peers =>
          if decide (peers ∖ {[X]} = ∅) then None else Some (peers ∖ {[X]})
      | None => None
      end
  ∧ (∀ V, V ≠ U →
       activeChatWindows opened !! V = activeChatWindows st !! V
       ∧ activeChatWindows closed !! V = activeChatWindows st !! V)
  ∧ (∀ b1 b2,
       activeChatWindows
         (run st [WsMessage ws (focus_frame b1 X); WsMessage ws (focus_frame b2 Y)])
       = activeChatWindows
           (run st [WsMessage ws (focus_frame b2 Y); WsMessage ws (focus_frame b1 X)])).
Proof.
  intros Hl Hu Hxy. simpl.
  pose proof (step_focus_frame ws U true X st Hl Hu) as Hopen.
  pose proof (step_focus_frame ws U false X st Hl Hu) as Hclose.
  simpl in Hopen, Hclose. rewrite Hopen, Hclose. split_and!.
  - rewrite (isFocused_open U X U Y (activeChatWindows st)) by done.
    rewrite decide_True by done. unfold isFocused.
    rewrite bool_decide_eq_false_2 by congruence. done.
  - rewrite (isFocused_close U X U Y (activeChatWindows st)) by done.
    unfold isFocused. destruct (activeChatWindows st !! U); [|done].
    rewrite (bool_decide_eq_false_2 (U = U ∧ Y = X)) by naive_solver.
    by rewrite andb_true_r.
  - simpl. by rewrite lookup_focus_open, decide_True.
  - simpl. by rewrite lookup_focus_close, decide_True.
  - intros V HV. simpl.
    by rewrite lookup_focus_open, lookup_focus_close, !decide_False.
  - intros b1 b2. unfold run. simpl.
    rewrite (step_focus_frame ws U b1 X st Hl Hu).
    rewrite (step_focus_frame ws U b2 Y st Hl Hu).
    rewrite !(step_focus_frame ws U) by done. simpl.
    by apply focus_op_comm.
Qed.

Lemma focus_frames_witness :
  listeners sample_online !! 1 = Some "A"
  ∧ "A" ≠ ""
  ∧ "B" ≠ "C"
  ∧ isFocused "A" "C" (step sample_online (WsMessage 1 (openChatWindow "B")))
    = isFocused "A" "C" sample_online.
Proof.
  assert (listeners sample_online !! 1 = Some "A") as Hl
    by (vm_compute; reflexivity).
  assert ("A" ≠ "") as Hu by discriminate.
  assert ("B" ≠ "C") as Hxy by discriminate.
  split_and!; [exact Hl|exact Hu|exact Hxy|].
  destruct (focus_frames_for_other_peers_commute 1 "A" "B" "C" sample_online
              Hl Hu Hxy) as (Hopen & _).
  exact Hopen.
Defined.

(** ** Notifications: marking all as read *)

Section mark_all.
Import JsMap.
Implicit Types (m : list (string * Notification.t)) (n : Notification.t).

Lemma keyed_elem m k n : keyed m → (k, n) ∈ m → Notification.id n = k.
Proof.
  unfold keyed. rewrite Forall_forall. intros Hk Hin. exact (Hk (k, n) Hin).
Qed.

(** Overwriting a row that is there touches that row alone and keeps the
    iteration order. *)
Lemma set_in_place m n n' :
  wf m → get (Notification.id n) m = Some n →
  set (Notification.id n) n' m
  = map (λ e, (e.1, if decide (e.1 = Notification.id n) then n' else e.2)) m.
Proof.
  unfold wf, keys. induction m as [|[k v] r IH]; simpl; [done|].
  rewrite NoDup_cons. intros [Hnotin Hnd] Hget.
  destruct (decide (Notification.id n = k)) as [<-|Hne].
  - rewrite decide_True by done. f_equal.
    symmetry. erewrite map_ext_in; [apply map_id|].
    intros [k' v'] Hin. simpl. rewrite decide_False; [done|].
    intros ->. apply Hnotin. apply list_elem_of_fmap.
    exists (Notification.id n, v'). split; [done|]. by apply list_elem_of_In.
  - rewrite decide_False by done. f_equal. by apply IH.
Qed.

Lemma keyed_map_value m (f : Notification.t → Notification.t) :
  (∀ n, Notification.id (f n) = Notification.id n) →
  keyed m → keyed (map (λ e, (e.1, f e.2)) m).
Proof.
  intros Hf. unfold keyed. rewrite !Forall_forall. intros Hk e Hin.
  apply list_elem_of_In, in_map_iff in Hin as ([k n] & <- & Hin). simpl.
  rewrite Hf. apply (Hk (k, n)). by apply list_elem_of_In.
Qed.

Lemma keys_map_value m (f : string * Notification.t → Notification.t) :
  keys (map (λ e, (e.1, f e)) m) = keys m.
Proof. unfold keys. induction m as [|[k v] r IH]; simpl; [done|]. by f_equal. Qed.

(** The loop of [markAllNotificationsAsRead], over any snapshot [l] of
    rows that are in the map, each once. *)
Lemma mark_loop l m :
  wf m → keyed m →
  NoDup (Notification.id <$> l) →
  (∀ n, n ∈ l → get (Notification.id n) m = Some n) →
  fold_left (λ acc n, set (Notification.id n) (Notification.read n) acc) l m
  = map (λ e, (e.1, if decide (e.1 ∈ Notification.id <$> l)
                    then Notification.read e.2 else e.2)) m.
Proof.
  revert m. induction l as [|n l IH]; intros m Hwf Hkeyed Hnd Hin; simpl.
  - symmetry. erewrite map_ext; [apply map_id|]. by intros [k v].
  - change (Notification.id <$> n :: l)
      with (Notification.id n :: (Notification.id <$> l)) in *.
    rewrite NoDup_cons in Hnd. destruct Hnd as [Hfresh Hnd].
    assert (get (Notification.id n) m = Some n) as Hn by (apply Hin; left).
    rewrite (set_in_place m n (Notification.read n) Hwf Hn).
    rewrite IH.
    + rewrite map_map. apply map_ext_in. intros [k v] Hkv. simpl.
      f_equal.
      destruct (decide (k = Notification.id n)) as [->|Hne].
      * rewrite decide_False by done. rewrite decide_True by left.
        f_equal. apply list_elem_of_In, (JsMap_elem_get _ _ _ Hwf) in Hkv.
        congruence.
      * destruct (decide (k ∈ Notification.id <$> l)) as [Hl|Hl].
        -- rewrite decide_True by (by right). done.
        -- rewrite decide_False; [done|].
           rewrite elem_of_cons. naive_solver.
    + unfold wf. by rewrite (keys_map_value m
        (λ e, if decide (e.1 = Notification.id n)
              then Notification.read n else e.2)).
    + unfold keyed in *. rewrite Forall_forall in *. intros e He.
      apply list_elem_of_In, in_map_iff in He as ([k v] & <- & He). simpl.
      apply list_elem_of_In in He. specialize (Hkeyed _ He). simpl in Hkeyed.
      case_decide; [|done]. simpl. congruence.
    + done.
    + intros n' Hn'. rewrite <- (set_in_place m n (Notification.read n) Hwf Hn).
      rewrite JsMap_get_set_ne; [apply Hin; by right|].
      intros Heq. apply Hfresh. rewrite Heq. apply list_elem_of_fmap. eauto.
Qed.
End mark_all.

Lemma List_filter_sublist {A} (f : A → bool) (l : list A) :
  sublist (List.filter f l) l.
Proof.
  induction l as [|x l IH]; simpl; [constructor|].
  destruct (f x); by constructor.
Qed.

Lemma keyed_values_ids m : keyed m → Notification.id <$> JsMap.values m = JsMap.keys m.
Proof.
  unfold keyed, JsMap.values, JsMap.keys.
  induction m as [|[k v] r IH]; simpl; [done|].
  rewrite Forall_cons. simpl. intros [-> Hr]. f_equal. by apply IH.
Qed.

Lemma mark_read_id U n : Notification.id (mark_read U n) = Notification.id n.
Proof. unfold mark_read. by destruct (MemStorage.unread_of U n). Qed.

Lemma mark_read_userId U n :
  Notification.userId (mark_read U n) = Notification.userId n.
Proof. unfold mark_read. by destruct (MemStorage.unread_of U n). Qed.

Lemma mark_read_not_unread U n : MemStorage.unread_of U (mark_read U n) = false.
Proof.
  unfold mark_read. destruct (MemStorage.unread_of U n) eqn:Hn; [|done].
  unfold MemStorage.unread_of. simpl. apply andb_false_r.
Qed.

(** On a well-formed store the loop marks exactly the unread rows of the
    user, in place. *)
Lemma markAllNotificationsAsRead_rows U s :
  JsMap.wf (MemStorage.notifications s) →
  keyed (MemStorage.notifications s) →
  MemStorage.notifications (MemStorage.markAllNotificationsAsRead U s)
  = map (λ e, (e.1, mark_read U e.2)) (MemStorage.notifications s).
Proof.
  intros Hwf Hkeyed. unfold MemStorage.markAllNotificationsAsRead. simpl.
  set (m := MemStorage.notifications s) in *.
  set (l := List.filter (MemStorage.unread_of U) (JsMap.values m)).
  assert (∀ n, n ∈ l → JsMap.get (Notification.id n) m = Some n) as Hl.
  { intros n Hn. apply list_elem_of_In, filter_In in Hn as [Hn _].
    apply list_elem_of_In, list_elem_of_fmap in Hn as ([k n'] & -> & Hin).
    simpl. rewrite (keyed_elem m k n' Hkeyed Hin).
    by apply JsMap_elem_get. }
  rewrite mark_loop; [|done|done| |done].
  - apply map_ext_in. intros [k v] Hkv. simpl. f_equal.
    apply list_elem_of_In in Hkv. unfold mark_read.
    pose proof (keyed_elem m k v Hkeyed Hkv) as Hid.
    destruct (MemStorage.unread_of U v) eqn:Hv.
    + rewrite decide_True; [done|]. apply list_elem_of_fmap. exists v.
      split; [done|]. apply list_elem_of_In, filter_In. split; [|done].
      apply list_elem_of_In, list_elem_of_fmap. by exists (k, v).
    + rewrite decide_False; [done|]. intros Hin.
      apply list_elem_of_fmap in Hin as (n & -> & Hn).
      pose proof (Hl n Hn) as Hget. apply list_elem_of_In, filter_In in Hn as [_ Hu].
      rewrite (JsMap_elem_get _ _ _ Hwf Hkv) in Hget. congruence.
  - eapply sublist_NoDup; [|apply fmap_sublist, List_filter_sublist].
    by rewrite keyed_values_ids.
Qed.

Lemma notifications_well_formed_new :
  JsMap.wf (MemStorage.notifications MemStorage.new)
  ∧ keyed (MemStorage.notifications MemStorage.new).
Proof. split; [apply JsMap_wf_nil|constructor]. Qed.

(** Every method of [MemStorage] that writes notifications keeps the map
    well formed, so the two conditions hold of every store the class can
    reach from its constructor. *)
Lemma notifications_well_formed_methods s :
  JsMap.wf (MemStorage.notifications s) ∧ keyed (MemStorage.notifications s) →
  (∀ ins now i,
     let s' := (MemStorage.createNotification ins (uuid_of i) now s).2 in
     JsMap.wf (MemStorage.notifications s') ∧ keyed (MemStorage.notifications s'))
  ∧ (∀ k, let s' := MemStorage.markNotificationAsRead k s in
          JsMap.wf (MemStorage.notifications s') ∧ keyed (MemStorage.notifications s'))
  ∧ (∀ U, let s' := MemStorage.markAllNotificationsAsRead U s in
          JsMap.wf (MemStorage.notifications s') ∧ keyed (MemStorage.notifications s'))
  ∧ (∀ k, let s' := MemStorage.deleteNotification k s in
          JsMap.wf (MemStorage.notifications s') ∧ keyed (MemStorage.notifications s')).
Proof.
  intros [Hwf Hkeyed]. split_and!.
  - intros ins now i. simpl. split; [by apply JsMap_wf_set|].
    clear Hwf. unfold keyed in *.
    induction (MemStorage.notifications s) as [|[k v] r IH]; simpl.
    + by repeat constructor.
    + apply Forall_cons in Hkeyed as [Hk Hr]. case_decide; simpl.
      * constructor; [done|done].
      * constructor; [done|by apply IH].
  - intros k. simpl. unfold MemStorage.markNotificationAsRead.
    destruct (JsMap.get k (MemStorage.notifications s)) as [n|] eqn:Hget; [|done].
    simpl. split; [by apply JsMap_wf_set|].
    apply JsMap_get_Some_elem in Hget.
    pose proof (keyed_elem _ _ _ Hkeyed Hget) as Hid.
    clear Hwf Hget. unfold keyed in *.
    induction (MemStorage.notifications s) as [|[k' v] r IH]; simpl.
    + by repeat constructor.
    + apply Forall_cons in Hkeyed as [Hk Hr]. case_decide; simpl.
      * constructor; [done|done].
      * constructor; [done|by apply IH].
  - intros U. cbv zeta. rewrite markAllNotificationsAsRead_rows by done. split.
    + unfold JsMap.wf.
      by rewrite (keys_map_value _ (λ e, mark_read U e.2)).
    + apply keyed_map_value; [apply mark_read_id|done].
  - intros k. simpl. split; [by apply JsMap_wf_delete|].
    clear Hwf. unfold keyed in *.
    induction (MemStorage.notifications s) as [|[k' v] r IH]; simpl; [done|].
    apply Forall_cons in Hkeyed as [Hk Hr]. case_decide; simpl; [by apply IH|].
    constructor; [done|by apply IH].
Qed.

Lemma of_others_not_unread {K} U (e : K * Notification.t) :
  of_others U e = true → MemStorage.unread_of U e.2 = false.
Proof.
  unfold of_others, MemStorage.unread_of.
  by destruct (String.eqb (Notification.userId e.2) U).
Qed.

(** C10. Right after [markAllNotificationsAsRead(U)],
    [getUnreadNotificationCount(U)] is 0, and the notifications of every
    other user are what they were (same rows, same order), in [MemStorage]
    on every store its methods can build, and in the statements of
    [PgStorage] on every table. *)
Theorem unread_count_is_zero_after_mark_all
    (U : string) (s : MemStorage.t) (rows : list Notification.t) :
  JsMap.wf (MemStorage.notifications s) →
  keyed (MemStorage.notifications s) →
  let s' := MemStorage.markAllNotificationsAsRead U s in
  let rows' := PgStorage.markAllNotificationsAsRead U rows in
  MemStorage.getUnreadNotificationCount U s' = 0
  ∧ List.filter (of_others U) (MemStorage.notifications s')
    = List.filter (of_others U) (MemStorage.notifications s)
  ∧ PgStorage.getUnreadNotificationCount U rows' = 0
  ∧ List.filter (λ row, negb (String.eqb (Notification.userId row) U)) rows'
    = List.filter (λ row, negb (String.eqb (Notification.userId row) U)) rows.
Proof.
  intros Hwf Hkeyed. cbv zeta. split_and!.
  - unfold MemStorage.getUnreadNotificationCount.
    rewrite markAllNotificationsAsRead_rows by done.
    induction (MemStorage.notifications s) as [|[k v] r IH]; simpl; [done|].
    rewrite mark_read_not_unread. apply IH.
    + unfold JsMap.wf, JsMap.keys in *. simpl in Hwf. by apply NoDup_cons in Hwf as [_ ?].
    + by apply Forall_cons in Hkeyed as [_ ?].
  - rewrite markAllNotificationsAsRead_rows by done.
    clear Hwf Hkeyed.
    induction (MemStorage.notifications s) as [|[k v] r IH]; simpl; [done|].
    assert (of_others U (k, mark_read U v) = of_others U (k, v)) as ->
      by (unfold of_others; simpl; by rewrite mark_read_userId).
    destruct (of_others U (k, v)) eqn:Hv; [|exact IH].
    rewrite IH. unfold mark_read.
    pose proof (of_others_not_unread U (k, v) Hv) as Hread. simpl in Hread.
    by rewrite Hread.
  - unfold PgStorage.getUnreadNotificationCount, PgStorage.markAllNotificationsAsRead.
    induction rows as [|row rows IH]; simpl; [done|].
    destruct (PgStorage.where_unread U row) eqn:Hrow.
    + unfold PgStorage.where_unread at 1. simpl. by rewrite andb_false_r.
    + by rewrite Hrow.
  - unfold PgStorage.markAllNotificationsAsRead.
    induction rows as [|row rows IH]; simpl; [done|].
    destruct (PgStorage.where_unread U row) eqn:Hrow; simpl.
    + unfold PgStorage.where_unread in Hrow.
      apply andb_true_iff in Hrow as [-> _]. simpl. done.
    + destruct (negb _); by rewrite IH.
Qed.

Lemma unread_count_witness :
  JsMap.wf (MemStorage.notifications sample_notifications)
  ∧ keyed (MemStorage.notifications sample_notifications)
  ∧ MemStorage.getUnreadNotificationCount "A" sample_notifications = 1
  ∧ MemStorage.getUnreadNotificationCount "A"
      (MemStorage.markAllNotificationsAsRead "A" sample_notifications) = 0.
Proof.
  assert (JsMap.wf (MemStorage.notifications sample_notifications)) as Hwf.
  { unfold JsMap.wf. simpl. repeat constructor; set_solver. }
  assert (keyed (MemStorage.notifications sample_notifications)) as Hkeyed.
  { unfold keyed. simpl. by repeat constructor. }
  split_and!; [exact Hwf|exact Hkeyed|reflexivity|].
  destruct (unread_count_is_zero_after_mark_all "A" sample_notifications []
              Hwf Hkeyed) as (Hzero & _).
  exact Hzero.
Defined.

(** ** The invariant of the process *)

Lemma keeps_bind {A B} (P : State → Prop) (c : M A) (k : A → M B) :
  keeps P c → (∀ a, keeps P (k a)) → keeps P (c ≫= k).
Proof. intros Hc Hk st HP. rewrite exec_bind. apply Hk, Hc, HP. Qed.

Lemma keeps_ret {A} (P : State → Prop) (a : A) : keeps P (mret a).
Proof. by intros st. Qed.

Lemma keeps_skip (P : State → Prop) : keeps P skip.
Proof. by intros st. Qed.

Lemma keeps_gets {A} (P : State → Prop) (g : State → A) : keeps P (gets g).
Proof. by intros st. Qed.

Lemma keeps_forEach {A} (P : State → Prop) (l : list A) (body : A → M unit) :
  (∀ x, keeps P (body x)) → keeps P (forEach l body).
Proof.
  intros Hbody. induction l as [|x r IH]; simpl.
  - apply keeps_ret.
  - apply keeps_bind; [apply Hbody | intros _; apply IH].
Qed.

Lemma minted_mono {V} seed seed' (m : list (string * V)) :
  seed ≤ seed' → minted seed m → minted seed' m.
Proof.
  intros Hle Hm k Hk. destruct (Hm k Hk) as (i & Hi & ->).
  exists i. split; [lia|done].
Qed.

Lemma minted_set {V} seed i (v : V) (m : list (string * V)) :
  i < seed → minted seed m → minted seed (JsMap.set (uuid_of i) v m).
Proof.
  intros Hi Hm k Hk. apply JsMap_elem_of_keys_set in Hk as [->|Hk]; eauto.
Qed.

Lemma minted_set_present {V} seed k (v v' : V) (m : list (string * V)) :
  JsMap.get k m = Some v' → minted seed m → minted seed (JsMap.set k v m).
Proof.
  intros Hget Hm k' Hk'. apply JsMap_elem_of_keys_set in Hk' as [->|Hk']; [|eauto].
  apply Hm. apply JsMap_get_Some_elem in Hget.
  apply list_elem_of_fmap. by exists (k, v').
Qed.

Lemma minted_nil {V} seed : minted seed (@nil (string * V)).
Proof. intros k Hk. by apply elem_of_nil in Hk. Qed.

(** What the three [create] calls leave behind. *)
Lemma storage_createConversation_run ins st :
  storage_createConversation ins st
  = let id := uuid_of (uuidSeed st) in
    let r := MemStorage.createConversation ins id (clock st) (storage st) in
    (r.1, set_trace (λ t, t ++ [Stored (CreatedConversation id)])
            (set_storage (λ _, r.2) (set_uuidSeed S st))).
Proof. reflexivity. Qed.

Lemma storage_createMessage_run ins st :
  storage_createMessage ins st
  = let id := uuid_of (uuidSeed st) in
    let r := MemStorage.createMessage ins id (clock st) (storage st) in
    (r.1, set_trace (λ t, t ++ [Stored (CreatedMessage id)])
            (set_storage (λ _, r.2) (set_uuidSeed S st))).
Proof. reflexivity. Qed.

Lemma storage_createNotification_run ins st :
  storage_createNotification ins st
  = let id := uuid_of (uuidSeed st) in
    let r := MemStorage.createNotification ins id (clock st) (storage st) in
    (r.1, set_trace (λ t, t ++ [Stored (CreatedNotification id)])
            (set_storage (λ _, r.2) (set_uuidSeed S st))).
Proof. reflexivity. Qed.

Lemma storage_setUserOnlineStatus_run userId isOnline st :
  storage_setUserOnlineStatus userId isOnline st
  = (tt, set_trace (λ t, t ++ [Stored (OnlineStatus userId isOnline)])
           (set_storage
              (MemStorage.setUserOnlineStatus userId isOnline (clock st)) st)).
Proof. reflexivity. Qed.

Lemma invariant_set_trace f st : invariant st → invariant (set_trace f st).
Proof. by intros []. Qed.

Lemma invariant_set_activeChatWindows f st :
  invariant st → invariant (set_activeChatWindows f st).
Proof. by intros []. Qed.

Lemma invariant_set_sockets f st : invariant st → invariant (set_sockets f st).
Proof. by intros []. Qed.

Lemma invariant_set_clock f st : invariant st → invariant (set_clock f st).
Proof. by intros []. Qed.

Lemma invariant_set_sessionStore f st :
  invariant st → invariant (set_sessionStore f st).
Proof. by intros []. Qed.

Lemma invariant_registry_set k v st :
  invariant st → invariant (set_connectedUsers (JsMap.set k v) st).
Proof. intros []. constructor; simpl; try done. by apply JsMap_wf_set. Qed.

Lemma invariant_registry_delete k st :
  invariant st → invariant (set_connectedUsers (JsMap.delete k) st).
Proof. intros []. constructor; simpl; try done. by apply JsMap_wf_delete. Qed.

Lemma invariant_listeners_delete ws st :
  invariant st → invariant (set_listeners (delete ws) st).
Proof.
  intros []. constructor; simpl; try done.
  intros ws' u Hl. apply lookup_delete_Some in Hl as [_ Hl]. eauto.
Qed.

Lemma invariant_listeners_insert ws u st :
  u ≠ "" → invariant st → invariant (set_listeners <[ws := u]> st).
Proof.
  intros Hu []. constructor; simpl; try done.
  intros ws' u' Hl. apply lookup_insert_Some in Hl as [[_ <-]|[_ Hl]]; eauto.
Qed.

Lemma keeps_invariant_emit e : keeps invariant (emit e).
Proof. intros st. apply invariant_set_trace. Qed.

Lemma keeps_invariant_setUserOnlineStatus userId isOnline :
  keeps invariant (storage_setUserOnlineStatus userId isOnline).
Proof.
  intros st []. unfold exec. rewrite storage_setUserOnlineStatus_run. simpl.
  constructor; simpl; try done; unfold MemStorage.setUserOnlineStatus;
    by destruct (JsMap.get userId (MemStorage.users (storage st))).
Qed.

Lemma keeps_invariant_createConversation ins :
  keeps invariant (storage_createConversation ins).
Proof.
  intros st []. unfold exec. rewrite storage_createConversation_run. simpl.
  constructor; simpl; try done.
  - apply minted_set; [lia|]. eapply minted_mono; [|done]. lia.
  - eapply minted_mono; [|done]. lia.
  - eapply minted_mono; [|done]. lia.
Qed.

Lemma keeps_invariant_createMessage ins :
  keeps invariant (storage_createMessage ins).
Proof.
  intros st []. unfold exec. rewrite storage_createMessage_run. simpl.
  destruct (JsMap.get (im_conversationId ins)
              (MemStorage.conversations (storage st))) as [c|] eqn:Hc;
    constructor; simpl; try done.
  - eapply minted_set_present; [done|]. eapply minted_mono; [|done]. lia.
  - apply minted_set; [lia|]. eapply minted_mono; [|done]. lia.
  - eapply minted_mono; [|done]. lia.
  - eapply minted_mono; [|done]. lia.
  - apply minted_set; [lia|]. eapply minted_mono; [|done]. lia.
  - eapply minted_mono; [|done]. lia.
Qed.

Lemma keeps_invariant_createNotification ins :
  keeps invariant (storage_createNotification ins).
Proof.
  intros st []. unfold exec. rewrite storage_createNotification_run. simpl.
  constructor; simpl; try done.
  - eapply minted_mono; [|done]. lia.
  - eapply minted_mono; [|done]. lia.
  - apply minted_set; [lia|]. eapply minted_mono; [|done]. lia.
Qed.

Lemma keeps_invariant_readyState ws : keeps invariant (readyState ws).
Proof. apply keeps_gets. Qed.

Lemma keeps_invariant_ws_send ws payload : keeps invariant (ws_send ws payload).
Proof. apply keeps_invariant_emit. Qed.

Lemma keeps_invariant_ws_close ws code reason :
  keeps invariant (ws_close ws code reason).
Proof.
  apply keeps_bind; [|intros _; apply keeps_invariant_emit].
  intros st. apply invariant_set_sockets.
Qed.

Lemma keeps_invariant_writable c : keeps invariant (writable c).
Proof.
  destruct c; [|apply keeps_ret].
  apply keeps_bind; [apply keeps_gets|intros ?; apply keeps_ret].
Qed.

Lemma keeps_invariant_broadcastToAll message :
  keeps invariant (broadcastToAll message).
Proof.
  apply keeps_bind; [apply keeps_gets|intros conns].
  apply keeps_forEach. intros entry.
  apply keeps_bind; [apply keeps_gets|intros rs].
  destruct (bool_decide _); [apply keeps_invariant_emit|apply keeps_skip].
Qed.

Lemma keeps_invariant_sendToUser userId message :
  keeps invariant (sendToUser userId message).
Proof.
  intros st Hinv. unfold exec. rewrite sendToUser_run.
  destruct (deliverable userId st); [|done]. by apply invariant_set_trace.
Qed.

Lemma keeps_storage_getUser (P : State → Prop) id :
  keeps P (storage_getUser id).
Proof. apply keeps_gets. Qed.

Lemma keeps_storage_getConversation (P : State → Prop) user1Id user2Id :
  keeps P (storage_getConversation user1Id user2Id).
Proof. apply keeps_gets. Qed.

Create HintDb keeps.
#[global] Hint Resolve keeps_ret keeps_skip keeps_gets keeps_invariant_emit
  keeps_storage_getUser keeps_storage_getConversation
  keeps_invariant_setUserOnlineStatus keeps_invariant_createConversation
  keeps_invariant_createMessage keeps_invariant_createNotification
  keeps_invariant_readyState keeps_invariant_ws_send keeps_invariant_ws_close
  keeps_invariant_writable keeps_invariant_broadcastToAll
  keeps_invariant_sendToUser : keeps.

(** Decompose a [keeps invariant] goal along the computation; what is
    left are the updates of the registry and of the listeners. *)
Ltac keeping :=
  repeat first
    [ solve [auto with keeps]
    | apply keeps_bind; [|intros ?]
    | match goal with
      | |- keeps _ (if ?b then _ else _) => destruct b eqn:?
      | |- keeps _ (match ?x with _ => _ end) => destruct x eqn:?
      | |- keeps _ (modify (set_activeChatWindows _)) =>
          intros ?; apply invariant_set_activeChatWindows
      | |- keeps _ (modify (set_sockets _)) =>
          intros ?; apply invariant_set_sockets
      | |- keeps _ (modify (set_connectedUsers (JsMap.set _ _))) =>
          intros ?; apply invariant_registry_set
      | |- keeps _ (modify (set_connectedUsers (JsMap.delete _))) =>
          intros ?; apply invariant_registry_delete
      | |- keeps _ (modify (set_listeners (delete _))) =>
          intros ?; apply invariant_listeners_delete
      | |- keeps _ (modify (set_clock _)) => intros ?; apply invariant_set_clock
      | |- keeps _ (modify (set_sessionStore _)) =>
          intros ?; apply invariant_set_sessionStore
      end ].

Lemma keeps_invariant_postLogout reqUser logoutErr :
  keeps invariant (postLogout reqUser logoutErr).
Proof. unfold postLogout. keeping. Qed.

Lemma keeps_invariant_getUserProfile reqUser userId :
  keeps invariant (getUserProfile reqUser userId).
Proof. unfold getUserProfile. keeping. Qed.

Lemma keeps_invariant_onClose userId : keeps invariant (onClose userId).
Proof. unfold onClose. keeping. Qed.

Lemma keeps_invariant_onMessage ws userId message :
  keeps invariant (onMessage ws userId message).
Proof.
  destruct message; simpl;
    unfold handleOpenChatWindow, handleCloseChatWindow, handleSendMessage,
      handleTyping, activeChatWindows_has, activeChatWindows_get;
    keeping.
Qed.

Lemma truthy_str_nonempty o :
  truthy_str o = true → default "" o ≠ "".
Proof.
  destruct o as [s|]; simpl; [|done].
  destruct (String.eqb_spec s ""); [done|]. done.
Qed.

Lemma keeps_invariant_onConnection ws req storeErr :
  keeps invariant (onConnection ws req storeErr).
Proof.
  unfold onConnection. keeping.
  intros st. apply invariant_listeners_insert.
  apply truthy_str_nonempty.
  match goal with H : negb (truthy_str ?p) = false |- truthy_str ?p = true =>
    by apply negb_false_iff in H end.
Qed.

Lemma invariant_step st e : invariant st → invariant (step st e).
Proof.
  unfold step. revert st. change (keeps invariant (handle e)).
  destruct e; simpl; unfold known_socket, listener_of; keeping.
  - apply keeps_invariant_onConnection.
  - apply keeps_invariant_onMessage.
  - apply keeps_invariant_onClose.
  - apply keeps_invariant_postLogout.
  - apply keeps_invariant_getUserProfile.
Qed.

Lemma invariant_initial st : initial st → invariant st.
Proof.
  intros []. constructor; try done.
  - rewrite init_connectedUsers0. apply JsMap_wf_nil.
  - intros ws u. by rewrite init_listeners0, lookup_empty.
Qed.

Lemma reachable_invariant st : reachable st → invariant st.
Proof.
  induction 1 as [st Hinit|st e _ IH].
  - by apply invariant_initial.
  - by apply invariant_step.
Qed.

(** ** The connection registry across connections *)

(** The handshake refines the session verifier of the design document:
    it registers the connection when the verifier authenticates it and
    only closes the socket otherwise. *)
Lemma onConnection_exec ws req storeErr st :
  exec (onConnection ws req storeErr) st
  = match sessionVerifier req storeErr st with
    | Authenticated A =>
        exec (modify (set_connectedUsers (JsMap.set A (mkUserConnection ws A)));;
              storage_setUserOnlineStatus A true;;
              broadcastToAll (userOnline A);;
              modify (set_listeners <[ws := A]>)) st
    | Unauthenticated =>
        exec (ws_close ws (Some 1008) (Some "Authentication required")) st
    | PrincipalNotFound =>
        exec (ws_close ws (Some 1008) (Some "User not found")) st
    | VerifierFailed =>
        exec (ws_close ws (Some 1011) (Some "Authentication failed")) st
    end.
Proof.
  unfold onConnection, sessionVerifier.
  destruct (negb (truthy_str (JsMap.get "connect.sid" (cookies req)))); [done|].
  destruct storeErr; [done|].
  rewrite exec_bind. change (exec (gets _) st) with st. unfold eval. simpl.
  match goal with |- context [negb (truthy_str ?p)] =>
    destruct (negb (truthy_str p)); [done|] end.
  rewrite exec_bind. change (exec (storage_getUser _) st) with st.
  unfold eval, storage_getUser. simpl.
  by destruct (MemStorage.getUser _ (storage st)).
Qed.

Lemma connectedUsers_accept ws A st :
  connectedUsers
    (exec (modify (set_connectedUsers (JsMap.set A (mkUserConnection ws A)));;
           storage_setUserOnlineStatus A true;;
           broadcastToAll (userOnline A);;
           modify (set_listeners <[ws := A]>)) st)
  = JsMap.set A (mkUserConnection ws A) (connectedUsers st).
Proof.
  rewrite exec_bind. rewrite exec_bind. rewrite exec_bind.
  change (connectedUsers (exec (modify (set_listeners <[ws := A]>)) ?s))
    with (connectedUsers s).
  rewrite broadcastToAll_connectedUsers. done.
Qed.

Lemma step_Connection_fresh ws req storeErr st :
  sockets st !! ws = None →
  step st (Connection ws req storeErr)
  = exec (onConnection ws req storeErr) (set_sockets <[ws := OPEN]> st).
Proof.
  intros Hfresh. unfold step. simpl. rewrite exec_bind.
  change (exec (known_socket ws) st) with st.
  change (eval (known_socket ws) st)
    with (bool_decide (is_Some (sockets st !! ws))).
  rewrite Hfresh. rewrite bool_decide_eq_false_2 by (by intros [? ?]).
  by rewrite exec_bind.
Qed.

(** C3. In every reachable state the registry holds at most one entry
    for any user. When a connection on a new socket authenticates as [A],
    the registry afterwards holds exactly one entry for [A], and it is the
    new socket; if [A] was registered already, the number of entries does
    not grow (the entry is replaced, not duplicated); and the entries of
    every other user are as before. *)
Theorem registry_has_one_entry_per_user (st : State) :
  reachable st →
  (∀ U, length (JsMap.entries U (connectedUsers st)) ≤ 1)
  ∧ (∀ ws req storeErr A,
       sockets st !! ws = None →
       sessionVerifier req storeErr st = Authenticated A →
       let st' := step st (Connection ws req storeErr) in
       JsMap.entries A (connectedUsers st') = [(A, mkUserConnection ws A)]
       ∧ (JsMap.has A (connectedUsers st) = true →
            length (connectedUsers st') = length (connectedUsers st))
       ∧ (∀ U, U ≠ A →
            JsMap.entries U (connectedUsers st')
            = JsMap.entries U (connectedUsers st))).
Proof.
  intros Hreach. pose proof (reachable_invariant st Hreach) as [Hwf _ _ _ _].
  split.
  - intros U. by apply JsMap_entries_length.
  - intros ws req storeErr A Hfresh Hverdict. cbv zeta.
    rewrite step_Connection_fresh by done. rewrite onConnection_exec.
    change (sessionVerifier req storeErr (set_sockets <[ws := OPEN]> st))
      with (sessionVerifier req storeErr st).
    rewrite Hverdict, connectedUsers_accept. simpl.
    pose proof (JsMap_wf_set A (mkUserConnection ws A) _ Hwf) as Hwf'.
    split_and!.
    + by rewrite JsMap_entries_get, JsMap_get_set_eq.
    + apply JsMap_length_set_present.
    + intros U HU. rewrite !JsMap_entries_get by done.
      by rewrite JsMap_get_set_ne.
Qed.

Lemma sample_start_initial : initial sample_start.
Proof. constructor; try done; apply minted_nil. Qed.

Lemma sample_online_reachable : reachable sample_online.
Proof.
  unfold sample_online, run. simpl.
  do 2 apply reachable_step. apply reachable_initial, sample_start_initial.
Qed.

Lemma registry_one_entry_witness :
  reachable sample_online
  ∧ JsMap.entries "A"
      (connectedUsers
         (step sample_online
               (Connection 3 (sample_request "s:sa.other") false)))
    = [("A", mkUserConnection 3 "A")].
Proof.
  split; [exact sample_online_reachable|].
  destruct (registry_has_one_entry_per_user sample_online
              sample_online_reachable) as [_ Hreconnect].
  destruct (Hreconnect 3 (sample_request "s:sa.other") false "A")
    as (Hone & _).
  - vm_compute. reflexivity.
  - vm_compute. reflexivity.
  - exact Hone.
Defined.

(** ** The message router *)

(** The [sendMessage] case is the four steps in sequence. *)
Lemma handleSendMessage_steps ws u r content imageUrl st :
  u ≠ "" →
  handleSendMessage ws u r content imageUrl st
  = router_steps ws u r content imageUrl st.
Proof.
  intros Hu. unfold handleSendMessage, router_steps, router_persist,
    router_deliver, router_notify.
  simpl. destruct (String.eqb_spec u "") as [?|_]; [done|]. simpl.
  repeat (rewrite !run_bind; simpl).
  reflexivity.
Qed.

Lemma uuid_of_inj i j : uuid_of i = uuid_of j → i = j.
Proof.
  unfold uuid_of. intros Heq. apply (inj (String.app "uuid-")) in Heq.
  by apply (inj pretty) in Heq.
Qed.

Lemma minted_fresh {V} seed i (m : list (string * V)) :
  minted seed m → seed ≤ i → JsMap.get (uuid_of i) m = None.
Proof.
  intros Hm Hle. apply JsMap_get_None. intros Hin.
  destruct (Hm _ Hin) as (j & Hj & Heq). apply uuid_of_inj in Heq. lia.
Qed.

Lemma same_but_trace_refl st : same_but_trace st st.
Proof. unfold same_but_trace. by destruct st. Qed.

Lemma same_but_trace_emit st st' e :
  same_but_trace st st' → same_but_trace st (exec (emit e) st').
Proof. unfold same_but_trace. intros ->. reflexivity. Qed.

Lemma same_but_trace_fields st st' :
  same_but_trace st st' →
  storage st' = storage st ∧ connectedUsers st' = connectedUsers st
  ∧ activeChatWindows st' = activeChatWindows st ∧ sockets st' = sockets st
  ∧ listeners st' = listeners st ∧ uuidSeed st' = uuidSeed st
  ∧ clock st' = clock st ∧ sessionStore st' = sessionStore st.
Proof. unfold same_but_trace. intros ->. by repeat split. Qed.

(** Steps 1 and 2: the message is appended to the stored messages under a
    new id; nothing is sent; sockets, registry and focus are not read or
    written. *)
Lemma router_persist_spec u r content imageUrl st :
  invariant st →
  let st2 := exec (router_persist u r content imageUrl) st in
  let m := (eval (router_persist u r content imageUrl) st).2 in
  MemStorage.messages (storage st2)
  = MemStorage.messages (storage st) ++ [(Message.id m, m)]
  ∧ JsMap.get (Message.id m) (MemStorage.messages (storage st)) = None
  ∧ Message.senderId m = u
  ∧ Message.content m = or_null content
  ∧ Message.imageUrl m = or_null imageUrl
  ∧ MemStorage.notifications (storage st2) = MemStorage.notifications (storage st)
  ∧ MemStorage.users (storage st2) = MemStorage.users (storage st)
  ∧ connectedUsers st2 = connectedUsers st
  ∧ activeChatWindows st2 = activeChatWindows st
  ∧ sockets st2 = sockets st
  ∧ trace st2
    = trace st
      ++ match MemStorage.getConversation u r (storage st) with
         | Some _ => []
         | None => [Stored (CreatedConversation (uuid_of (uuidSeed st)))]
         end
      ++ [Stored (CreatedMessage (Message.id m))]
  ∧ invariant st2.
Proof.
  intros Hinv. cbv zeta. unfold exec, eval, router_persist.
  rewrite run_bind. simpl.
  destruct (MemStorage.getConversation u r (storage st)) as [c|] eqn:Hc.
  - rewrite !run_bind. simpl.
    assert (invariant (exec (storage_createMessage
              {| im_conversationId := Conversation.id c; im_senderId := u;
                 im_content := content; im_imageUrl := imageUrl |}) st)) as Hinv'
      by by apply keeps_invariant_createMessage.
    unfold exec in Hinv'. rewrite storage_createMessage_run in Hinv'.
    simpl in Hinv'.
    destruct Hinv as [_ _ _ Hmsgs _].
    split_and!; try done.
    + destruct (JsMap.get (Conversation.id c) _); simpl;
        apply JsMap_set_absent, (minted_fresh (uuidSeed st)); done.
    + destruct (JsMap.get (Conversation.id c) _); simpl;
        apply (minted_fresh (uuidSeed st)); done.
    + by destruct (JsMap.get (Conversation.id c) _).
    + by destruct (JsMap.get (Conversation.id c) _).
  - rewrite !run_bind. simpl.
    set (ic := {| ic_participant1Id := u; ic_participant2Id := r |}).
    pose proof (keeps_invariant_createConversation ic st Hinv) as Hinv1.
    unfold exec in Hinv1. rewrite storage_createConversation_run in Hinv1.
    simpl in Hinv1.
    match type of Hinv1 with invariant ?s1 =>
      pose proof (keeps_invariant_createMessage
        {| im_conversationId := uuid_of (uuidSeed st); im_senderId := u;
           im_content := content; im_imageUrl := imageUrl |} s1 Hinv1) as Hinv2
    end.
    unfold exec in Hinv2. rewrite storage_createMessage_run in Hinv2.
    simpl in Hinv2.
    destruct Hinv as [_ _ _ Hmsgs _].
    split_and!; try done.
    + destruct (JsMap.get (uuid_of (uuidSeed st)) _); simpl;
        apply JsMap_set_absent, (minted_fresh (uuidSeed st)); (done || lia).
    + destruct (JsMap.get (uuid_of (uuidSeed st)) _); simpl;
        apply (minted_fresh (uuidSeed st)); (done || lia).
    + by destruct (JsMap.get (uuid_of (uuidSeed st)) _).
    + by destruct (JsMap.get (uuid_of (uuidSeed st)) _).
    + by rewrite <- !app_assoc.
Qed.

Lemma writable_run c st :
  writable c st
  = (match c with
     | Some c => bool_decide (default CLOSED (sockets st !! conn_ws c) = OPEN)
     | None => false
     end, st).
Proof. by destruct c. Qed.

(** Step 3: delivery reads the registry and writes at most one frame, to
    the receiver's socket; it changes nothing but the trace. *)
Lemma router_deliver_spec u r m st :
  let st3 := exec (router_deliver u r m) st in
  eval (router_deliver u r m) st = JsMap.get r (connectedUsers st)
  ∧ same_but_trace st st3
  ∧ ∃ sends,
      trace st3 = trace st ++ sends
      ∧ sends
        = match deliverable r st with
          | Some h =>
              [WsSend h (newMessage m
                           (publicOrNull (MemStorage.getUser u (storage st))))]
          | None => []
          end.
Proof.
  cbv zeta. unfold exec, eval, router_deliver, deliverable.
  rewrite run_bind. simpl. rewrite run_bind, writable_run. simpl.
  destruct (JsMap.get r (connectedUsers st)) as [c|]; simpl.
  - destruct (bool_decide _); simpl.
    + rewrite ?run_bind. simpl. split_and!; [done|done|]. by eexists.
    + split_and!; [done|apply same_but_trace_refl|].
      exists []. by rewrite app_nil_r.
  - split_and!; [done|apply same_but_trace_refl|].
    exists []. by rewrite app_nil_r.
Qed.

(** Step 4: under mutual focus nothing happens; otherwise one
    [message_received] notification for the receiver is appended to the
    stored notifications, and it is pushed to the receiver when the
    receiver can be written to. *)
Lemma router_notify_spec u r conv st :
  invariant st →
  let st4 := exec (router_notify u r conv (JsMap.get r (connectedUsers st))) st in
  if isFocused u r st && isFocused r u st then st4 = st
  else
    ∃ n sends,
      MemStorage.notifications (storage st4)
      = MemStorage.notifications (storage st) ++ [(Notification.id n, n)]
      ∧ Notification.userId n = r
      ∧ Notification.type n = message_received
      ∧ Notification.fromUserId n = u
      ∧ Notification.isRead n = Some false
      ∧ MemStorage.messages (storage st4) = MemStorage.messages (storage st)
      ∧ trace st4
        = trace st ++ Stored (CreatedNotification (Notification.id n)) :: sends
      ∧ Forall (λ e, is_newNotification e = true) sends
      ∧ (deliverable r st = None → sends = []).
Proof.
  intros [_ _ _ _ Hnotifs]. cbv zeta. unfold exec, router_notify.
  rewrite !run_bind. simpl.
  destruct (isFocused u r st && isFocused r u st); simpl; [done|].
  rewrite !run_bind. simpl. rewrite writable_run. simpl.
  unfold deliverable, MemStorage.getUser. simpl.
  destruct (JsMap.get u (MemStorage.users (storage st))) as [su|];
    destruct (JsMap.get r (connectedUsers st)) as [c|]; simpl;
    try destruct (bool_decide _); simpl.
  all: eexists _, _; split_and!; simpl;
    [ apply JsMap_set_absent, (minted_fresh (uuidSeed st)); done
    | done | done | done | done | done
    | rewrite <- ?app_assoc; reflexivity
    | by repeat constructor
    | try done ].
Qed.

Lemma isFocused_ext a b st st' :
  activeChatWindows st' = activeChatWindows st →
  isFocused a b st' = isFocused a b st.
Proof. unfold isFocused. by intros ->. Qed.

Lemma deliverable_ext u st st' :
  connectedUsers st' = connectedUsers st → sockets st' = sockets st →
  deliverable u st' = deliverable u st.
Proof. unfold deliverable. by intros -> ->. Qed.

(** The whole [sendMessage] case: what it stores and what it sends, in
    order. *)
Lemma router_steps_spec ws S R content imageUrl st :
  invariant st →
  let st' := exec (router_steps ws S R content imageUrl) st in
  ∃ m notified,
    trace st'
    = trace st
      ++ match MemStorage.getConversation S R (storage st) with
         | Some _ => []
         | None => [Stored (CreatedConversation (uuid_of (uuidSeed st)))]
         end
      ++ [Stored (CreatedMessage (Message.id m))]
      ++ match deliverable R st with
         | Some h =>
             [WsSend h (newMessage m
                          (publicOrNull (MemStorage.getUser S (storage st))))]
         | None => []
         end
      ++ notified
      ++ [WsSend ws (messageConfirmed m)]
    ∧ MemStorage.messages (storage st')
      = MemStorage.messages (storage st) ++ [(Message.id m, m)]
    ∧ JsMap.get (Message.id m) (MemStorage.messages (storage st)) = None
    ∧ Message.senderId m = S
    ∧ Message.content m = or_null content
    ∧ Message.imageUrl m = or_null imageUrl
    ∧ if isFocused S R st && isFocused R S st
      then notified = []
           ∧ MemStorage.notifications (storage st')
             = MemStorage.notifications (storage st)
      else ∃ n sends,
             notified = Stored (CreatedNotification (Notification.id n)) :: sends
             ∧ MemStorage.notifications (storage st')
               = MemStorage.notifications (storage st) ++ [(Notification.id n, n)]
             ∧ Notification.userId n = R
             ∧ Notification.type n = message_received
             ∧ Notification.fromUserId n = S
             ∧ Notification.isRead n = Some false
             ∧ Forall (λ e, is_newNotification e = true) sends
             ∧ (deliverable R st = None → sends = []).
Proof.
  intros Hinv. cbv zeta. unfold router_steps.
  rewrite exec_bind.
  pose proof (router_persist_spec S R content imageUrl st Hinv) as Hp.
  cbv zeta in Hp.
  set (p := eval (router_persist S R content imageUrl) st) in *.
  set (st2 := exec (router_persist S R content imageUrl) st) in *.
  destruct Hp as (Hmsgs & Hfresh & Hsender & Hcontent & Himage & Hn2 & Hu2 & Hcu2
                  & Hacw2 & Hsock2 & Htr2 & Hinv2).
  rewrite exec_bind.
  pose proof (router_deliver_spec S R p.2 st2) as Hd. cbv zeta in Hd.
  set (rc := eval (router_deliver S R p.2) st2) in *.
  set (st3 := exec (router_deliver S R p.2) st2) in *.
  destruct Hd as (Hrc & Hsame & sends & Htr3 & Hsends).
  pose proof Hsame as Hst3. unfold same_but_trace in Hst3.
  apply same_but_trace_fields in Hsame
    as (Hsto3 & Hcu3 & Hacw3 & Hsock3 & _ & _ & _ & _).
  assert (invariant st3) as Hinv3
    by (rewrite Hst3; by apply invariant_set_trace).
  rewrite exec_bind.
  change (exec (ws_send ws (messageConfirmed p.2)) ?s)
    with (set_trace (λ t, t ++ [WsSend ws (messageConfirmed p.2)]) s).
  pose proof (router_notify_spec S R p.1 st3 Hinv3) as Hn. cbv zeta in Hn.
  rewrite Hcu3, <- Hrc in Hn.
  set (st4 := exec (router_notify S R p.1 rc) st3) in *.
  rewrite (isFocused_ext S R st st3), (isFocused_ext R S st st3) in Hn
    by congruence.
  rewrite (deliverable_ext R st st3) in Hn by congruence.
  rewrite (deliverable_ext R st st2) in Hsends by congruence.
  assert (MemStorage.getUser S (storage st2) = MemStorage.getUser S (storage st))
    as Hgu by (unfold MemStorage.getUser; by rewrite Hu2).
  rewrite Hgu in Hsends.
  destruct (isFocused S R st && isFocused R S st).
  - exists p.2, []. simpl. rewrite Hn, Htr3, Htr2, Hsends, Hsto3.
    split_and!; try done.
    by rewrite <- !app_assoc.
  - destruct Hn as (n & sends' & Hnotifs & Hn_user & Hn_type & Hn_from
                    & Hn_read & Hmsgs4 & Htr4 & Hsends' & Hoffline).
    exists p.2, (Stored (CreatedNotification (Notification.id n)) :: sends').
    simpl. rewrite Htr4, Htr3, Htr2, Hsends, Hmsgs4, Hnotifs, Hsto3.
    split_and!; try done.
    + repeat (rewrite <- app_assoc; simpl). done.
    + exists n, sends'. rewrite Hn2. by split_and!.
Qed.

Lemma step_sendMessage ws S R content imageUrl st :
  listeners st !! ws = Some S →
  S ≠ "" →
  step st (WsMessage ws (sendMessage R content imageUrl))
  = exec (router_steps ws S R content imageUrl) st.
Proof.
  intros Hl HS. unfold step. simpl. rewrite exec_bind.
  change (exec (listener_of ws) st) with st.
  change (eval (listener_of ws) st) with (listeners st !! ws). rewrite Hl.
  simpl. unfold exec. by rewrite handleSendMessage_steps.
Qed.

Lemma List_filter_none {A} (f : A → bool) (l : list A) :
  Forall (λ x, f x = false) l → List.filter f l = [].
Proof.
  induction 1 as [|x l Hx _ IH]; simpl; [done|]. by rewrite Hx.
Qed.

Lemma JsMap_get_app_new {V} (k : string) (v : V) (m : list (string * V)) :
  JsMap.get k m = None → JsMap.get k (m ++ [(k, v)]) = Some v.
Proof.
  induction m as [|[k' v'] r IH]; simpl.
  - by rewrite decide_True.
  - destruct (decide (k = k')); [done|]. apply IH.
Qed.

(** C1. A [sendMessage] frame from [S] (the user of a live connection) to
    [R]: when [S] has a chat window open with [R] and [R] has one open
    with [S] at that moment, the stored notifications are unchanged and
    the handler makes no [createNotification] call; otherwise exactly one
    notification is appended to the stored ones, of type
    [message_received], for [R], from [S], unread, and the handler makes
    exactly one [createNotification] call, for that row. *)
Theorem one_notification_unless_mutual_focus
    (ws : nat) (S R : string) (content imageUrl : option string) (st : State) :
  reachable st →
  listeners st !! ws = Some S →
  let st' := step st (WsMessage ws (sendMessage R content imageUrl)) in
  if isFocused S R st && isFocused R S st
  then MemStorage.notifications (storage st') = MemStorage.notifications (storage st)
       ∧ List.filter is_CreatedNotification (new_effects st st') = []
  else ∃ n,
         MemStorage.notifications (storage st')
         = MemStorage.notifications (storage st) ++ [(Notification.id n, n)]
         ∧ Notification.userId n = R
         ∧ Notification.type n = message_received
         ∧ Notification.fromUserId n = S
         ∧ Notification.isRead n = Some false
         ∧ List.filter is_CreatedNotification (new_effects st st')
           = [Stored (CreatedNotification (Notification.id n))].
Proof.
  intros Hreach Hl. cbv zeta.
  pose proof (reachable_invariant st Hreach) as Hinv.
  pose proof (inv_listeners st Hinv ws S Hl) as HS.
  rewrite (step_sendMessage ws S) by done.
  pose proof (router_steps_spec ws S R content imageUrl st Hinv) as Hspec.
  cbv zeta in Hspec.
  destruct Hspec as (m & notified & Htrace & _ & _ & _ & _ & _ & Hfocus).
  rewrite (new_effects_app _ _ _ Htrace).
  assert (∀ l, List.filter is_CreatedNotification
                 (match MemStorage.getConversation S R (storage st) with
                  | Some _ => []
                  | None => [Stored (CreatedConversation (uuid_of (uuidSeed st)))]
                  end
                  ++ [Stored (CreatedMessage (Message.id m))]
                  ++ match deliverable R st with
                     | Some h =>
                         [WsSend h (newMessage m
                            (publicOrNull (MemStorage.getUser S (storage st))))]
                     | None => []
                     end
                  ++ l ++ [WsSend ws (messageConfirmed m)])
               = List.filter is_CreatedNotification l) as Hfilter.
  { intros l. rewrite !List.filter_app. simpl.
    destruct (MemStorage.getConversation S R (storage st)),
      (deliverable R st); simpl; by rewrite ?app_nil_r. }
  rewrite Hfilter.
  destruct (isFocused S R st && isFocused R S st).
  - destruct Hfocus as [-> Hsame]. done.
  - destruct Hfocus as (n & sends & -> & Hn & Huser & Htype & Hfrom & Hread
                        & Hsends & _).
    exists n. split_and!; try done.
    simpl. rewrite List_filter_none; [done|].
    eapply Forall_impl; [exact Hsends|]. by intros [].
Qed.

Lemma one_notification_witness :
  reachable sample_online
  ∧ listeners sample_online !! 1 = Some "A"
  ∧ ∃ n,
      MemStorage.notifications
        (storage (step sample_online
                       (WsMessage 1 (sendMessage "B" (Some "hi") None))))
      = MemStorage.notifications (storage sample_online) ++ [(Notification.id n, n)]
      ∧ Notification.userId n = "B"
      ∧ Notification.fromUserId n = "A".
Proof.
  assert (listeners sample_online !! 1 = Some "A") as Hl
    by (vm_compute; reflexivity).
  split_and!; [exact sample_online_reachable|exact Hl|].
  pose proof (one_notification_unless_mutual_focus 1 "A" "B" (Some "hi") None
                sample_online sample_online_reachable Hl) as Hsend.
  cbv zeta in Hsend.
  assert (isFocused "A" "B" sample_online && isFocused "B" "A" sample_online
          = false) as Hfocus by (vm_compute; reflexivity).
  rewrite Hfocus in Hsend.
  destruct Hsend as (n & Hn & Huser & _ & Hfrom & _).
  exists n. split_and!; [exact Hn|exact Huser|exact Hfrom].
Defined.

(** C2. A [sendMessage] frame from [S] to [R]: the message is appended to
    the stored messages, under a new id and with [S] as its sender, by a
    write that comes before every frame the handler sends; it is in
    storage when the handler ends, whatever the registry says about [R];
    and when [R] has no entry or [R]'s socket is not open, the handler
    still stores the message and the only frame it sends is the
    confirmation to the sender. *)
Theorem message_is_persisted_before_delivery
    (ws : nat) (S R : string) (content imageUrl : option string) (st : State) :
  reachable st →
  listeners st !! ws = Some S →
  let st' := step st (WsMessage ws (sendMessage R content imageUrl)) in
  ∃ m pre post,
    new_effects st st' = pre ++ Stored (CreatedMessage (Message.id m)) :: post
    ∧ Forall (λ e, is_WsSend e = false) pre
    ∧ MemStorage.messages (storage st')
      = MemStorage.messages (storage st) ++ [(Message.id m, m)]
    ∧ JsMap.get (Message.id m) (MemStorage.messages (storage st)) = None
    ∧ JsMap.get (Message.id m) (MemStorage.messages (storage st')) = Some m
    ∧ Message.senderId m = S
    ∧ Message.content m = or_null content
    ∧ Message.imageUrl m = or_null imageUrl
    ∧ (deliverable R st = None →
         List.filter is_WsSend post = [WsSend ws (messageConfirmed m)]).
Proof.
  intros Hreach Hl. cbv zeta.
  pose proof (reachable_invariant st Hreach) as Hinv.
  pose proof (inv_listeners st Hinv ws S Hl) as HS.
  rewrite (step_sendMessage ws S) by done.
  pose proof (router_steps_spec ws S R content imageUrl st Hinv) as Hspec.
  cbv zeta in Hspec.
  destruct Hspec as (m & notified & Htrace & Hmsgs & Hfresh & Hsender
                     & Hcontent & Himage & Hfocus).
  rewrite (new_effects_app _ _ _ Htrace).
  eexists m, _, _. split_and!; [reflexivity| |done|done| |done|done|done|].
  - destruct (MemStorage.getConversation S R (storage st)); by repeat constructor.
  - rewrite Hmsgs. by apply JsMap_get_app_new.
  - intros Hoffline. rewrite Hoffline. simpl.
    rewrite List.filter_app. simpl.
    destruct (isFocused S R st && isFocused R S st).
    + by destruct Hfocus as [-> _].
    + destruct Hfocus as (n & sends & -> & _ & _ & _ & _ & _ & _ & Hnone).
      by rewrite (Hnone Hoffline).
Qed.

Lemma message_persisted_witness :
  reachable sample_online
  ∧ listeners sample_online !! 1 = Some "A"
  ∧ ∃ m,
      JsMap.get (Message.id m)
        (MemStorage.messages
           (storage (step sample_online
                          (WsMessage 1 (sendMessage "nobody" (Some "hi") None)))))
      = Some m
      ∧ Message.senderId m = "A".
Proof.
  assert (listeners sample_online !! 1 = Some "A") as Hl
    by (vm_compute; reflexivity).
  split_and!; [exact sample_online_reachable|exact Hl|].
  destruct (message_is_persisted_before_delivery 1 "A" "nobody" (Some "hi") None
              sample_online sample_online_reachable Hl)
    as (m & _ & _ & _ & _ & _ & _ & Hstored & Hsender & _).
  exists m. split; [exact Hstored|exact Hsender].
Defined.

(** ** Public profiles *)

Lemma toPublicUser_is_public u : is_public_profile (JObj (toPublicUser u)).
Proof.
  split; [reflexivity|]. unfold private_columns. by repeat constructor.
Qed.

(** [toPublicUser] copies columns of the row; it invents nothing. *)
Lemma toPublicUser_projects u k v :
  obj_get k (toPublicUser u) = Some v → obj_get k (User.to_json u) = Some v.
Proof.
  unfold obj_get, toPublicUser. simpl.
  repeat (case_decide; [subst k; simpl; by intros [= <-]|]).
  done.
Qed.

Lemma publicOrNull_is_public o :
  publicOrNull o = JNull ∨ is_public_profile (publicOrNull o).
Proof. destruct o; [right; apply toPublicUser_is_public|by left]. Qed.

(** Every JSON body [GET /api/users/:userId] answers with is an error
    message or the public profile of the user asked for. *)
Lemma getUserProfile_bodies reqUser userId st :
  ∃ l,
    trace (exec (getUserProfile reqUser userId) st) = trace st ++ l
    ∧ ∀ status body,
        SendJson status body ∈ l →
        (∃ text, body = message_body text)
        ∨ (∃ u, MemStorage.getUser userId (storage st) = Some u
                ∧ body = JObj (toPublicUser u)).
Proof.
  unfold getUserProfile, exec. destruct reqUser as [me|]; simpl.
  - destruct (String.eqb userId (User.id me)); simpl.
    + eexists. split; [reflexivity|]. intros status body Hin.
      apply list_elem_of_singleton in Hin as [= -> ->]. left. by eexists.
    + rewrite run_bind. simpl.
      destruct (MemStorage.getUser userId (storage st)) as [u|] eqn:Hu; simpl.
      * rewrite !run_bind. simpl.
        unfold MemStorage.getUser at 1. simpl.
        destruct (JsMap.get (User.id me) (MemStorage.users (storage st)))
          as [from|]; simpl.
        -- rewrite !run_bind, sendToUser_run.
           destruct (deliverable userId _); simpl.
           ++ eexists. split; [by rewrite <- !app_assoc|].
              intros status body Hin. simpl in Hin.
              rewrite !elem_of_cons in Hin.
              destruct Hin as [[=]|[[=]|[[= -> ->]|Hin]]];
                [|by apply elem_of_nil in Hin]. right. by exists u.
           ++ eexists. split; [by rewrite <- !app_assoc|].
              intros status body Hin. simpl in Hin.
              rewrite !elem_of_cons in Hin.
              destruct Hin as [[=]|[[= -> ->]|Hin]];
                [|by apply elem_of_nil in Hin]. right. by exists u.
        -- eexists. split; [by rewrite <- !app_assoc|].
           intros status body Hin. simpl in Hin.
           rewrite !elem_of_cons in Hin.
           destruct Hin as [[=]|[[= -> ->]|Hin]];
             [|by apply elem_of_nil in Hin]. right. by exists u.
      * eexists. split; [reflexivity|]. intros status body Hin.
        apply list_elem_of_singleton in Hin as [= -> ->]. left. by eexists.
  - eexists. split; [reflexivity|]. intros status body Hin.
    by apply list_elem_of_singleton in Hin.
Qed.

(** The [sender] of every [newMessage] frame is the projection of the
    sender's row, or [null] when the row is gone. *)
Lemma newMessage_sender ws S R content imageUrl st h m sender :
  invariant st →
  listeners st !! ws = Some S →
  WsSend h (newMessage m sender)
    ∈ new_effects st (step st (WsMessage ws (sendMessage R content imageUrl))) →
  sender = publicOrNull (MemStorage.getUser S (storage st)).
Proof.
  intros Hinv Hl.
  pose proof (inv_listeners st Hinv ws S Hl) as HS.
  rewrite (step_sendMessage ws S) by done.
  pose proof (router_steps_spec ws S R content imageUrl st Hinv) as Hspec.
  cbv zeta in Hspec.
  destruct Hspec as (m' & notified & Htrace & _ & _ & _ & _ & _ & Hfocus).
  rewrite (new_effects_app _ _ _ Htrace). rewrite !elem_of_app.
  intros [Hin|[Hin|[Hin|[Hin|Hin]]]].
  - destruct (MemStorage.getConversation S R (storage st));
      [by apply elem_of_nil in Hin|].
    by apply list_elem_of_singleton in Hin.
  - by apply list_elem_of_singleton in Hin.
  - destruct (deliverable R st); [|by apply elem_of_nil in Hin].
    by apply list_elem_of_singleton in Hin as [= _ _ ->].
  - destruct (isFocused S R st && isFocused R S st).
    + destruct Hfocus as [-> _]. by apply elem_of_nil in Hin.
    + destruct Hfocus as (n & sends & -> & _ & _ & _ & _ & _ & Hsends & _).
      apply elem_of_cons in Hin as [[=]|Hin].
      rewrite Forall_forall in Hsends. by specialize (Hsends _ Hin).
  - by apply list_elem_of_singleton in Hin.
Qed.

(** C8. What leaves the server as a user is a public profile:
    [toPublicUser] yields an object with exactly the twelve public columns,
    each copied from the row, and none of [password], [email] or the filter
    preferences; the [sender] of a [newMessage] frame is that projection of
    the sender's row (or [null]); and wherever a route of [registerRoutes]
    puts a user into a body (the user lists, a viewed profile, the
    [otherUser] of a conversation, the [fromUser] of a notification, the
    [user] of the profile and photo answers) it is that projection, the raw
    row the storage layer joined in being replaced, not kept beside it. *)
Theorem users_leave_as_public_profiles :
  (∀ u, is_public_profile (JObj (toPublicUser u))
        ∧ ∀ k v, obj_get k (toPublicUser u) = Some v
                 → obj_get k (User.to_json u) = Some v)
  ∧ (∀ ws S R content imageUrl st h m sender,
       reachable st →
       listeners st !! ws = Some S →
       WsSend h (newMessage m sender)
         ∈ new_effects st
             (step st (WsMessage ws (sendMessage R content imageUrl))) →
       sender = publicOrNull (MemStorage.getUser S (storage st))
       ∧ (sender = JNull ∨ is_public_profile sender))
  ∧ (∀ me keep candidates,
       ∃ items, usersBody me keep candidates = JArr items
                ∧ Forall is_public_profile items)
  ∧ (∀ reqUser userId st status body,
       SendJson status body
         ∈ new_effects st (step st (GetUserProfile reqUser userId)) →
       (∃ text, body = message_body text) ∨ is_public_profile body)
  ∧ (∀ conv,
       fields_named "otherUser" (safeConversation conv)
       = [JObj (toPublicUser (cu_otherUser conv))])
  ∧ (∀ conversations,
       array_items (conversationsBody conversations)
       = map safeConversation conversations)
  ∧ (∀ n,
       fields_named "fromUser" (safeNotification n)
       = [JObj (toPublicUser (nu_fromUser n))])
  ∧ (∀ notifications,
       array_items (notificationsBody notifications)
       = map safeNotification notifications)
  ∧ (∀ u, is_public_profile (profileBody u))
  ∧ (∀ url all new gone o,
       fields_named "user" (uploadProfileBody url o) = [publicOrNull o]
       ∧ fields_named "user" (uploadPhotosBody all new o) = [publicOrNull o]
       ∧ fields_named "user" (deletePhotoBody gone o) = [publicOrNull o]).
Proof.
  split_and!.
  - intros u. split; [apply toPublicUser_is_public|apply toPublicUser_projects].
  - intros ws S R content imageUrl st h m sender Hreach Hl Hin.
    apply reachable_invariant in Hreach.
    rewrite (newMessage_sender _ _ _ _ _ _ _ _ _ Hreach Hl Hin).
    split; [done|]. apply publicOrNull_is_public.
  - intros me keep candidates. unfold usersBody. eexists. split; [done|].
    apply Forall_forall. intros j Hj.
    apply list_elem_of_In, in_map_iff in Hj as (u & <- & _).
    apply toPublicUser_is_public.
  - intros reqUser userId st status body.
    destruct (getUserProfile_bodies reqUser userId st) as (l & Htrace & Hl).
    unfold step. simpl. rewrite (new_effects_app _ _ _ Htrace).
    intros Hin. destruct (Hl _ _ Hin) as [?|(u & _ & ->)]; [by left|].
    right. apply toPublicUser_is_public.
  - intros [c u last]. by destruct last.
  - done.
  - intros [n u]. done.
  - done.
  - intros u. apply toPublicUser_is_public.
  - done.
Qed.

(** ** Disconnecting twice *)


Lemma set_trace_app_nil st : set_trace (λ t, t ++ []) st = st.
Proof. destruct st. unfold set_trace. simpl. by rewrite app_nil_r. Qed.

Lemma set_trace_set_trace f g st :
  set_trace g (set_trace f st) = set_trace (λ t, g (f t)) st.
Proof. reflexivity. Qed.

Lemma forEach_broadcast message conns st :
  exec (forEach conns (λ entry,
          rs ← readyState (conn_ws entry.2);
          if bool_decide (rs = OPEN) then ws_send (conn_ws entry.2) message
          else skip)) st
  = set_trace (λ t, t ++ broadcast_frames message conns (sockets st)) st.
Proof.
  revert st. induction conns as [|entry conns IH]; intros st.
  - unfold broadcast_frames. simpl. by rewrite set_trace_app_nil.
  - simpl forEach. rewrite exec_bind. rewrite IH. clear IH.
    unfold broadcast_frames, exec. rewrite run_bind. simpl.
    destruct (bool_decide (default CLOSED (sockets st !! conn_ws entry.2) = OPEN));
      simpl.
    + unfold set_trace. simpl. by rewrite <- app_assoc.
    + done.
Qed.

Lemma broadcastToAll_exec message st :
  exec (broadcastToAll message) st
  = set_trace
      (λ t, t ++ broadcast_frames message (connectedUsers st) (sockets st)) st.
Proof. unfold broadcastToAll. rewrite exec_bind. apply forEach_broadcast. Qed.

Lemma broadcast_frames_userOffline u conns socks :
  List.filter is_userOffline (broadcast_frames (userOffline u) conns socks)
  = broadcast_frames (userOffline u) conns socks.
Proof.
  unfold broadcast_frames.
  induction (List.filter _ conns) as [|e l IH]; simpl; [done|]. by rewrite IH.
Qed.

(** Once the socket [h] is closing or closed, what a broadcast writes does
    not depend on which of the two it is. *)
Lemma broadcast_frames_closed message conns socks h :
  broadcast_frames message conns
    (alter (λ _, CLOSED) h
       (alter (λ rs, match rs with CLOSED => CLOSED | _ => CLOSING end) h socks))
  = broadcast_frames message conns
      (alter (λ rs, match rs with CLOSED => CLOSED | _ => CLOSING end) h socks).
Proof.
  unfold broadcast_frames. f_equal.
  induction conns as [|e l IH]; simpl; [done|]. rewrite IH.
  destruct (decide (h = conn_ws e.2)) as [->|Hne].
  - rewrite !lookup_alter_eq.
    by destruct (socks !! conn_ws e.2) as [[]|].
  - by rewrite !lookup_alter_ne.
Qed.

Lemma truthy_str_Some s : s ≠ "" → truthy_str (Some s) = true.
Proof. intros Hs. simpl. by destruct (String.eqb_spec s ""). Qed.

(** The close listener, for a user it closed over. *)
Lemma onClose_exec uid st :
  uid ≠ "" →
  exec (onClose uid) st
  = set_trace
      (λ t, t ++ Stored (OnlineStatus uid false)
              :: broadcast_frames (userOffline uid)
                   (JsMap.delete uid (connectedUsers st)) (sockets st))
      (set_activeChatWindows (delete uid)
         (set_storage (MemStorage.setUserOnlineStatus uid false (clock st))
            (set_connectedUsers (JsMap.delete uid) st))).
Proof.
  intros Huid. unfold onClose. rewrite truthy_str_Some by done.
  rewrite !exec_bind, broadcastToAll_exec. simpl.
  unfold set_trace. simpl. by rewrite <- app_assoc.
Qed.

(** The logout route, for a user who has a registry entry. *)
Lemma postLogout_exec u c logoutErr st :
  JsMap.get (User.id u) (connectedUsers st) = Some c →
  let closing := alter (λ rs, match rs with CLOSED => CLOSED | _ => CLOSING end)
                       (conn_ws c) in
  exec (postLogout (Some u) logoutErr) st
  = set_trace
      (λ t, t ++ WsClose (conn_ws c) None None
              :: Stored (OnlineStatus (User.id u) false)
              :: broadcast_frames (userOffline (User.id u))
                   (JsMap.delete (User.id u) (connectedUsers st))
                   (closing (sockets st))
              ++ [ReqLogout (User.id u);
                  if logoutErr then NextError else SendStatus 200])
      (set_activeChatWindows (delete (User.id u))
         (set_storage
            (MemStorage.setUserOnlineStatus (User.id u) false (clock st))
            (set_connectedUsers (JsMap.delete (User.id u))
               (set_sockets closing st)))).
Proof.
  intros Hget. cbv zeta. unfold postLogout.
  rewrite exec_bind. change (exec (gets _) st) with st.
  unfold eval. simpl. rewrite Hget.
  rewrite !exec_bind, broadcastToAll_exec. simpl.
  destruct logoutErr; unfold exec, emit, modify, set_trace; simpl; f_equal.
  all: repeat (rewrite <- app_assoc; simpl).
  all: done.
Qed.

Lemma step_PostLogout reqUser logoutErr st :
  step st (PostLogout reqUser logoutErr) = exec (postLogout reqUser logoutErr) st.
Proof. reflexivity. Qed.

Lemma step_WsClosed ws u st :
  listeners st !! ws = Some u →
  step st (WsClosed ws)
  = set_listeners (delete ws)
      (exec (onClose u) (set_sockets (alter (λ _, CLOSED) ws) st)).
Proof.
  intros Hl. unfold step. simpl. rewrite !exec_bind.
  change (eval (listener_of ws) _) with (listeners st !! ws). rewrite Hl.
  by rewrite exec_bind.
Qed.

(** Logout first, transport close second: whoever is online is told
    twice that the user went offline. *)
Lemma logout_then_close_tells_twice u c logoutErr st :
  JsMap.get (User.id u) (connectedUsers st) = Some c →
  listeners st !! conn_ws c = Some (User.id u) →
  User.id u ≠ "" →
  let told :=
    broadcast_frames (userOffline (User.id u))
      (JsMap.delete (User.id u) (connectedUsers st))
      (alter (λ rs, match rs with CLOSED => CLOSED | _ => CLOSING end)
             (conn_ws c) (sockets st)) in
  List.filter is_userOffline
    (new_effects st
       (run st [PostLogout (Some u) logoutErr; WsClosed (conn_ws c)]))
  = told ++ told.
Proof.
  intros Hget Hl Huid. cbv zeta. unfold run. simpl fold_left.
  rewrite step_PostLogout, (postLogout_exec u c) by done. cbv zeta.
  rewrite (step_WsClosed _ (User.id u)) by done.
  rewrite onClose_exec by done.
  erewrite new_effects_app.
  2:{ simpl. rewrite <- app_assoc. reflexivity. }
  simpl. rewrite !List.filter_app. simpl.
  rewrite (JsMap_delete_absent (User.id u)
             (JsMap.delete (User.id u) (connectedUsers st)))
    by apply JsMap_get_delete_eq.
  rewrite broadcast_frames_closed.
  destruct logoutErr; simpl;
    by rewrite !broadcast_frames_userOffline, ?app_nil_r.
Qed.

Lemma postLogout_absent_exec u logoutErr st :
  JsMap.get (User.id u) (connectedUsers st) = None →
  exec (postLogout (Some u) logoutErr) st
  = set_trace
      (λ t, t ++ [ReqLogout (User.id u);
                  if logoutErr then NextError else SendStatus 200]) st.
Proof.
  intros Hget. unfold postLogout.
  rewrite exec_bind. change (exec (gets _) st) with st.
  unfold eval. simpl. rewrite Hget.
  destruct logoutErr; unfold exec, emit, modify, set_trace; simpl; f_equal;
    by rewrite <- app_assoc.
Qed.

(** Transport close first, logout second: the logout route finds no entry
    and stays silent, so everybody is told once. *)
Lemma close_then_logout_tells_once u c logoutErr st :
  JsMap.get (User.id u) (connectedUsers st) = Some c →
  listeners st !! conn_ws c = Some (User.id u) →
  User.id u ≠ "" →
  List.filter is_userOffline
    (new_effects st
       (run st [WsClosed (conn_ws c); PostLogout (Some u) logoutErr]))
  = broadcast_frames (userOffline (User.id u))
      (JsMap.delete (User.id u) (connectedUsers st))
      (alter (λ _, CLOSED) (conn_ws c) (sockets st)).
Proof.
  intros Hget Hl Huid. unfold run. simpl fold_left.
  rewrite (step_WsClosed _ (User.id u)) by done.
  rewrite onClose_exec by done.
  rewrite step_PostLogout, postLogout_absent_exec
    by (simpl; apply JsMap_get_delete_eq).
  erewrite new_effects_app.
  2:{ simpl. rewrite <- app_assoc. reflexivity. }
  simpl. rewrite !List.filter_app. simpl.
  destruct logoutErr; simpl;
    by rewrite !broadcast_frames_userOffline, ?app_nil_r.
Qed.

(** The same missing check, seen from a reconnect: Alice opens a second
    connection (socket 3) and then the first one (socket 1) goes away; its
    close listener deletes the registry entry that by now belongs to
    socket 3, which is open and listening. *)
Lemma stale_close_unregisters_new_connection :
  let st := run sample_online
                [Connection 3 (sample_request "s:sa.again") false; WsClosed 1] in
  JsMap.get "A" (connectedUsers st) = None
  ∧ sockets st !! 3 = Some OPEN
  ∧ listeners st !! 3 = Some "A".
Proof. vm_compute. done. Qed.

(** C4. Alice and Bob are online; Alice posts [/api/logout], and then
    the close event of her socket (which the logout itself asked for)
    arrives. Bob's socket is written [userOffline] for Alice twice: the
    close listener repeats the clean-up and the broadcast without looking
    whether the registry still holds her entry, a check the logout route
    does make. In the other order (transport close first, logout second)
    Bob is told once. Neither order raises. *)
Theorem logout_then_close_broadcasts_twice :
  List.filter (is_userOffline_to 2 "A")
    (new_effects sample_online
       (run sample_online [PostLogout (Some alice) false; WsClosed 1]))
  = [WsSend 2 (userOffline "A"); WsSend 2 (userOffline "A")]
  ∧ List.filter (is_userOffline_to 2 "A")
      (new_effects sample_online
         (run sample_online [WsClosed 1; PostLogout (Some alice) false]))
    = [WsSend 2 (userOffline "A")]
  ∧ new_effects sample_online
      (run sample_online [PostLogout (Some alice) false; WsClosed 1])
    = [WsClose 1 None None; Stored (OnlineStatus "A" false);
       WsSend 2 (userOffline "A"); ReqLogout "A"; SendStatus 200;
       Stored (OnlineStatus "A" false); WsSend 2 (userOffline "A")].
Proof. vm_compute. done. Qed.

(** * Further properties of the code *)

(** ** The handshake, case by case *)


Lemma before_dot_dot_free sid : dot_free sid = true → before_dot sid = sid.
Proof.
  induction sid as [|c sid IH]; simpl; [done|].
  intros [Hc Hsid]%andb_true_iff. apply negb_true_iff in Hc. rewrite Hc.
  by rewrite IH.
Qed.

(** The state an authenticated handshake on a new socket leaves. *)
Lemma step_Connection_accepted ws req storeErr A st :
  sockets st !! ws = None →
  sessionVerifier req storeErr st = Authenticated A →
  step st (Connection ws req storeErr)
  = set_listeners <[ws := A]>
      (set_trace
         (λ t, t ++ Stored (OnlineStatus A true)
                 :: broadcast_frames (userOnline A)
                      (JsMap.set A (mkUserConnection ws A) (connectedUsers st))
                      (<[ws := OPEN]> (sockets st)))
         (set_storage (MemStorage.setUserOnlineStatus A true (clock st))
            (set_connectedUsers (JsMap.set A (mkUserConnection ws A))
               (set_sockets <[ws := OPEN]> st)))).
Proof.
  intros Hfresh Hverdict.
  rewrite step_Connection_fresh by done. rewrite onConnection_exec.
  change (sessionVerifier req storeErr (set_sockets <[ws := OPEN]> st))
    with (sessionVerifier req storeErr st).
  rewrite Hverdict. rewrite !exec_bind, broadcastToAll_exec. simpl.
  unfold set_listeners, set_trace. simpl. f_equal. by rewrite <- app_assoc.
Qed.

(** The state a rejected handshake on a new socket leaves. *)
Lemma step_Connection_rejected ws req storeErr code reason st :
  sockets st !! ws = None →
  rejection (sessionVerifier req storeErr st) = Some (code, reason) →
  step st (Connection ws req storeErr)
  = set_trace (λ t, t ++ [WsClose ws (Some code) (Some reason)])
      (set_sockets (λ _, <[ws := CLOSING]> (sockets st)) st).
Proof.
  intros Hfresh Hrej.
  rewrite step_Connection_fresh by done. rewrite onConnection_exec.
  change (sessionVerifier req storeErr (set_sockets <[ws := OPEN]> st))
    with (sessionVerifier req storeErr st).
  destruct (sessionVerifier req storeErr st); simpl in Hrej;
    [done|injection Hrej as <- <-..];
    unfold exec; simpl; unfold set_trace, set_sockets; simpl; f_equal;
    by rewrite alter_insert_eq.
Qed.

(** X1. A handshake on a new socket that the verifier does not
    authenticate (no or empty cookie, session-store error, unknown session,
    session without a principal, principal without a user row) closes the
    socket with the code and reason of its case (1011 "Authentication
    failed" for a store error, 1008 "User not found" for a missing row,
    1008 "Authentication required" otherwise) and does nothing else: the
    registry, the focus tracker, the listeners and the stored rows are as
    before. *)
Theorem rejected_handshake_registers_nothing
    (ws : nat) (req : Request) (storeErr : bool) (code : nat) (reason : string)
    (st : State) :
  sockets st !! ws = None →
  rejection (sessionVerifier req storeErr st) = Some (code, reason) →
  let st' := step st (Connection ws req storeErr) in
  new_effects st st' = [WsClose ws (Some code) (Some reason)]
  ∧ sockets st' = <[ws := CLOSING]> (sockets st)
  ∧ connectedUsers st' = connectedUsers st
  ∧ activeChatWindows st' = activeChatWindows st
  ∧ listeners st' = listeners st
  ∧ storage st' = storage st.
Proof.
  intros Hfresh Hrej. cbv zeta.
  rewrite (step_Connection_rejected ws req storeErr code reason) by done.
  split_and!; try done. by apply new_effects_app.
Qed.

Lemma rejected_handshake_witness :
  sockets sample_start !! 9 = None
  ∧ rejection (sessionVerifier (session_cookie "s:gone.sig") false sample_start)
    = Some (1008, "Authentication required")
  ∧ new_effects sample_start
      (step sample_start (Connection 9 (session_cookie "s:gone.sig") false))
    = [WsClose 9 (Some 1008) (Some "Authentication required")].
Proof.
  assert (sockets sample_start !! 9 = None) as Hfresh by reflexivity.
  assert (rejection (sessionVerifier (session_cookie "s:gone.sig") false
                       sample_start)
          = Some (1008, "Authentication required")) as Hrej
    by (vm_compute; reflexivity).
  split_and!; [exact Hfresh|exact Hrej|].
  destruct (rejected_handshake_registers_nothing 9 (session_cookie "s:gone.sig")
              false 1008 "Authentication required" sample_start Hfresh Hrej)
    as (Heffects & _).
  exact Heffects.
Defined.


Lemma setUserOnlineStatus_getUser u b now s v :
  MemStorage.getUser v (MemStorage.setUserOnlineStatus u b now s)
  = if decide (u = v)
    then (λ row, User.with_presence row b now) <$> MemStorage.getUser u s
    else MemStorage.getUser v s.
Proof.
  unfold MemStorage.setUserOnlineStatus, MemStorage.getUser.
  destruct (JsMap.get u (MemStorage.users s)) as [row|] eqn:Hrow; simpl.
  - destruct (decide (u = v)) as [<-|Hne].
    + by rewrite JsMap_get_set_eq.
    + by rewrite JsMap_get_set_ne.
  - destruct (decide (u = v)) as [<-|Hne]; [by rewrite Hrow|done].
Qed.







(** ** Leaving *)

(** X4. The close event of a socket whose listeners were installed for
    [A]: [A]'s registry entry and [A]'s focus set are gone, the socket's
    listeners are gone, [A]'s row (if there is one) is stored as offline
    with the current time as last-seen, and the effects are that write and
    then one [userOffline] frame to every remaining registry entry whose
    socket is open. The entries and focus sets of the other users are as
    before; in particular a peer who had a window open with [A] still
    counts as focused on [A]. *)
Theorem transport_close_forgets_the_user (ws : nat) (A : string) (st : State) :
  listeners st !! ws = Some A →
  A ≠ "" →
  let st' := step st (WsClosed ws) in
  JsMap.get A (connectedUsers st') = None
  ∧ activeChatWindows st' !! A = None
  ∧ listeners st' = delete ws (listeners st)
  ∧ sockets st' = alter (λ _, CLOSED) ws (sockets st)
  ∧ (∀ B, B ≠ A →
       JsMap.get B (connectedUsers st') = JsMap.get B (connectedUsers st)
       ∧ activeChatWindows st' !! B = activeChatWindows st !! B
       ∧ isFocused B A st' = isFocused B A st)
  ∧ MemStorage.getUser A (storage st')
    = (λ row, User.with_presence row false (clock st))
        <$> MemStorage.getUser A (storage st)
  ∧ new_effects st st'
    = Stored (OnlineStatus A false)
      :: broadcast_frames (userOffline A)
           (JsMap.delete A (connectedUsers st))
           (alter (λ _, CLOSED) ws (sockets st)).
Proof.
  intros Hl HA. cbv zeta.
  rewrite (step_WsClosed ws A) by done. rewrite onClose_exec by done.
  simpl. split_and!; try done.
  - apply JsMap_get_delete_eq.
  - apply lookup_delete_eq.
  - intros B HB. split_and!.
    + by apply JsMap_get_delete_ne.
    + by apply lookup_delete_ne.
    + unfold isFocused. simpl. by rewrite lookup_delete_ne.
  - by rewrite setUserOnlineStatus_getUser, decide_True.
  - by apply new_effects_app.
Qed.

Lemma transport_close_witness :
  listeners sample_online !! 2 = Some "B"
  ∧ "B" ≠ ""
  ∧ new_effects sample_online (step sample_online (WsClosed 2))
    = [Stored (OnlineStatus "B" false); WsSend 1 (userOffline "B")].
Proof.
  assert (listeners sample_online !! 2 = Some "B") as Hl
    by (vm_compute; reflexivity).
  assert ("B" ≠ "") as HB by discriminate.
  split_and!; [exact Hl|exact HB|].
  destruct (transport_close_forgets_the_user 2 "B" sample_online Hl HB)
    as (_ & _ & _ & _ & _ & _ & Heffects).
  rewrite Heffects. vm_compute. reflexivity.
Defined.

(** X5. A logout by a user who has a registry entry: the entry's socket
    is asked to close, the entry and the user's focus set are removed, the
    row is stored as offline, every remaining entry with an open socket is
    sent [userOffline] once, and then the session is ended and the request
    answered. The socket's listeners stay installed: they go with the
    close event. An unauthenticated request is answered 401 and nothing
    else happens. *)
Theorem logout_of_a_connected_user
    (u : User.t) (c : UserConnection) (logoutErr : bool) (st : State) :
  JsMap.get (User.id u) (connectedUsers st) = Some c →
  let st' := step st (PostLogout (Some u) logoutErr) in
  let closing :=
    alter (λ rs, match rs with CLOSED => CLOSED | _ => CLOSING end) (conn_ws c) in
  JsMap.get (User.id u) (connectedUsers st') = None
  ∧ activeChatWindows st' !! User.id u = None
  ∧ sockets st' = closing (sockets st)
  ∧ listeners st' = listeners st
  ∧ (∀ B, B ≠ User.id u →
       JsMap.get B (connectedUsers st') = JsMap.get B (connectedUsers st)
       ∧ activeChatWindows st' !! B = activeChatWindows st !! B)
  ∧ new_effects st st'
    = WsClose (conn_ws c) None None
      :: Stored (OnlineStatus (User.id u) false)
      :: broadcast_frames (userOffline (User.id u))
           (JsMap.delete (User.id u) (connectedUsers st))
           (closing (sockets st))
      ++ [ReqLogout (User.id u); if logoutErr then NextError else SendStatus 200]
  ∧ step st (PostLogout None logoutErr)
    = set_trace (λ t, t ++ [SendStatus 401]) st.
Proof.
  intros Hget. cbv zeta.
  rewrite step_PostLogout, (postLogout_exec u c) by done. cbv zeta. simpl.
  split_and!; try done.
  - apply JsMap_get_delete_eq.
  - apply lookup_delete_eq.
  - intros B HB. split.
    + by apply JsMap_get_delete_ne.
    + by apply lookup_delete_ne.
  - by apply new_effects_app.
Qed.

Lemma logout_of_a_connected_user_witness :
  JsMap.get (User.id bob) (connectedUsers sample_online)
  = Some (mkUserConnection 2 "B")
  ∧ new_effects sample_online (step sample_online (PostLogout (Some bob) false))
    = [WsClose 2 None None; Stored (OnlineStatus "B" false);
       WsSend 1 (userOffline "B"); ReqLogout "B"; SendStatus 200].
Proof.
  assert (JsMap.get (User.id bob) (connectedUsers sample_online)
          = Some (mkUserConnection 2 "B")) as Hget by (vm_compute; reflexivity).
  split; [exact Hget|].
  destruct (logout_of_a_connected_user bob (mkUserConnection 2 "B") false
              sample_online Hget) as (_ & _ & _ & _ & _ & Heffects & _).
  rewrite Heffects. vm_compute. reflexivity.
Defined.

(** ** The typing relay *)

Lemma step_typing ws S R isTyping st :
  listeners st !! ws = Some S →
  step st (WsMessage ws (typing R isTyping)) = exec (handleTyping S R isTyping) st.
Proof.
  intros Hl. unfold step. simpl. rewrite exec_bind.
  change (exec (listener_of ws) st) with st.
  change (eval (listener_of ws) st) with (listeners st !! ws). by rewrite Hl.
Qed.

(** X6. A [typing] frame from [S] for [R] is relayed and nothing more:
    when the registry has an entry for [R] with an open socket, that
    socket is written one [userTyping] frame naming [S] and the flag as
    received; otherwise nothing is written. Nothing is stored and no
    other part of the state changes, and the sender gets no
    acknowledgement. *)
Theorem typing_is_relayed_and_not_stored
    (ws : nat) (S R : string) (isTyping : bool) (st : State) :
  listeners st !! ws = Some S →
  S ≠ "" →
  let st' := step st (WsMessage ws (typing R isTyping)) in
  same_but_trace st st'
  ∧ new_effects st st'
    = match deliverable R st with
      | Some h => [WsSend h (userTyping S isTyping)]
      | None => []
      end.
Proof.
  intros Hl HS. cbv zeta. rewrite (step_typing ws S) by done.
  unfold handleTyping, exec, deliverable. rewrite truthy_str_Some by done.
  simpl. rewrite !run_bind, writable_run. simpl.
  destruct (JsMap.get R (connectedUsers st)) as [c|]; simpl.
  - destruct (bool_decide _); simpl.
    + split; [done|]. by apply new_effects_app.
    + split; [apply same_but_trace_refl|].
      apply new_effects_app. by rewrite app_nil_r.
  - split; [apply same_but_trace_refl|].
    apply new_effects_app. by rewrite app_nil_r.
Qed.

Lemma typing_witness :
  listeners sample_online !! 1 = Some "A"
  ∧ "A" ≠ ""
  ∧ new_effects sample_online
      (step sample_online (WsMessage 1 (typing "B" true)))
    = [WsSend 2 (userTyping "A" true)].
Proof.
  assert (listeners sample_online !! 1 = Some "A") as Hl
    by (vm_compute; reflexivity).
  assert ("A" ≠ "") as HA by discriminate.
  split_and!; [exact Hl|exact HA|].
  destruct (typing_is_relayed_and_not_stored 1 "A" "B" true sample_online Hl HA)
    as (_ & Heffects).
  rewrite Heffects. vm_compute. reflexivity.
Defined.

(** ** Conversations *)

Lemma same_pair_sym a b c :
  MemStorage.same_pair a b c = MemStorage.same_pair b a c.
Proof. unfold MemStorage.same_pair. apply orb_comm. Qed.


Lemma same_pair_swap c1 c2 :
  MemStorage.same_pair (Conversation.participant1Id c1)
    (Conversation.participant2Id c1) c2
  = MemStorage.same_pair (Conversation.participant1Id c2)
      (Conversation.participant2Id c2) c1.
Proof.
  unfold MemStorage.same_pair.
  rewrite !(String.eqb_sym (Conversation.participant1Id c2)),
    !(String.eqb_sym (Conversation.participant2Id c2)).
  destruct (_ =? _)%string, (_ =? _)%string, (_ =? _)%string, (_ =? _)%string;
    reflexivity.
Qed.





Lemma find_values_None (f : Conversation.t → bool) (m : list (string * Conversation.t)) i e :
  List.find f (JsMap.values m) = None → m !! i = Some e → f e.2 = false.
Proof.
  intros Hfind Hi. apply (find_none _ _ Hfind).
  apply list_elem_of_In, list_elem_of_fmap. exists e. split; [done|].
  by eapply list_elem_of_lookup_2.
Qed.

(** A conversation filed last for a pair that had none. *)
Lemma one_conversation_per_pair_snoc m k c :
  List.find (MemStorage.same_pair (Conversation.participant1Id c)
               (Conversation.participant2Id c)) (JsMap.values m) = None →
  one_conversation_per_pair m →
  one_conversation_per_pair (m ++ [(k, c)]).
Proof.
  intros Hfind Hm i j e1 e2 Hi Hj Hsame.
  apply lookup_snoc_Some in Hi as [[Hli Hi]|[Hli <-]];
    apply lookup_snoc_Some in Hj as [[Hlj Hj]|[Hlj <-]]; simpl in *.
  - by apply (Hm i j e1 e2).
  - rewrite same_pair_swap in Hsame.
    by rewrite (find_values_None _ _ _ _ Hfind Hi) in Hsame.
  - by rewrite (find_values_None _ _ _ _ Hfind Hj) in Hsame.
  - congruence.
Qed.













(** ** Profile views *)

Lemma unread_count_snoc U k n s s' :
  MemStorage.notifications s' = MemStorage.notifications s ++ [(k, n)] →
  MemStorage.getUnreadNotificationCount U s'
  = MemStorage.getUnreadNotificationCount U s
    + (if MemStorage.unread_of U n then 1 else 0).
Proof.
  intros Heq. unfold MemStorage.getUnreadNotificationCount, JsMap.values.
  rewrite Heq, fmap_app, List.filter_app, length_app. simpl.
  by destruct (MemStorage.unread_of U n).
Qed.

Lemma unread_of_same U n :
  Notification.userId n = U → Notification.isRead n = Some false →
  MemStorage.unread_of U n = true.
Proof.
  unfold MemStorage.unread_of. intros -> ->. by rewrite String.eqb_refl.
Qed.

Lemma unread_of_other U n :
  Notification.userId n ≠ U → MemStorage.unread_of U n = false.
Proof.
  unfold MemStorage.unread_of. intros Hne.
  by destruct (String.eqb_spec (Notification.userId n) U).
Qed.

(** X8. Looking at another user's profile files one unread
    [profile_view] notification for that user, from the viewer, under a
    new id, and so raises that user's unread count by one; it is pushed
    to the viewed user when the viewer's row is found and the viewed user
    has a registry entry with an open socket (the name in the push is the
    stored first name of the viewer); the answer is the public profile of
    the row read before the notification was written. Every view does
    this again. *)
Theorem profile_view_is_notified
    (me viewed : User.t) (userId : string) (st : State) :
  invariant st →
  userId ≠ User.id me →
  MemStorage.getUser userId (storage st) = Some viewed →
  let st' := step st (GetUserProfile (Some me) userId) in
  let n :=
    Notification.mk (uuid_of (uuidSeed st)) userId profile_view (User.id me)
                    None (Some false) JNull (Some (clock st)) in
  MemStorage.notifications (storage st')
  = MemStorage.notifications (storage st) ++ [(Notification.id n, n)]
  ∧ MemStorage.getUnreadNotificationCount userId (storage st')
    = S (MemStorage.getUnreadNotificationCount userId (storage st))
  ∧ MemStorage.users (storage st') = MemStorage.users (storage st)
  ∧ new_effects st st'
    = Stored (CreatedNotification (Notification.id n))
      :: match MemStorage.getUser (User.id me) (storage st),
               deliverable userId st with
         | Some from, Some h =>
             [WsSend h
                (newNotification (Notification.id n) profile_view (User.id me)
                   (User.firstName from) (User.profilePhoto from)
                   (User.firstName from +:+ " viewed your profile.")
                   (Some (clock st)))]
         | _, _ => []
         end
      ++ [SendJson 200 (JObj (toPublicUser viewed))].
Proof.
  intros Hinv Hne Hviewed. cbv zeta.
  assert (JsMap.get (uuid_of (uuidSeed st))
            (MemStorage.notifications (storage st)) = None) as Hfresh
    by (apply (minted_fresh (uuidSeed st)); [apply Hinv|done]).
  assert (MemStorage.notifications
            (storage (step st (GetUserProfile (Some me) userId)))
          = MemStorage.notifications (storage st)
            ++ [(uuid_of (uuidSeed st),
                 Notification.mk (uuid_of (uuidSeed st)) userId profile_view
                   (User.id me) None (Some false) JNull (Some (clock st)))])
    as Hnotifs.
  { unfold step, exec. simpl.
    destruct (String.eqb_spec userId (User.id me)) as [|_]; [done|].
    rewrite run_bind. simpl. rewrite Hviewed. simpl. rewrite !run_bind. simpl.
    unfold MemStorage.getUser at 1. simpl.
    destruct (JsMap.get (User.id me) (MemStorage.users (storage st))); simpl.
    - rewrite !run_bind, sendToUser_run.
      destruct (deliverable userId _); simpl; by apply JsMap_set_absent.
    - by apply JsMap_set_absent. }
  split_and!.
  - exact Hnotifs.
  - rewrite (unread_count_snoc userId _ _ _ _ Hnotifs).
    rewrite unread_of_same by done. lia.
  - unfold step, exec. simpl.
    destruct (String.eqb_spec userId (User.id me)) as [|_]; [done|].
    rewrite run_bind. simpl. rewrite Hviewed. simpl. rewrite !run_bind. simpl.
    unfold MemStorage.getUser at 1. simpl.
    destruct (JsMap.get (User.id me) (MemStorage.users (storage st))); simpl.
    + rewrite !run_bind, sendToUser_run.
      by destruct (deliverable userId _).
    + done.
  - apply new_effects_app. unfold step, exec. simpl.
    destruct (String.eqb_spec userId (User.id me)) as [|_]; [done|].
    rewrite run_bind. simpl. rewrite Hviewed. simpl. rewrite !run_bind. simpl.
    unfold MemStorage.getUser. simpl.
    destruct (JsMap.get (User.id me) (MemStorage.users (storage st))); simpl.
    + rewrite !run_bind, sendToUser_run.
      match goal with |- context [deliverable userId ?s] =>
        rewrite (deliverable_ext userId st s) by done end.
      destruct (deliverable userId st); simpl; by rewrite <- !app_assoc.
    + by rewrite <- !app_assoc.
Qed.

Lemma profile_view_witness :
  invariant sample_online
  ∧ "B" ≠ User.id alice
  ∧ MemStorage.getUser "B" (storage sample_online)
    = Some (User.with_presence bob true 0)
  ∧ MemStorage.getUnreadNotificationCount "B"
      (storage (step sample_online (GetUserProfile (Some alice) "B"))) = 1
  ∧ MemStorage.getUnreadNotificationCount "B"
      (storage (run sample_online [GetUserProfile (Some alice) "B";
                                   GetUserProfile (Some alice) "B"])) = 2.
Proof.
  assert (invariant sample_online) as Hinv
    by exact (reachable_invariant _ sample_online_reachable).
  assert ("B" ≠ User.id alice) as Hne by discriminate.
  assert (MemStorage.getUser "B" (storage sample_online)
          = Some (User.with_presence bob true 0)) as Hb
    by (vm_compute; reflexivity).
  split_and!; [exact Hinv|exact Hne|exact Hb| |].
  - destruct (profile_view_is_notified alice _ "B" sample_online Hinv Hne Hb)
      as (_ & Hcount & _). rewrite Hcount. vm_compute. reflexivity.
  - vm_compute. reflexivity.
Defined.

(** X9. The refusals of the profile route write nothing: without an
    authenticated user the answer is 401, for the requester's own id it is
    400, for an id without a row it is 404, and in each case the state
    changes by that answer only. *)
Theorem profile_view_refusals (me : User.t) (userId : string) (st : State) :
  step st (GetUserProfile None userId)
  = set_trace (λ t, t ++ [SendStatus 401]) st
  ∧ step st (GetUserProfile (Some me) (User.id me))
    = set_trace
        (λ t, t ++ [SendJson 400
                      (message_body "Use /api/user for your own profile")]) st
  ∧ (MemStorage.getUser userId (storage st) = None →
     step st (GetUserProfile (Some me) userId)
     = set_trace
         (λ t, t ++ [SendJson (if String.eqb userId (User.id me) then 400 else 404)
                       (message_body
                          (if String.eqb userId (User.id me)
                           then "Use /api/user for your own profile"
                           else "User not found"))]) st).
Proof.
  split_and!.
  - reflexivity.
  - unfold step, exec. simpl. by rewrite String.eqb_refl.
  - intros Hnone. unfold step, exec. simpl.
    destruct (String.eqb userId (User.id me)); [done|].
    rewrite run_bind. simpl. by rewrite Hnone.
Qed.

(** ** Sorting, and the history of a conversation *)

Section Array_sort_facts.
Context {A : Type} (compareFn : A → A → Z) (key : A → Z).
Hypothesis compareFn_key : ∀ a b, (compareFn a b ≤ 0 ↔ key a ≤ key b)%Z.

Lemma sort_insert_Permutation x l : sort_insert compareFn x l ≡ₚ x :: l.
Proof.
  induction l as [|y r IH]; simpl; [done|].
  destruct (compareFn x y <=? 0)%Z; [done|]. rewrite IH. apply Permutation_swap.
Qed.

Lemma Array_sort_Permutation l : Array_sort compareFn l ≡ₚ l.
Proof.
  induction l as [|x r IH]; simpl; [done|].
  rewrite sort_insert_Permutation. by rewrite IH.
Qed.

Lemma sort_insert_sorted x l :
  StronglySorted (λ a b, (key a ≤ key b)%Z) l →
  StronglySorted (λ a b, (key a ≤ key b)%Z) (sort_insert compareFn x l).
Proof using compareFn_key.
  induction 1 as [|y r Hr IH Hy]; simpl.
  - repeat constructor.
  - destruct (Z.leb_spec (compareFn x y) 0) as [Hle|Hgt].
    + apply compareFn_key in Hle. constructor; [by constructor|].
      constructor; [done|]. eapply Forall_impl; [exact Hy|].
      intros z Hz. simpl in Hz. lia.
    + constructor; [done|]. rewrite sort_insert_Permutation.
      constructor; [|done].
      destruct (Z.le_gt_cases (key y) (key x)) as [|Hlt]; [done|].
      assert (compareFn x y ≤ 0)%Z by (apply compareFn_key; lia). lia.
Qed.

Lemma Array_sort_sorted l :
  StronglySorted (λ a b, (key a ≤ key b)%Z) (Array_sort compareFn l).
Proof using compareFn_key.
  induction l as [|x r IH]; simpl; [constructor|]. by apply sort_insert_sorted.
Qed.

(** Stability: elements with the same key keep their order. *)
Lemma sort_insert_stable v x l :
  List.filter (λ a, key a =? v)%Z (sort_insert compareFn x l)
  = List.filter (λ a, key a =? v)%Z (x :: l).
Proof using compareFn_key.
  induction l as [|y r IH]; simpl; [done|].
  destruct (Z.leb_spec (compareFn x y) 0) as [Hle|Hgt]; [done|].
  simpl. rewrite IH. simpl.
  destruct (Z.eqb_spec (key x) v) as [Hx|_]; [|done].
  destruct (Z.eqb_spec (key y) v) as [Hy|_]; [|done].
  assert (compareFn x y ≤ 0)%Z by (apply compareFn_key; lia). lia.
Qed.

Lemma Array_sort_stable v l :
  List.filter (λ a, key a =? v)%Z (Array_sort compareFn l)
  = List.filter (λ a, key a =? v)%Z l.
Proof using compareFn_key.
  induction l as [|x r IH]; simpl; [done|].
  rewrite sort_insert_stable. simpl. by rewrite IH.
Qed.


End Array_sort_facts.

Lemma compare_timestamps (a b : Message.t) :
  (getTime (Message.timestamp a) - getTime (Message.timestamp b) ≤ 0
   ↔ getTime (Message.timestamp a) ≤ getTime (Message.timestamp b))%Z.
Proof. lia. Qed.

(** X10. [getMessages] returns the stored messages of the conversation
    asked for, all of them and no others, ordered by timestamp; messages
    with the same timestamp come in the order in which they were
    stored. *)
Theorem getMessages_is_the_conversation_in_time_order
    (conversationId : string) (s : MemStorage.t) :
  let stored :=
    List.filter (λ msg, String.eqb (Message.conversationId msg) conversationId)
                (JsMap.values (MemStorage.messages s)) in
  MemStorage.getMessages conversationId s ≡ₚ stored
  ∧ (∀ msg, msg ∈ MemStorage.getMessages conversationId s →
            Message.conversationId msg = conversationId
            ∧ msg ∈ JsMap.values (MemStorage.messages s))
  ∧ StronglySorted
      (λ a b, (getTime (Message.timestamp a) ≤ getTime (Message.timestamp b))%Z)
      (MemStorage.getMessages conversationId s)
  ∧ ∀ t, List.filter (λ msg, getTime (Message.timestamp msg) =? t)%Z
                     (MemStorage.getMessages conversationId s)
         = List.filter (λ msg, getTime (Message.timestamp msg) =? t)%Z stored.
Proof.
  cbv zeta. unfold MemStorage.getMessages. split_and!.
  - apply Array_sort_Permutation.
  - intros msg Hin. rewrite Array_sort_Permutation in Hin.
    apply list_elem_of_In, filter_In in Hin as [Hin Heq].
    apply String.eqb_eq in Heq. by apply list_elem_of_In in Hin.
  - apply (Array_sort_sorted _ (λ m, getTime (Message.timestamp m))).
    apply compare_timestamps.
  - intros t.
    apply (Array_sort_stable _ (λ m, getTime (Message.timestamp m))).
    apply compare_timestamps.
Qed.


Lemma find_snoc_new {B} (f : B → bool) l x :
  List.find f l = None → f x = true → List.find f (l ++ [x]) = Some x.
Proof.
  intros Hnone Hx. induction l as [|y r IH]; simpl in *; [by rewrite Hx|].
  destruct (f y); [done|]. by apply IH.
Qed.

Lemma find_ext_eq {B} (f g : B → bool) l :
  (∀ x, f x = g x) → List.find f l = List.find g l.
Proof.
  intros Hfg. induction l as [|y r IH]; simpl; [done|]. by rewrite Hfg, IH.
Qed.

Lemma same_pair_new id u r t1 t2 :
  MemStorage.same_pair u r (Conversation.mk id u r t1 t2) = true.
Proof. unfold MemStorage.same_pair. simpl. by rewrite !String.eqb_refl. Qed.










(** ** Presence in the storage *)

Lemma JsMap_elem_of_set_present {V} (k k' : string) (v v0 u : V)
    (m : list (string * V)) :
  JsMap.wf m → JsMap.get k m = Some v0 →
  (k', u) ∈ JsMap.set k v m ↔ (k' = k ∧ u = v) ∨ (k' ≠ k ∧ (k', u) ∈ m).
Proof.
  unfold JsMap.wf, JsMap.keys. induction m as [|[k0 w] m IH]; simpl; [done|].
  intros Hnd Hget. apply NoDup_cons in Hnd as [Hk0 Hnd].
  case_decide as Hk.
  - subst k0. rewrite !elem_of_cons. split.
    + intros [[= -> ->]|Hin]; [by left|]. right. split; [|by right].
      intros ->. apply Hk0. apply list_elem_of_fmap. by exists (k, u).
    + intros [[-> ->]|[Hne [[= ? ?]|Hin]]]; [by left|done|by right].
  - rewrite !elem_of_cons, (IH Hnd Hget). split.
    + intros [[= -> ->]|[[-> ->]|[Hne Hin]]].
      * right. split; [done|by left].
      * by left.
      * right. split; [done|by right].
    + intros [[-> ->]|[Hne [[= -> ->]|Hin]]].
      * right. by left.
      * by left.
      * right. right. done.
Qed.

Lemma users_keyed_elem m k u : users_keyed m → (k, u) ∈ m → User.id u = k.
Proof.
  unfold users_keyed. rewrite Forall_forall. intros Hk Hin. exact (Hk _ Hin).
Qed.

(** X12. [getOnlineUsers] follows [setUserOnlineStatus]: in a store whose
    rows are filed under their ids, after [setUserOnlineStatus(userId,
    isOnline)] the online users are the ones that were online before,
    other than [userId], together with [userId]'s row (stamped with the
    time of the call) when [isOnline] is true and the row exists. For an
    id without a row nothing is created. *)
Theorem online_listing_follows_setUserOnlineStatus
    (userId : string) (isOnline : bool) (now : nat) (s : MemStorage.t) :
  JsMap.wf (MemStorage.users s) →
  users_keyed (MemStorage.users s) →
  let s' := MemStorage.setUserOnlineStatus userId isOnline now s in
  (∀ u, u ∈ MemStorage.getOnlineUsers s'
        ↔ (isOnline = true
           ∧ ∃ row, MemStorage.getUser userId s = Some row
                    ∧ u = User.with_presence row true now)
          ∨ (User.id u ≠ userId ∧ u ∈ MemStorage.getOnlineUsers s))
  ∧ (MemStorage.getUser userId s = None → s' = s).
Proof.
  intros Hwf Hkeyed. cbv zeta. split.
  - intros u. unfold MemStorage.setUserOnlineStatus, MemStorage.getOnlineUsers,
      MemStorage.getUser, JsMap.values.
    destruct (JsMap.get userId (MemStorage.users s)) as [row|] eqn:Hrow; simpl.
    + rewrite !list_elem_of_filter, !list_elem_of_fmap. split.
      * intros [Honline ([k u'] & -> & Hin)]. simpl in *.
        apply (JsMap_elem_of_set_present _ _ _ row) in Hin
          as [[-> ->]|[Hne Hin]]; try done.
        -- left. simpl in Honline. subst isOnline. split; [done|]. by exists row.
        -- right. rewrite (users_keyed_elem _ _ _ Hkeyed Hin).
           split_and!; [done|done|]. by exists (k, u').
      * intros [[-> (row' & [= <-] & ->)]|[Hne [Honline ([k u'] & -> & Hin)]]].
        -- split; [done|]. exists (userId, User.with_presence row true now).
           split; [done|].
           apply (JsMap_elem_of_set_present _ _ _ row); [done|done|by left].
        -- simpl in *. split; [done|]. exists (k, u'). split; [done|].
           apply (JsMap_elem_of_set_present _ _ _ row); [done|done|].
           right. split; [|done].
           by rewrite <- (users_keyed_elem _ _ _ Hkeyed Hin).
    + rewrite !list_elem_of_filter, !list_elem_of_fmap. split.
      * intros [Honline ([k u'] & -> & Hin)]. right. simpl in *.
        split_and!; [|done|by exists (k, u')].
        rewrite (users_keyed_elem _ _ _ Hkeyed Hin). intros ->.
        by rewrite (JsMap_elem_get _ _ _ Hwf Hin) in Hrow.
      * intros [[_ (row & [=] & _)]|[_ H]]. exact H.
  - unfold MemStorage.setUserOnlineStatus, MemStorage.getUser. by intros ->.
Qed.

Lemma online_listing_witness :
  JsMap.wf (MemStorage.users (storage sample_start))
  ∧ users_keyed (MemStorage.users (storage sample_start))
  ∧ User.with_presence bob true 7
    ∈ MemStorage.getOnlineUsers
        (MemStorage.setUserOnlineStatus "B" true 7 (storage sample_start)).
Proof.
  assert (JsMap.wf (MemStorage.users (storage sample_start))) as Hwf.
  { unfold JsMap.wf. simpl. apply NoDup_cons. split; [set_solver|].
    apply NoDup_singleton. }
  assert (users_keyed (MemStorage.users (storage sample_start))) as Hkeyed
    by (repeat constructor).
  split_and!; [exact Hwf|exact Hkeyed|].
  apply (online_listing_follows_setUserOnlineStatus "B" true 7 _ Hwf Hkeyed).
  left. split; [done|]. by exists bob.
Defined.

(** ** Notifications, one at a time *)

Lemma count_set_present {V} (f : V → bool) (k : string) (n n' : V)
    (m : list (string * V)) :
  JsMap.get k m = Some n →
  length (List.filter f (JsMap.values (JsMap.set k n' m)))
  + (if f n then 1 else 0)
  = length (List.filter f (JsMap.values m)) + (if f n' then 1 else 0).
Proof.
  unfold JsMap.values. induction m as [|[k0 w] m IH]; simpl; [done|].
  case_decide.
  - intros [= ->]. simpl. destruct (f n), (f n'); simpl; lia.
  - intros Hget. rewrite fmap_cons. simpl. specialize (IH Hget).
    change (list_fmap (string * V)%type V snd m) with (m.*2).
    destruct (f w); simpl; lia.
Qed.

Lemma count_delete {V} (f : V → bool) (k : string) (n : V)
    (m : list (string * V)) :
  JsMap.wf m → JsMap.get k m = Some n →
  length (List.filter f (JsMap.values (JsMap.delete k m)))
  + (if f n then 1 else 0)
  = length (List.filter f (JsMap.values m)).
Proof.
  unfold JsMap.values, JsMap.wf, JsMap.keys.
  induction m as [|[k0 w] m IH]; simpl; [done|].
  intros Hnd. apply NoDup_cons in Hnd as [Hk0 Hnd]. case_decide.
  - subst k0. intros [= ->]. rewrite JsMap_delete_absent.
    + change (list_fmap (string * V)%type V snd m) with (m.*2).
      destruct (f n); simpl; lia.
    + by apply JsMap_get_None.
  - intros Hget. rewrite fmap_cons. simpl. specialize (IH Hnd Hget).
    change (list_fmap (string * V)%type V snd m) with (m.*2).
    destruct (f w); simpl; lia.
Qed.

(** X13. Marking one notification as read, or deleting it, is open to
    every authenticated user, whoever the notification is for: the
    unread count of each user goes down by one exactly when the
    notification stored under the id was an unread one of that user, and
    for an id that is not stored nothing changes. Both routes answer 200
    in every case. *)
Theorem one_notification_is_marked_or_deleted_for_anyone
    (me : User.t) (id U : string) (st : State) :
  JsMap.wf (MemStorage.notifications (storage st)) →
  let found := JsMap.get id (MemStorage.notifications (storage st)) in
  let was_unread :=
    match found with
    | Some n => if MemStorage.unread_of U n then 1 else 0
    | None => 0
    end in
  let marked := exec (postMarkRead (Some me) id) st in
  let deleted := exec (deleteNotificationRoute (Some me) id) st in
  MemStorage.getUnreadNotificationCount U (storage marked) + was_unread
  = MemStorage.getUnreadNotificationCount U (storage st)
  ∧ JsMap.get id (MemStorage.notifications (storage marked))
    = Notification.read <$> found
  ∧ answer (postMarkRead (Some me) id) st = [SendStatus 200]
  ∧ MemStorage.getUnreadNotificationCount U (storage deleted) + was_unread
    = MemStorage.getUnreadNotificationCount U (storage st)
  ∧ JsMap.get id (MemStorage.notifications (storage deleted)) = None
  ∧ answer (deleteNotificationRoute (Some me) id) st = [SendStatus 200]
  ∧ (found = None → storage marked = storage st ∧ storage deleted = storage st).
Proof.
  intros Hwf. cbv zeta. unfold answer, exec. simpl.
  unfold MemStorage.getUnreadNotificationCount, MemStorage.markNotificationAsRead.
  destruct (JsMap.get id (MemStorage.notifications (storage st))) as [n|] eqn:Hn;
    simpl.
  - split_and!.
    + rewrite (count_set_present _ _ _ _ _ Hn).
      assert (MemStorage.unread_of U (Notification.read n) = false) as ->
        by (unfold MemStorage.unread_of; simpl; apply andb_false_r).
      lia.
    + apply JsMap_get_set_eq.
    + by apply new_effects_app.
    + by apply count_delete.
    + apply JsMap_get_delete_eq.
    + by apply new_effects_app.
    + done.
  - rewrite (JsMap_delete_absent _ _ Hn).
    split_and!; try done; try lia; try (by apply new_effects_app).
    intros _. split; [done|].
    unfold MemStorage.deleteNotification, MemStorage.set_notifications.
    rewrite (JsMap_delete_absent _ _ Hn). by destruct (storage st).
Qed.

Lemma one_notification_witness_for_anyone :
  JsMap.wf (MemStorage.notifications sample_notifications)
  ∧ MemStorage.getUnreadNotificationCount "B" sample_notifications = 1
  ∧ MemStorage.getUnreadNotificationCount "B"
      (storage (exec (postMarkRead (Some alice) "n1")
                  (set_storage (λ _, sample_notifications) sample_start))) = 0.
Proof.
  assert (JsMap.wf (MemStorage.notifications
            (storage (set_storage (λ _, sample_notifications) sample_start))))
    as Hwf.
  { unfold JsMap.wf. simpl. apply NoDup_cons. split; [set_solver|].
    apply NoDup_singleton. }
  split_and!; [exact Hwf|reflexivity|].
  destruct (one_notification_is_marked_or_deleted_for_anyone alice "n1" "B"
              _ Hwf) as (Hcount & _).
  apply (Nat.add_cancel_r _ _ 1). exact Hcount.
Defined.

(** ** The two implementations of the storage interface *)

(** X14. The two implementations count unread notifications alike only
    as long as no [isRead] is NULL: on the same rows, the count of
    [MemStorage] is the count of [PgStorage] plus the number of the
    user's rows whose [isRead] is NULL. *)
Theorem unread_counts_differ_by_the_null_rows (U : string) (s : MemStorage.t) :
  let rows := JsMap.values (MemStorage.notifications s) in
  MemStorage.getUnreadNotificationCount U s
  = PgStorage.getUnreadNotificationCount U rows
    + length (List.filter (unread_unknown U) rows)
  ∧ (Forall (λ row, is_Some (Notification.isRead row)) rows →
     MemStorage.getUnreadNotificationCount U s
     = PgStorage.getUnreadNotificationCount U rows).
Proof.
  cbv zeta. unfold MemStorage.getUnreadNotificationCount,
    PgStorage.getUnreadNotificationCount.
  generalize (JsMap.values (MemStorage.notifications s)). intros rows.
  assert (length (List.filter (MemStorage.unread_of U) rows)
          = length (List.filter (PgStorage.where_unread U) rows)
            + length (List.filter (unread_unknown U) rows)) as Hcount.
  { induction rows as [|row rows IH]; simpl; [done|].
    unfold MemStorage.unread_of, PgStorage.where_unread, unread_unknown in *.
    destruct (String.eqb (Notification.userId row) U); simpl; [|exact IH].
    destruct (Notification.isRead row) as [[]|]; simpl; lia. }
  split; [exact Hcount|].
  intros Hsome. rewrite Hcount, (List_filter_none (unread_unknown U)); [simpl; lia|].
  eapply Forall_impl; [exact Hsome|]. intros row [b Hb].
  unfold unread_unknown. rewrite Hb. apply andb_false_r.
Qed.

(** ** The history route *)

Lemma getConversationMessages_found me userId c st :
  MemStorage.getConversation (User.id me) userId (storage st) = Some c →
  exec (getConversationMessages (Some me) userId) st
  = set_trace
      (λ t, t ++ [SendJson 200
                    (JArr (map (λ m, JObj (Message.to_json m))
                               (MemStorage.getMessages (Conversation.id c)
                                  (storage st))))]) st.
Proof.
  intros Hc. unfold exec, getConversationMessages.
  rewrite run_bind. simpl. rewrite Hc. by rewrite !run_bind.
Qed.

(** X15. Both participants of a conversation read the same history:
    when the pair has a conversation, [GET /api/conversations/:userId/messages]
    asked by either of the two about the other answers 200 with the
    messages of that one conversation in time order, and changes
    nothing. *)
Theorem history_is_one_for_both_participants
    (me peer : User.t) (c : Conversation.t) (st : State) :
  MemStorage.getConversation (User.id me) (User.id peer) (storage st) = Some c →
  let body :=
    JArr (map (λ m, JObj (Message.to_json m))
              (MemStorage.getMessages (Conversation.id c) (storage st))) in
  answer (getConversationMessages (Some me) (User.id peer)) st
  = [SendJson 200 body]
  ∧ answer (getConversationMessages (Some peer) (User.id me)) st
    = [SendJson 200 body]
  ∧ same_but_trace st (exec (getConversationMessages (Some me) (User.id peer)) st)
  ∧ same_but_trace st (exec (getConversationMessages (Some peer) (User.id me)) st).
Proof.
  intros Hc. cbv zeta.
  assert (MemStorage.getConversation (User.id peer) (User.id me) (storage st)
          = Some c) as Hc'.
  { unfold MemStorage.getConversation in *. rewrite <- Hc.
    apply find_ext_eq. intros conv. apply same_pair_sym. }
  unfold answer.
  rewrite (getConversationMessages_found me _ c),
    (getConversationMessages_found peer _ c) by done.
  split_and!; try (by apply new_effects_app); reflexivity.
Qed.

Lemma history_witness :
  MemStorage.getConversation (User.id alice) (User.id bob)
    (storage (step sample_online
                (WsMessage 1 (sendMessage "B" (Some "hello") None))))
  = Some (Conversation.mk "uuid-0" "A" "B" (Some 0) (Some 0))
  ∧ answer (getConversationMessages (Some bob) (User.id alice))
      (step sample_online (WsMessage 1 (sendMessage "B" (Some "hello") None)))
    = [SendJson 200
         (JArr [JObj (Message.to_json
                        (Message.mk "uuid-1" "uuid-0" "A" (Some "hello") None
                           (Some 0)))])].
Proof.
  assert (MemStorage.getConversation (User.id alice) (User.id bob)
            (storage (step sample_online
                        (WsMessage 1 (sendMessage "B" (Some "hello") None))))
          = Some (Conversation.mk "uuid-0" "A" "B" (Some 0) (Some 0))) as Hc
    by (vm_compute; reflexivity).
  split; [exact Hc|].
  destruct (history_is_one_for_both_participants alice bob _ _ Hc)
    as (_ & Hbob & _).
  rewrite Hbob. vm_compute. reflexivity.
Defined.

(** X16. Asking for the history with somebody with whom the requester
    has no conversation creates that conversation: the route files a new
    conversation between the requester and the id in the path, last in
    the map, without looking whether that id is a user or is the
    requester's own, and answers 200 with the messages filed under the
    new id. The stored conversations stay one per pair, and users,
    messages and notifications are not written. *)
Theorem asking_for_a_history_creates_the_conversation
    (me : User.t) (userId : string) (st : State) :
  invariant st →
  MemStorage.getConversation (User.id me) userId (storage st) = None →
  let st' := exec (getConversationMessages (Some me) userId) st in
  let id := uuid_of (uuidSeed st) in
  let conversation :=
    Conversation.mk id (User.id me) userId (Some (clock st)) (Some (clock st)) in
  MemStorage.conversations (storage st')
  = MemStorage.conversations (storage st) ++ [(id, conversation)]
  ∧ MemStorage.getConversation userId (User.id me) (storage st')
    = Some conversation
  ∧ answer (getConversationMessages (Some me) userId) st
    = [Stored (CreatedConversation id);
       SendJson 200 (JArr (map (λ m, JObj (Message.to_json m))
                               (MemStorage.getMessages id (storage st))))]
  ∧ (one_conversation_per_pair (MemStorage.conversations (storage st)) →
     one_conversation_per_pair (MemStorage.conversations (storage st')))
  ∧ MemStorage.users (storage st') = MemStorage.users (storage st)
  ∧ MemStorage.messages (storage st') = MemStorage.messages (storage st)
  ∧ MemStorage.notifications (storage st')
    = MemStorage.notifications (storage st).
Proof.
  intros Hinv Hnone. cbv zeta.
  assert (JsMap.get (uuid_of (uuidSeed st))
            (MemStorage.conversations (storage st)) = None) as Hfresh
    by (apply (minted_fresh (uuidSeed st)); [apply Hinv|done]).
  unfold answer, exec, getConversationMessages.
  rewrite run_bind. simpl. rewrite Hnone. rewrite !run_bind. simpl.
  rewrite (JsMap_set_absent _ _ _ Hfresh).
  split_and!; try done.
  - unfold MemStorage.getConversation, JsMap.values. simpl.
    change (list_fmap (string * Conversation.t)%type Conversation.t snd ?l)
      with (l.*2).
    rewrite (JsMap_set_absent _ _ _ Hfresh), fmap_app. simpl.
    apply find_snoc_new.
    + unfold MemStorage.getConversation in Hnone. rewrite <- Hnone.
      apply find_ext_eq. intros conv. apply same_pair_sym.
    + rewrite same_pair_sym. apply same_pair_new.
  - apply new_effects_app. simpl. by rewrite <- app_assoc.
  - intros Hone. by apply one_conversation_per_pair_snoc.
Qed.

Lemma asking_for_a_history_witness :
  invariant sample_online
  ∧ MemStorage.getConversation (User.id alice) "nobody" (storage sample_online)
    = None
  ∧ MemStorage.getConversation "nobody" (User.id alice)
      (storage (exec (getConversationMessages (Some alice) "nobody")
                  sample_online))
    = Some (Conversation.mk "uuid-0" "A" "nobody" (Some 0) (Some 0)).
Proof.
  assert (invariant sample_online) as Hinv
    by exact (reachable_invariant _ sample_online_reachable).
  assert (MemStorage.getConversation (User.id alice) "nobody"
            (storage sample_online) = None) as Hnone
    by (vm_compute; reflexivity).
  split_and!; [exact Hinv|exact Hnone|].
  destruct (asking_for_a_history_creates_the_conversation alice "nobody"
              sample_online Hinv Hnone) as (_ & Hfound & _).
  exact Hfound.
Defined.

(** ** The requester's own row: profile, filters and gallery *)

Lemma storage_updateUser_found id updates user st :
  MemStorage.getUser id (storage st) = Some user →
  storage_updateUser id updates st
  = (Some (PartialUser.spread user updates),
     set_storage
       (λ _, MemStorage.set_users
               (JsMap.set id (PartialUser.spread user updates)) (storage st))
       st).
Proof.
  unfold MemStorage.getUser, storage_updateUser, MemStorage.updateUser.
  by intros ->.
Qed.

Lemma storage_updateUser_missing id updates st :
  MemStorage.getUser id (storage st) = None →
  storage_updateUser id updates st = (None, st).
Proof.
  unfold MemStorage.getUser, storage_updateUser, MemStorage.updateUser.
  intros ->. simpl. by destruct st.
Qed.

Lemma users_keyed_set id row user m :
  JsMap.get id m = Some row → User.id row = id → User.id user = User.id row →
  users_keyed m → users_keyed (JsMap.set id user m).
Proof.
  unfold users_keyed. intros Hget Hid Huser.
  induction m as [|[k w] m IH]; simpl in *; [done|].
  intros Hm. apply Forall_cons in Hm as [Hkw Hm]. case_decide.
  - constructor; [simpl; congruence|done].
  - constructor; [done|]. by apply IH.
Qed.

(** X17. [PATCH /api/profile] merges the body into the requester's row
    and files it under the same key: whatever the body says, the row
    keeps its id and its password, so rows filed under their ids stay
    so; every other column that the body has is taken from the body as
    it is (the e-mail address, the presence flag, the gallery, without
    the checks that registration and the upload route make); the rows of
    other users are not touched; the answer is the public profile of the
    merged row. *)
Theorem profile_patch_keeps_id_and_password
    (me row : User.t) (body : PartialUser.t) (st : State) :
  MemStorage.getUser (User.id me) (storage st) = Some row →
  let st' := exec (patchProfile (Some me) body) st in
  ∃ row',
    MemStorage.getUser (User.id me) (storage st') = Some row'
    ∧ User.id row' = User.id row
    ∧ User.password row' = User.password row
    ∧ User.email row' = default (User.email row) (PartialUser.email body)
    ∧ User.username row' = default (User.username row) (PartialUser.username body)
    ∧ User.isOnline row' = default (User.isOnline row) (PartialUser.isOnline body)
    ∧ User.photos row' = default (User.photos row) (PartialUser.photos body)
    ∧ (∀ k, k ≠ User.id me →
            MemStorage.getUser k (storage st') = MemStorage.getUser k (storage st))
    ∧ JsMap.keys (MemStorage.users (storage st'))
      = JsMap.keys (MemStorage.users (storage st))
    ∧ (User.id row = User.id me →
       users_keyed (MemStorage.users (storage st)) →
       users_keyed (MemStorage.users (storage st')))
    ∧ answer (patchProfile (Some me) body) st
      = [SendJson 200 (JObj (toPublicUser row'))].
Proof.
  intros Hrow. cbv zeta. unfold answer, exec, patchProfile.
  rewrite run_bind, (storage_updateUser_found _ _ row) by done. simpl.
  exists (PartialUser.spread row
            (PartialUser.delete_password (PartialUser.delete_id body))).
  split_and!; try reflexivity.
  - unfold MemStorage.getUser. simpl. apply JsMap_get_set_eq.
  - intros k Hk. unfold MemStorage.getUser. simpl.
    by apply JsMap_get_set_ne.
  - apply JsMap_keys_set_present. unfold JsMap.has.
    unfold MemStorage.getUser in Hrow. by rewrite Hrow.
  - intros Hid Hkeyed. by apply (users_keyed_set _ row).
  - by apply new_effects_app.
Qed.

Lemma profile_patch_witness :
  MemStorage.getUser (User.id alice) (storage sample_start) = Some alice
  ∧ ∃ row',
      MemStorage.getUser "A"
        (storage (exec (patchProfile (Some alice)
                          (PartialUser.mk (Some "B") None (Some "guess") None
                             None None None None None None None None None None
                             None None None None None))
                    sample_start)) = Some row'
      ∧ User.id row' = "A" ∧ User.password row' = "secret".
Proof.
  assert (MemStorage.getUser (User.id alice) (storage sample_start) = Some alice)
    as Hrow by reflexivity.
  split; [exact Hrow|].
  destruct (profile_patch_keeps_id_and_password alice alice
              (PartialUser.mk (Some "B") None (Some "guess") None
                 None None None None None None None None None None
                 None None None None None) sample_start Hrow)
    as (row' & Hget & Hid & Hpw & _).
  exists row'. split_and!; [exact Hget|exact Hid|exact Hpw].
Defined.

Lemma or_str_or_null o d : or_str (or_null o) d = or_str o d.
Proof.
  unfold or_str, or_null. destruct (truthy_str o) eqn:Ho; [by rewrite Ho|done].
Qed.

Lemma or_num_or_null_num o d : or_num (or_null_num o) d = or_num o d.
Proof.
  unfold or_num, or_null_num. destruct o as [n|]; [|done].
  destruct (Z.eqb_spec n 0) as [->|Hn]; [done|].
  by destruct (Z.eqb_spec n 0).
Qed.

Lemma getFilters_found me row st :
  MemStorage.getUser (User.id me) (storage st) = Some row →
  exec (getFilters (Some me)) st
  = set_trace (λ t, t ++ [SendJson 200 (savedFilters row)]) st.
Proof.
  intros Hrow. unfold exec, getFilters. rewrite run_bind.
  change ((storage_getUser (User.id me) st).1)
    with (MemStorage.getUser (User.id me) (storage st)).
  by rewrite Hrow.
Qed.

(** X18. Saved filter preferences read back as they were answered: after
    [PATCH /api/user/filters] the route's own answer and the answer of a
    following [GET /api/user/filters] are the body with the defaults
    filled in (an empty or missing string reads as the empty string, a
    missing or zero age as 20 and 40), with no check on the ages; after
    [DELETE /api/user/filters] the defaults are read back. The routes
    leave the public profile and the password of the row as they were. *)
Theorem saved_filters_read_back
    (me row : User.t) (gender location : option string)
    (ageMin ageMax : option Z) (st : State) :
  MemStorage.getUser (User.id me) (storage st) = Some row →
  let patched := exec (patchFilters (Some me) gender location ageMin ageMax) st in
  let shown :=
    filtersJson (or_str gender "") (or_str location "")
                (or_num ageMin 20) (or_num ageMax 40) in
  answer (patchFilters (Some me) gender location ageMin ageMax) st
  = [SendJson 200 shown]
  ∧ answer (getFilters (Some me)) patched = [SendJson 200 shown]
  ∧ answer (deleteFilters (Some me)) patched
    = [SendJson 200 (filtersJson "" "" 20 40)]
  ∧ answer (getFilters (Some me)) (exec (deleteFilters (Some me)) patched)
    = [SendJson 200 (filtersJson "" "" 20 40)]
  ∧ ∃ row', MemStorage.getUser (User.id me) (storage patched) = Some row'
            ∧ toPublicUser row' = toPublicUser row
            ∧ User.password row' = User.password row.
Proof.
  intros Hrow. cbv zeta.
  assert (exec (patchFilters (Some me) gender location ageMin ageMax) st
          = set_trace
              (λ t, t ++ [SendJson 200
                            (filtersJson (or_str gender "") (or_str location "")
                               (or_num ageMin 20) (or_num ageMax 40))])
              (set_storage
                 (λ _, MemStorage.set_users
                         (JsMap.set (User.id me)
                            (PartialUser.spread row
                               (PartialUser.of_filters (or_null gender)
                                  (or_null location) (or_null_num ageMin)
                                  (or_null_num ageMax)))) (storage st)) st))
    as Hpatched.
  { unfold exec, patchFilters.
    rewrite run_bind, (storage_updateUser_found _ _ row) by done. simpl.
    unfold savedFilters. simpl.
    by rewrite !or_str_or_null, !or_num_or_null_num. }
  rewrite Hpatched.
  set (row1 := PartialUser.spread row _).
  set (st1 := set_trace _ _).
  assert (MemStorage.getUser (User.id me) (storage st1) = Some row1) as Hrow1
    by (unfold MemStorage.getUser; simpl; apply JsMap_get_set_eq).
  assert (exec (deleteFilters (Some me)) st1
          = set_trace (λ t, t ++ [SendJson 200 (filtersJson "" "" 20 40)])
              (set_storage
                 (λ _, MemStorage.set_users
                         (JsMap.set (User.id me)
                            (PartialUser.spread row1
                               (PartialUser.of_filters None None None None)))
                         (storage st1)) st1)) as Hdeleted.
  { unfold exec, deleteFilters.
    by rewrite run_bind, (storage_updateUser_found _ _ row1) by done. }
  split_and!.
  - unfold answer. rewrite Hpatched. by apply new_effects_app.
  - unfold answer. rewrite (getFilters_found me row1) by done.
    apply new_effects_app. simpl. unfold savedFilters, row1. simpl.
    by rewrite !or_str_or_null, !or_num_or_null_num.
  - unfold answer. rewrite Hdeleted. by apply new_effects_app.
  - unfold answer. rewrite Hdeleted.
    erewrite getFilters_found
      by (unfold MemStorage.getUser; simpl; apply JsMap_get_set_eq).
    by apply new_effects_app.
  - exists row1. by split_and!.
Qed.

Lemma saved_filters_witness :
  MemStorage.getUser (User.id alice) (storage sample_start) = Some alice
  ∧ answer (getFilters (Some alice))
      (exec (patchFilters (Some alice) (Some "female") (Some "") (Some 0%Z)
               (Some 17%Z)) sample_start)
    = [SendJson 200 (filtersJson "female" "" 20 17)].
Proof.
  assert (MemStorage.getUser (User.id alice) (storage sample_start) = Some alice)
    as Hrow by reflexivity.
  split; [exact Hrow|].
  destruct (saved_filters_read_back alice alice (Some "female") (Some "")
              (Some 0%Z) (Some 17%Z) sample_start Hrow) as (_ & Hget & _).
  exact Hget.
Defined.

Lemma filter_length_all {B} (f : B → bool) (l : list B) :
  length (List.filter f l) = length l ↔ Forall (λ x, f x = true) l.
Proof.
  induction l as [|x l IH]; simpl; [by split; [constructor|]|].
  pose proof (List.filter_length_le f l) as Hle.
  destruct (f x) eqn:Hx; simpl.
  - rewrite Forall_cons. split.
    + intros [= Hlen]. split; [done|]. by apply IH.
    + intros [_ Hall]. f_equal. by apply IH.
  - split; [lia|]. intros Hall. apply Forall_cons in Hall as [Hfalse _].
    congruence.
Qed.

Lemma strict_ne_true photo photoUrl :
  strict_ne photo photoUrl = true ↔ photo ≠ JStr photoUrl.
Proof.
  destruct photo as [|b|n|s|t|items|fields]; simpl; try (split; done).
  destruct (String.eqb_spec s photoUrl) as [->|Hne]; simpl.
  - split; [done|]. by intros [].
  - split; [|done]. intros _ [= ?]. done.
Qed.

(** X19. The upload route keeps the gallery at five photos at most. With
    at least one file (and at most five, which is what the upload
    middleware lets through), if the photos of the row and the new ones
    are more than five together the request is refused with 400 and
    nothing is written; otherwise the new photos are appended, in order,
    to the gallery and the answer is 200. In both cases a gallery of at
    most five photos is one afterwards. *)
Theorem upload_keeps_the_gallery_at_five
    (me row : User.t) (files : list string) (st : State) :
  MemStorage.getUser (User.id me) (storage st) = Some row →
  files ≠ [] →
  length files ≤ 5 →
  let st' := exec (uploadPhotos (Some me) files) st in
  let newPhotoUrls := map (λ file, JStr ("/uploads/" +:+ file)) files in
  (5 < length (existingPhotos row) + length files →
   same_but_trace st st'
   ∧ ∃ body, answer (uploadPhotos (Some me) files) st = [SendJson 400 body])
  ∧ (length (existingPhotos row) + length files ≤ 5 →
     ∃ row',
       MemStorage.getUser (User.id me) (storage st') = Some row'
       ∧ User.photos row' = JArr (existingPhotos row ++ newPhotoUrls)
       ∧ toPublicUser row'
         = obj_set "photos" (JArr (existingPhotos row ++ newPhotoUrls))
                   (toPublicUser row)
       ∧ answer (uploadPhotos (Some me) files) st
         = [SendJson 200
              (uploadPhotosBody (existingPhotos row ++ newPhotoUrls)
                 newPhotoUrls (Some row'))])
  ∧ (length (existingPhotos row) ≤ 5 →
     ∃ row', MemStorage.getUser (User.id me) (storage st') = Some row'
             ∧ length (existingPhotos row') ≤ 5).
Proof.
  intros Hrow Hfiles _. cbv zeta.
  assert (length files ≠ 0) as Hlen by (by destruct files).
  assert (length (existingPhotos row
                  ++ map (λ file, JStr ("/uploads/" +:+ file)) files)
          = length (existingPhotos row) + length files) as Hsum
    by (by rewrite length_app, length_map).
  unfold answer, exec, uploadPhotos.
  rewrite bool_decide_eq_false_2 by done.
  rewrite run_bind.
  change ((storage_getUser (User.id me) st).1)
    with (MemStorage.getUser (User.id me) (storage st)).
  change ((storage_getUser (User.id me) st).2) with st.
  rewrite Hrow. cbv zeta.
  split_and!.
  - intros Hmany. rewrite bool_decide_eq_true_2 by (rewrite Hsum; lia).
    split; [reflexivity|]. eexists. by apply new_effects_app.
  - intros Hfew. rewrite bool_decide_eq_false_2 by (rewrite Hsum; lia).
    rewrite run_bind, (storage_updateUser_found _ _ row) by done. simpl.
    eexists. split_and!.
    + unfold MemStorage.getUser. simpl. apply JsMap_get_set_eq.
    + reflexivity.
    + reflexivity.
    + by apply new_effects_app.
  - intros Hbound. case_bool_decide as Hmany.
    + exists row. split; [exact Hrow|done].
    + rewrite run_bind, (storage_updateUser_found _ _ row) by done. simpl.
      eexists. split.
      * unfold MemStorage.getUser. simpl. apply JsMap_get_set_eq.
      * unfold existingPhotos at 1. simpl. lia.
Qed.

Lemma upload_witness :
  MemStorage.getUser (User.id alice) (storage sample_start) = Some alice
  ∧ ["a.png"; "b.png"] ≠ []
  ∧ ∃ row',
      MemStorage.getUser "A"
        (storage (exec (uploadPhotos (Some alice) ["a.png"; "b.png"])
                    sample_start)) = Some row'
      ∧ User.photos row' = JArr [JStr "/uploads/a.png"; JStr "/uploads/b.png"].
Proof.
  assert (MemStorage.getUser (User.id alice) (storage sample_start) = Some alice)
    as Hrow by reflexivity.
  assert (["a.png"; "b.png"] ≠ []) as Hfiles by discriminate.
  assert (length ["a.png"; "b.png"] ≤ 5) as Hfive by (simpl; lia).
  split_and!; [exact Hrow|exact Hfiles|].
  destruct (upload_keeps_the_gallery_at_five alice alice ["a.png"; "b.png"]
              sample_start Hrow Hfiles Hfive) as (_ & Hfew & _).
  destruct Hfew as (row' & Hget & Hphotos & _); [simpl; lia|].
  exists row'. split; [exact Hget|exact Hphotos].
Defined.

(** X20. Deleting a photo removes every occurrence of that URL from the
    gallery and keeps the other photos in their order; the answer is 200
    with the new gallery. When the URL is not in the gallery the answer
    is 404 and nothing is written. *)
Theorem deleted_photo_is_gone
    (me row : User.t) (photoUrl : string) (st : State) :
  MemStorage.getUser (User.id me) (storage st) = Some row →
  photoUrl ≠ "" →
  let st' := exec (deletePhoto (Some me) (Some photoUrl)) st in
  let updatedPhotos :=
    List.filter (λ photo, strict_ne photo photoUrl) (existingPhotos row) in
  (JStr photoUrl ∈ existingPhotos row →
   ∃ row',
     MemStorage.getUser (User.id me) (storage st') = Some row'
     ∧ existingPhotos row' = updatedPhotos
     ∧ (JStr photoUrl ∉ existingPhotos row')
     ∧ (∀ photo, photo ≠ JStr photoUrl →
                 (photo ∈ existingPhotos row' ↔ photo ∈ existingPhotos row))
     ∧ length (existingPhotos row') < length (existingPhotos row)
     ∧ answer (deletePhoto (Some me) (Some photoUrl)) st
       = [SendJson 200 (deletePhotoBody updatedPhotos (Some row'))])
  ∧ (JStr photoUrl ∉ existingPhotos row →
     st' = set_trace
             (λ t, t ++ [SendJson 404 (message_body "Photo not found in gallery")])
             st).
Proof.
  intros Hrow Hurl. cbv zeta.
  unfold answer, exec, deletePhoto.
  rewrite (truthy_str_Some _ Hurl). change (negb true) with false. cbv iota.
  rewrite run_bind.
  change ((storage_getUser (User.id me) st).1)
    with (MemStorage.getUser (User.id me) (storage st)).
  change ((storage_getUser (User.id me) st).2) with st.
  rewrite Hrow. cbv zeta. change (default "" (Some photoUrl)) with photoUrl.
  set (updated := List.filter (λ photo, strict_ne photo photoUrl)
                    (existingPhotos row)).
  assert (∀ photo, photo ∈ updated
                   ↔ photo ∈ existingPhotos row ∧ photo ≠ JStr photoUrl)
    as Hupdated.
  { intros photo. unfold updated.
    rewrite !list_elem_of_In, filter_In, strict_ne_true. done. }
  split.
  - intros Hin.
    assert (length updated < length (existingPhotos row)) as Hless.
    { pose proof (List.filter_length_le (λ photo, strict_ne photo photoUrl)
                    (existingPhotos row)) as Hle.
      destruct (decide (length updated = length (existingPhotos row)))
        as [Heq|]; [|unfold updated in *; lia].
      apply filter_length_all in Heq. rewrite Forall_forall in Heq.
      specialize (Heq _ Hin). apply strict_ne_true in Heq. done. }
    rewrite bool_decide_eq_false_2 by lia.
    rewrite run_bind, (storage_updateUser_found _ _ row) by done. simpl.
    eexists. split_and!.
    + unfold MemStorage.getUser. simpl. apply JsMap_get_set_eq.
    + reflexivity.
    + unfold existingPhotos at 1. simpl. rewrite Hupdated. by intros [_ ?].
    + intros photo Hne. unfold existingPhotos at 1. simpl.
      rewrite Hupdated. tauto.
    + unfold existingPhotos at 1. simpl. exact Hless.
    + by apply new_effects_app.
  - intros Hnotin.
    rewrite bool_decide_eq_true_2; [done|].
    symmetry. apply filter_length_all, Forall_forall.
    intros photo Hin. apply strict_ne_true. by intros ->.
Qed.

Lemma deleted_photo_witness :
  MemStorage.getUser (User.id alice)
    (storage (exec (uploadPhotos (Some alice) ["a.png"; "b.png"; "a.png"])
                sample_start))
  = Some (PartialUser.spread alice
            (PartialUser.of_photos
               (JArr [JStr "/uploads/a.png"; JStr "/uploads/b.png";
                      JStr "/uploads/a.png"])))
  ∧ "/uploads/a.png" ≠ ""
  ∧ ∃ row',
      MemStorage.getUser "A"
        (storage (exec (deletePhoto (Some alice) (Some "/uploads/a.png"))
                    (exec (uploadPhotos (Some alice) ["a.png"; "b.png"; "a.png"])
                       sample_start))) = Some row'
      ∧ existingPhotos row' = [JStr "/uploads/b.png"].
Proof.
  assert (MemStorage.getUser (User.id alice)
            (storage (exec (uploadPhotos (Some alice) ["a.png"; "b.png"; "a.png"])
                        sample_start))
          = Some (PartialUser.spread alice
                    (PartialUser.of_photos
                       (JArr [JStr "/uploads/a.png"; JStr "/uploads/b.png";
                              JStr "/uploads/a.png"])))) as Hrow
    by reflexivity.
  assert ("/uploads/a.png" ≠ "") as Hurl by discriminate.
  split_and!; [exact Hrow|exact Hurl|].
  destruct (deleted_photo_is_gone alice _ "/uploads/a.png" _ Hrow Hurl)
    as (Hfound & _).
  destruct Hfound as (row' & Hget & Hphotos & _); [simpl; set_solver|].
  exists row'. split; [exact Hget|]. rewrite Hphotos. reflexivity.
Defined.

(** X21. When the requester's row is not in the storage, the routes that
    work on it answer 404 and write nothing, except the upload of a
    profile picture, which answers 200 with the URL of the picture and
    [null] for the user, and writes nothing either. *)
Theorem requests_without_a_row_write_nothing
    (me : User.t) (body : PartialUser.t) (gender location : option string)
    (ageMin ageMax : option Z) (files : list string) (photoUrl filename : string)
    (st : State) :
  MemStorage.getUser (User.id me) (storage st) = None →
  let not_found :=
    set_trace (λ t, t ++ [SendJson 404 (message_body "User not found")]) st in
  exec (patchProfile (Some me) body) st = not_found
  ∧ exec (getFilters (Some me)) st = not_found
  ∧ exec (patchFilters (Some me) gender location ageMin ageMax) st = not_found
  ∧ exec (deleteFilters (Some me)) st = not_found
  ∧ (files ≠ [] → length files ≤ 5 →
     exec (uploadPhotos (Some me) files) st = not_found)
  ∧ (photoUrl ≠ "" → exec (deletePhoto (Some me) (Some photoUrl)) st = not_found)
  ∧ exec (uploadProfile (Some me) (Some filename)) st
    = set_trace
        (λ t, t ++ [SendJson 200
                      (JObj [("profilePhoto", JStr ("/uploads/" +:+ filename));
                             ("user", JNull)])]) st.
Proof.
  intros Hnone. cbv zeta. unfold exec.
  split_and!.
  - unfold patchProfile. by rewrite run_bind, storage_updateUser_missing.
  - unfold getFilters. rewrite run_bind.
    change ((storage_getUser (User.id me) st).1)
      with (MemStorage.getUser (User.id me) (storage st)).
    by rewrite Hnone.
  - unfold patchFilters. by rewrite run_bind, storage_updateUser_missing.
  - unfold deleteFilters. by rewrite run_bind, storage_updateUser_missing.
  - intros Hfiles _. unfold uploadPhotos.
    rewrite bool_decide_eq_false_2 by (by destruct files).
    rewrite run_bind.
    change ((storage_getUser (User.id me) st).1)
      with (MemStorage.getUser (User.id me) (storage st)).
    by rewrite Hnone.
  - intros Hurl. unfold deletePhoto.
    rewrite (truthy_str_Some _ Hurl). change (negb true) with false. cbv iota.
    rewrite run_bind.
    change ((storage_getUser (User.id me) st).1)
      with (MemStorage.getUser (User.id me) (storage st)).
    by rewrite Hnone.
  - unfold uploadProfile. by rewrite run_bind, storage_updateUser_missing.
Qed.

Lemma requests_without_a_row_witness :
  MemStorage.getUser (User.id (sample_user "C" "carol")) (storage sample_start)
  = None
  ∧ exec (uploadProfile (Some (sample_user "C" "carol")) (Some "c.png"))
      sample_start
    = set_trace
        (λ t, t ++ [SendJson 200
                      (JObj [("profilePhoto", JStr "/uploads/c.png");
                             ("user", JNull)])]) sample_start.
Proof.
  assert (MemStorage.getUser (User.id (sample_user "C" "carol"))
            (storage sample_start) = None) as Hnone by reflexivity.
  split; [exact Hnone|].
  destruct (requests_without_a_row_write_nothing (sample_user "C" "carol")
              PartialUser.empty None None None None [] "" "c.png"
              sample_start Hnone) as (_ & _ & _ & _ & _ & _ & Hupload).
  exact Hupload.
Defined.

(** ** The conversation list *)

Lemma mapM_joinedConversation_None l :
  Exists (λ e, ec_otherUser e = None) l → mapM joinedConversation l = None.
Proof.
  intros Hex. apply eq_None_not_Some. rewrite mapM_is_Some.
  rewrite Forall_forall. intros Hall.
  apply Exists_exists in Hex as (e & Hin & Hnone).
  destruct (Hall e Hin) as [j Hj]. unfold joinedConversation in Hj.
  by rewrite Hnone in Hj.
Qed.

Lemma getUserConversations_elem U s conv :
  conv ∈ JsMap.values (MemStorage.conversations s) →
  involves U conv = true →
  {| ec_conversation := conv;
     ec_otherUser := MemStorage.getUser (otherUserId U conv) s;
     ec_lastMessage := last (MemStorage.getMessages (Conversation.id conv) s) |}
  ∈ MemStorage.getUserConversations U s.
Proof.
  intros Hin Hinv. unfold MemStorage.getUserConversations.
  rewrite Array_sort_Permutation.
  apply list_elem_of_In, in_map_iff. exists conv. split; [done|].
  apply filter_In. split; [by apply list_elem_of_In|exact Hinv].
Qed.

Lemma getConversations_missing_participant me conv st :
  conv ∈ JsMap.values (MemStorage.conversations (storage st)) →
  involves (User.id me) conv = true →
  MemStorage.getUser (otherUserId (User.id me) conv) (storage st) = None →
  exec (getConversations (Some me)) st
  = set_trace
      (λ t, t ++ [SendJson 500 (message_body "Failed to fetch conversations")])
      st.
Proof.
  intros Hin Hinv Hnone. unfold exec, getConversations.
  rewrite run_bind. simpl.
  rewrite mapM_joinedConversation_None; [done|].
  apply Exists_exists. eexists. split.
  - by apply getUserConversations_elem.
  - exact Hnone.
Qed.

(** X22. [GET /api/conversations] answers 500 as soon as the requester
    takes part in a conversation whose other participant has no row, for
    then the public profile of that participant cannot be built; nothing
    is written. *)
Theorem conversation_list_fails_on_a_missing_participant
    (me : User.t) (conv : Conversation.t) (st : State) :
  conv ∈ JsMap.values (MemStorage.conversations (storage st)) →
  involves (User.id me) conv = true →
  MemStorage.getUser (otherUserId (User.id me) conv) (storage st) = None →
  answer (getConversations (Some me)) st
  = [SendJson 500 (message_body "Failed to fetch conversations")]
  ∧ same_but_trace st (exec (getConversations (Some me)) st).
Proof.
  intros Hin Hinv Hnone. unfold answer.
  rewrite (getConversations_missing_participant me conv) by done.
  split; [by apply new_effects_app|reflexivity].
Qed.

Lemma conversation_list_witness :
  Conversation.mk "c1" "A" "Z" None None
  ∈ JsMap.values
      (MemStorage.conversations
         (storage (set_storage
                     (MemStorage.set_conversations
                        (λ _, [("c1", Conversation.mk "c1" "A" "Z" None None)]))
                     sample_start)))
  ∧ involves (User.id alice) (Conversation.mk "c1" "A" "Z" None None) = true
  ∧ MemStorage.getUser
      (otherUserId (User.id alice) (Conversation.mk "c1" "A" "Z" None None))
      (storage (set_storage
                  (MemStorage.set_conversations
                     (λ _, [("c1", Conversation.mk "c1" "A" "Z" None None)]))
                  sample_start)) = None
  ∧ answer (getConversations (Some alice))
      (set_storage
         (MemStorage.set_conversations
            (λ _, [("c1", Conversation.mk "c1" "A" "Z" None None)]))
         sample_start)
    = [SendJson 500 (message_body "Failed to fetch conversations")].
Proof.
  assert (Conversation.mk "c1" "A" "Z" None None
          ∈ JsMap.values
              (MemStorage.conversations
                 (storage (set_storage
                             (MemStorage.set_conversations
                                (λ _, [("c1", Conversation.mk "c1" "A" "Z" None
                                               None)]))
                             sample_start)))) as Hin
    by (simpl; apply list_elem_of_singleton; reflexivity).
  assert (involves (User.id alice) (Conversation.mk "c1" "A" "Z" None None)
          = true) as Hinv by reflexivity.
  split_and!; [exact Hin|exact Hinv|reflexivity|].
  apply (conversation_list_fails_on_a_missing_participant alice _ _ Hin Hinv).
  reflexivity.
Defined.







Lemma StronglySorted_fmap_inv {B C} (R : C → C → Prop) (f : B → C) (l : list B) :
  StronglySorted R (f <$> l) → StronglySorted (λ a b, R (f a) (f b)) l.
Proof.
  induction l as [|x l IH]; [constructor|].
  rewrite fmap_cons. intros Hs. apply StronglySorted_inv in Hs as [Hs Hall].
  constructor; [by apply IH|].
  rewrite Forall_forall in Hall. apply Forall_forall. intros b Hb.
  apply Hall, list_elem_of_fmap. by exists b.
Qed.

Lemma StronglySorted_weaken {B} (R R' : B → B → Prop) (l : list B) :
  (∀ a b, R a b → R' a b) → StronglySorted R l → StronglySorted R' l.
Proof.
  intros HR. induction 1 as [|x l _ IH Hall]; constructor; [done|].
  eapply Forall_impl; [exact Hall|]. intros b. apply HR.
Qed.

Lemma joinedConversation_inv e j :
  joinedConversation e = Some j → enrichedConversation j = e.
Proof.
  unfold joinedConversation, enrichedConversation. destruct e as [c [u|] m]; simpl.
  - by intros [= <-].
  - done.
Qed.

Lemma compare_lastMessageAt (a b : EnrichedConversation) :
  (getTime (Conversation.lastMessageAt (ec_conversation b))
   - getTime (Conversation.lastMessageAt (ec_conversation a)) ≤ 0
   ↔ - getTime (Conversation.lastMessageAt (ec_conversation a))
     ≤ - getTime (Conversation.lastMessageAt (ec_conversation b)))%Z.
Proof. lia. Qed.

Lemma getUserConversations_spec U s :
  ec_conversation <$> MemStorage.getUserConversations U s
  ≡ₚ List.filter (involves U) (JsMap.values (MemStorage.conversations s))
  ∧ StronglySorted
      (λ a b, (getTime (Conversation.lastMessageAt (ec_conversation b))
               ≤ getTime (Conversation.lastMessageAt (ec_conversation a)))%Z)
      (MemStorage.getUserConversations U s)
  ∧ Forall
      (λ e, ec_otherUser e
            = MemStorage.getUser (otherUserId U (ec_conversation e)) s
            ∧ ec_lastMessage e
              = last (MemStorage.getMessages
                        (Conversation.id (ec_conversation e)) s))
      (MemStorage.getUserConversations U s).
Proof.
  unfold MemStorage.getUserConversations. split_and!.
  - rewrite Array_sort_Permutation.
    change (map ?f ?l) with (f <$> l). rewrite <- list_fmap_compose.
    by rewrite list_fmap_id.
  - eapply StronglySorted_weaken;
      [|apply (Array_sort_sorted _
                 (λ e, - getTime (Conversation.lastMessageAt (ec_conversation e)))%Z
                 compare_lastMessageAt)].
    intros a b. simpl. lia.
  - rewrite Array_sort_Permutation. apply Forall_forall. intros e Hin.
    apply list_elem_of_In, in_map_iff in Hin as (conv & <- & _). done.
Qed.

(** X24. When every conversation of the requester has its other
    participant in the storage, [GET /api/conversations] answers 200
    with the requester's conversations, all of them and no others, the
    one with the latest message first; each comes with the row of the
    other participant and with the last message of its history. *)
Theorem conversation_list_is_newest_first (me : User.t) (st : State) :
  (∀ conv, conv ∈ JsMap.values (MemStorage.conversations (storage st)) →
           involves (User.id me) conv = true →
           is_Some (MemStorage.getUser (otherUserId (User.id me) conv)
                      (storage st))) →
  ∃ joined,
    answer (getConversations (Some me)) st
    = [SendJson 200 (conversationsBody joined)]
    ∧ cu_conversation <$> joined
      ≡ₚ List.filter (involves (User.id me))
                     (JsMap.values (MemStorage.conversations (storage st)))
    ∧ StronglySorted
        (λ a b, (getTime (Conversation.lastMessageAt (cu_conversation b))
                 ≤ getTime (Conversation.lastMessageAt (cu_conversation a)))%Z)
        joined
    ∧ Forall
        (λ j, MemStorage.getUser (otherUserId (User.id me) (cu_conversation j))
                (storage st) = Some (cu_otherUser j)
              ∧ cu_lastMessage j
                = last (MemStorage.getMessages
                          (Conversation.id (cu_conversation j)) (storage st)))
        joined.
Proof.
  intros Hrows.
  destruct (getUserConversations_spec (User.id me) (storage st))
    as (Hperm & Hsorted & Hfields).
  assert (is_Some (mapM joinedConversation
                     (MemStorage.getUserConversations (User.id me) (storage st))))
    as [joined Hjoined].
  { apply mapM_is_Some, Forall_forall. intros e He.
    assert (ec_conversation e
            ∈ List.filter (involves (User.id me))
                (JsMap.values (MemStorage.conversations (storage st)))) as Hin
      by (rewrite <- Hperm; apply list_elem_of_fmap; by exists e).
    apply list_elem_of_In, filter_In in Hin as [Hin Hinv].
    apply list_elem_of_In in Hin.
    rewrite Forall_forall in Hfields. destruct (Hfields e He) as [Hother _].
    destruct (Hrows _ Hin Hinv) as [u Hu]. simpl.
    unfold joinedConversation. rewrite Hother, Hu. by eexists. }
  pose proof (mapM_fmap_Some_inv _ enrichedConversation _ _ Hjoined
                joinedConversation_inv) as Hlisted.
  exists joined. split_and!.
  - unfold answer, exec, getConversations. rewrite run_bind. simpl.
    rewrite Hjoined. by apply new_effects_app.
  - rewrite <- Hperm, <- Hlisted, <- list_fmap_compose. done.
  - rewrite <- Hlisted in Hsorted.
    by apply StronglySorted_fmap_inv in Hsorted.
  - rewrite <- Hlisted in Hfields. apply Forall_fmap in Hfields.
    eapply Forall_impl; [exact Hfields|]. intros j [Hother Hlast]. simpl in *.
    by split.
Qed.

Lemma conversation_list_newest_first_witness :
  (∀ conv,
     conv ∈ JsMap.values
              (MemStorage.conversations
                 (storage (step sample_online
                             (WsMessage 1 (sendMessage "B" (Some "hello") None)))))
     → involves (User.id alice) conv = true
     → is_Some (MemStorage.getUser (otherUserId (User.id alice) conv)
                  (storage (step sample_online
                              (WsMessage 1 (sendMessage "B" (Some "hello") None))))))
  ∧ ∃ joined,
      answer (getConversations (Some alice))
        (step sample_online (WsMessage 1 (sendMessage "B" (Some "hello") None)))
      = [SendJson 200 (conversationsBody joined)]
      ∧ length joined = 1.
Proof.
  assert (∀ conv,
     conv ∈ JsMap.values
              (MemStorage.conversations
                 (storage (step sample_online
                             (WsMessage 1 (sendMessage "B" (Some "hello") None)))))
     → involves (User.id alice) conv = true
     → is_Some (MemStorage.getUser (otherUserId (User.id alice) conv)
                  (storage (step sample_online
                              (WsMessage 1 (sendMessage "B" (Some "hello") None))))))
    as Hrows.
  { intros conv Hin _. vm_compute in Hin.
    apply list_elem_of_singleton in Hin as ->. vm_compute. by eexists. }
  split; [exact Hrows|].
  destruct (conversation_list_is_newest_first alice _ Hrows)
    as (joined & Hanswer & Hperm & _).
  exists joined. split; [exact Hanswer|].
  apply Permutation_length in Hperm. rewrite length_fmap in Hperm.
  rewrite Hperm. vm_compute. reflexivity.
Defined.

(** ** The notification list *)

Lemma joinedNotification_inv e j :
  joinedNotification e = Some j → enrichedNotification j = e.
Proof.
  unfold joinedNotification, enrichedNotification. destruct e as [n [u|]]; simpl.
  - by intros [= <-].
  - done.
Qed.

Lemma compare_createdAt (a b : Notification.t) :
  (getTime (Notification.createdAt b) - getTime (Notification.createdAt a) ≤ 0
   ↔ - getTime (Notification.createdAt a)
     ≤ - getTime (Notification.createdAt b))%Z.
Proof. lia. Qed.

Lemma getUserNotifications_spec U s :
  en_notification <$> MemStorage.getUserNotifications U s
  ≡ₚ List.filter (λ n, String.eqb (Notification.userId n) U)
                 (JsMap.values (MemStorage.notifications s))
  ∧ StronglySorted
      (λ a b, (getTime (Notification.createdAt (en_notification b))
               ≤ getTime (Notification.createdAt (en_notification a)))%Z)
      (MemStorage.getUserNotifications U s)
  ∧ Forall
      (λ e, en_fromUser e
            = MemStorage.getUser (Notification.fromUserId (en_notification e)) s)
      (MemStorage.getUserNotifications U s).
Proof.
  unfold MemStorage.getUserNotifications. split_and!.
  - change (map ?f ?l) with (f <$> l). rewrite <- list_fmap_compose.
    rewrite list_fmap_id. apply Array_sort_Permutation.
  - change (map ?f ?l) with (f <$> l).
    match goal with |- StronglySorted _ (?f <$> ?l) =>
      assert (StronglySorted
                (λ a b, (getTime (Notification.createdAt b)
                         ≤ getTime (Notification.createdAt a))%Z) l) as Hsorted
    end.
    { eapply StronglySorted_weaken;
        [|apply (Array_sort_sorted _
                   (λ n, - getTime (Notification.createdAt n))%Z
                   compare_createdAt)].
      intros a b. simpl. lia. }
    induction Hsorted as [|n l _ IH Hall]; [constructor|].
    rewrite fmap_cons. constructor; [exact IH|].
    apply Forall_fmap. exact Hall.
  - apply Forall_forall. intros e Hin.
    apply list_elem_of_In, in_map_iff in Hin as (n & <- & _). done.
Qed.

(** X25. [GET /api/notifications] lists the requester's notifications,
    all of them and no others, newest first, each with the row of the
    user it comes from, when every such user has a row; it answers 500
    as soon as one of the requester's notifications comes from a user
    without a row. *)
Theorem notification_list_is_newest_first (me : User.t) (st : State) :
  ((∀ n, n ∈ JsMap.values (MemStorage.notifications (storage st)) →
         Notification.userId n = User.id me →
         is_Some (MemStorage.getUser (Notification.fromUserId n) (storage st))) →
   ∃ joined,
     answer (getNotifications (Some me)) st
     = [SendJson 200 (notificationsBody joined)]
     ∧ nu_notification <$> joined
       ≡ₚ List.filter (λ n, String.eqb (Notification.userId n) (User.id me))
                      (JsMap.values (MemStorage.notifications (storage st)))
     ∧ StronglySorted
         (λ a b, (getTime (Notification.createdAt (nu_notification b))
                  ≤ getTime (Notification.createdAt (nu_notification a)))%Z)
         joined
     ∧ Forall
         (λ j, MemStorage.getUser (Notification.fromUserId (nu_notification j))
                 (storage st) = Some (nu_fromUser j))
         joined)
  ∧ ((∃ n, n ∈ JsMap.values (MemStorage.notifications (storage st))
           ∧ Notification.userId n = User.id me
           ∧ MemStorage.getUser (Notification.fromUserId n) (storage st) = None) →
     answer (getNotifications (Some me)) st
     = [SendJson 500 (message_body "Failed to fetch notifications")]).
Proof.
  destruct (getUserNotifications_spec (User.id me) (storage st))
    as (Hperm & Hsorted & Hfields).
  split.
  - intros Hrows.
    assert (is_Some (mapM joinedNotification
                       (MemStorage.getUserNotifications (User.id me) (storage st))))
      as [joined Hjoined].
    { apply mapM_is_Some, Forall_forall. intros e He.
      assert (en_notification e
              ∈ List.filter
                  (λ n, String.eqb (Notification.userId n) (User.id me))
                  (JsMap.values (MemStorage.notifications (storage st)))) as Hin
        by (rewrite <- Hperm; apply list_elem_of_fmap; by exists e).
      apply list_elem_of_In, filter_In in Hin as [Hin Hmine].
      apply list_elem_of_In in Hin. apply String.eqb_eq in Hmine.
      rewrite Forall_forall in Hfields. specialize (Hfields e He).
      destruct (Hrows _ Hin Hmine) as [u Hu]. simpl.
      unfold joinedNotification. rewrite Hfields, Hu. by eexists. }
    pose proof (mapM_fmap_Some_inv _ enrichedNotification _ _ Hjoined
                  joinedNotification_inv) as Hlisted.
    exists joined. split_and!.
    + unfold answer, exec, getNotifications. rewrite run_bind. simpl.
      rewrite Hjoined. by apply new_effects_app.
    + rewrite <- Hperm, <- Hlisted, <- list_fmap_compose. done.
    + rewrite <- Hlisted in Hsorted.
      by apply StronglySorted_fmap_inv in Hsorted.
    + rewrite <- Hlisted in Hfields. apply Forall_fmap in Hfields.
      eapply Forall_impl; [exact Hfields|]. intros j Hfrom. simpl in *. done.
  - intros (n & Hin & Hmine & Hnone).
    unfold answer, exec, getNotifications. rewrite run_bind. simpl.
    rewrite (proj2 (mapM_None _ _)); [by apply new_effects_app|].
    assert (n ∈ en_notification
                  <$> MemStorage.getUserNotifications (User.id me) (storage st))
      as Hlisted.
    { rewrite Hperm. apply list_elem_of_In, filter_In.
      split; [by apply list_elem_of_In|]. by apply String.eqb_eq. }
    apply list_elem_of_fmap in Hlisted as (e & -> & He).
    apply Exists_exists. exists e. split; [exact He|].
    rewrite Forall_forall in Hfields. specialize (Hfields e He).
    unfold joinedNotification. by rewrite Hfields, Hnone.
Qed.

(** ** Registration and discovery *)

Lemma find_snoc {B} (f : B → bool) l x :
  List.find f (l ++ [x])
  = match List.find f l with
    | Some y => Some y
    | None => if f x then Some x else None
    end.
Proof.
  induction l as [|y r IH]; simpl; [done|]. by destruct (f y).
Qed.

(** X26. [createUser] files the new row last, under the id it was given,
    offline and with the password as it was handed over, and checks
    neither the user name nor the e-mail address: when one of them is
    taken already, both rows are stored and the lookup by user name or by
    e-mail address still finds the older row. *)
Theorem createUser_does_not_check_the_name
    (insertUser : InsertUser) (id : string) (now : nat) (s : MemStorage.t) :
  JsMap.get id (MemStorage.users s) = None →
  let created := (MemStorage.createUser insertUser id now s).1 in
  let s' := (MemStorage.createUser insertUser id now s).2 in
  MemStorage.users s' = MemStorage.users s ++ [(id, created)]
  ∧ MemStorage.getUser id s' = Some created
  ∧ User.id created = id
  ∧ User.isOnline created = Some false
  ∧ User.lastSeen created = Some now
  ∧ User.password created = iu_password insertUser
  ∧ MemStorage.getUserByUsername (iu_username insertUser) s'
    = match MemStorage.getUserByUsername (iu_username insertUser) s with
      | Some older => Some older
      | None => Some created
      end
  ∧ MemStorage.getUserByEmail (iu_email insertUser) s'
    = match MemStorage.getUserByEmail (iu_email insertUser) s with
      | Some older => Some older
      | None => Some created
      end
  ∧ (users_keyed (MemStorage.users s) → users_keyed (MemStorage.users s'))
  ∧ (JsMap.wf (MemStorage.users s) → JsMap.wf (MemStorage.users s')).
Proof.
  intros Hfresh. cbv zeta. unfold MemStorage.createUser. simpl.
  split_and!; try done.
  - by apply JsMap_set_absent.
  - unfold MemStorage.getUser. simpl. apply JsMap_get_set_eq.
  - unfold MemStorage.getUserByUsername, JsMap.values. simpl.
    change (list_fmap (string * User.t)%type User.t snd ?l) with (l.*2).
    rewrite (JsMap_set_absent _ _ _ Hfresh), fmap_app. simpl.
    rewrite find_snoc. simpl. by rewrite String.eqb_refl.
  - unfold MemStorage.getUserByEmail, JsMap.values. simpl.
    change (list_fmap (string * User.t)%type User.t snd ?l) with (l.*2).
    rewrite (JsMap_set_absent _ _ _ Hfresh), fmap_app. simpl.
    rewrite find_snoc. simpl. by rewrite String.eqb_refl.
  - intros Hkeyed. rewrite (JsMap_set_absent _ _ _ Hfresh).
    apply Forall_app. split; [done|]. by repeat constructor.
  - intros Hwf. by apply JsMap_wf_set.
Qed.

Lemma createUser_witness :
  JsMap.get "A2" (MemStorage.users (storage sample_start)) = None
  ∧ MemStorage.getUserByUsername "alice"
      (MemStorage.createUser
         {| iu_username := "alice"; iu_password := "other";
            iu_email := "alice@example.org"; iu_firstName := "Alice";
            iu_lastName := "Roe"; iu_gender := "female";
            iu_profilePhoto := None; iu_age := 44; iu_location := None;
            iu_bio := None; iu_photos := None; iu_filterGender := None;
            iu_filterLocation := None; iu_filterAgeMin := None;
            iu_filterAgeMax := None |} "A2" 3 (storage sample_start)).2
    = Some alice.
Proof.
  assert (JsMap.get "A2" (MemStorage.users (storage sample_start)) = None)
    as Hfresh by reflexivity.
  split; [exact Hfresh|].
  destruct (createUser_does_not_check_the_name
              {| iu_username := "alice"; iu_password := "other";
                 iu_email := "alice@example.org"; iu_firstName := "Alice";
                 iu_lastName := "Roe"; iu_gender := "female";
                 iu_profilePhoto := None; iu_age := 44; iu_location := None;
                 iu_bio := None; iu_photos := None; iu_filterGender := None;
                 iu_filterLocation := None; iu_filterAgeMin := None;
                 iu_filterAgeMax := None |} "A2" 3 (storage sample_start) Hfresh)
    as (_ & _ & _ & _ & _ & _ & Hname & _).
  exact Hname.
Defined.

Lemma sublist_if_filter {B} (c : bool) (f : B → bool) (l : list B) :
  sublist (if c then List.filter f l else l) l.
Proof. destruct c; [apply List_filter_sublist|done]. Qed.

Lemma Forall_sublist {B} (P : B → Prop) (l l' : list B) :
  sublist l l' → Forall P l' → Forall P l.
Proof.
  induction 1 as [|x l l' _ IH|x l l' _ IH]; intros Hall; [done| |].
  - apply Forall_cons in Hall as [? ?]. constructor; [done|by apply IH].
  - apply Forall_cons in Hall as [_ ?]. by apply IH.
Qed.

Lemma Forall_List_filter {B} (f : B → bool) (l : list B) :
  Forall (λ x, f x = true) (List.filter f l).
Proof. apply Forall_forall. intros x Hin. by apply list_elem_of_In, filter_In in Hin as [_ ?]. Qed.

(** X27. Discovery never shows the requester to themself, and shows
    users in the order of the storage, each at most once per row. A
    gender in the query is matched exactly. An [ageMin] that is not a
    number or is below 18, and an [ageMax] that is not a number or is
    above 99, are left out of account (the request is not refused and
    the bound is not clamped); an [ageMin] from 18 up and an [ageMax] up
    to 99 bound the ages shown. *)
Theorem discovery_leaves_out_the_requester
    (parseInt : string → option Z) (toLowerCase : string → string)
    (reqUserId : string) (query : UsersQuery) (users : list User.t) :
  let shown := discover parseInt toLowerCase reqUserId query users in
  sublist shown users
  ∧ Forall (λ user, User.id user ≠ reqUserId) shown
  ∧ (truthy_str (q_gender query) = true →
     Forall (λ user, User.gender user = default "" (q_gender query)) shown)
  ∧ (∀ text minAge,
       q_ageMin query = Some text → text ≠ "" → parseInt text = Some minAge →
       if (18 <=? minAge)%Z
       then Forall (λ user, (minAge ≤ User.age user)%Z) shown
       else shown
            = discover parseInt toLowerCase reqUserId (without_ageMin query) users)
  ∧ (∀ text maxAge,
       q_ageMax query = Some text → text ≠ "" → parseInt text = Some maxAge →
       if (maxAge <=? 99)%Z
       then Forall (λ user, (User.age user ≤ maxAge)%Z) shown
       else shown
            = discover parseInt toLowerCase reqUserId (without_ageMax query) users)
  ∧ (∀ text, q_ageMin query = Some text → parseInt text = None →
             shown
             = discover parseInt toLowerCase reqUserId (without_ageMin query) users)
  ∧ (∀ text, q_ageMax query = Some text → parseInt text = None →
             shown
             = discover parseInt toLowerCase reqUserId (without_ageMax query) users).
Proof.
  cbv zeta. unfold discover.
  set (l0 := List.filter (λ user, negb (String.eqb (User.id user) reqUserId)) users).
  set (l1 := if truthy_str (q_gender query) then _ else l0).
  set (l2 := if truthy_str (q_location query) then _ else l1).
  set (l3 := if truthy_str (q_ageMin query) then _ else l2).
  assert (sublist l0 users) as H0 by apply List_filter_sublist.
  assert (sublist l1 l0) as H1 by apply sublist_if_filter.
  assert (sublist l2 l1) as H2 by apply sublist_if_filter.
  assert (sublist l3 l2) as H3.
  { unfold l3. destruct (truthy_str (q_ageMin query)); [|done].
    destruct (parseInt (default "" (q_ageMin query))) as [minAge|]; [|done].
    destruct (18 <=? minAge)%Z; [apply List_filter_sublist|done]. }
  set (l4 := if truthy_str (q_ageMax query) then _ else l3).
  assert (sublist l4 l3) as H4.
  { unfold l4. destruct (truthy_str (q_ageMax query)); [|done].
    destruct (parseInt (default "" (q_ageMax query))) as [maxAge|]; [|done].
    destruct (maxAge <=? 99)%Z; [apply List_filter_sublist|done]. }
  assert (∀ P : User.t → Prop, Forall P l0 → Forall P l4) as Hfrom0.
  { intros P HP. eapply Forall_sublist; [|exact HP].
    transitivity l3; [done|]. transitivity l2; [done|]. by transitivity l1. }
  assert (∀ P : User.t → Prop, Forall P l1 → Forall P l4) as Hfrom1.
  { intros P HP. eapply Forall_sublist; [|exact HP].
    transitivity l3; [done|]. by transitivity l2. }
  assert (∀ P : User.t → Prop, Forall P l3 → Forall P l4) as Hfrom3
    by (intros P HP; by eapply Forall_sublist).
  split_and!.
  - transitivity l3; [done|]. transitivity l2; [done|].
    transitivity l1; [done|]. by transitivity l0.
  - apply Hfrom0. unfold l0.
    eapply Forall_impl; [apply Forall_List_filter|].
    intros user Hne. simpl in Hne.
    by destruct (String.eqb_spec (User.id user) reqUserId).
  - intros Hgender. apply Hfrom1. unfold l1. rewrite Hgender.
    eapply Forall_impl; [apply Forall_List_filter|].
    intros user Heq. by apply String.eqb_eq in Heq.
  - intros text minAge Hq Htext Hparse.
    destruct (18 <=? minAge)%Z eqn:Hadult.
    + apply Hfrom3. unfold l3. rewrite Hq, (truthy_str_Some _ Htext). simpl.
      rewrite Hparse, Hadult.
      eapply Forall_impl; [apply Forall_List_filter|].
      intros user Hle. simpl in Hle. lia.
    + unfold l4, l3. rewrite Hq, (truthy_str_Some _ Htext). simpl.
      by rewrite Hparse, Hadult.
  - intros text maxAge Hq Htext Hparse.
    destruct (maxAge <=? 99)%Z eqn:Hold.
    + unfold l4. rewrite Hq, (truthy_str_Some _ Htext). simpl.
      rewrite Hparse, Hold.
      eapply Forall_impl; [apply Forall_List_filter|].
      intros user Hle. simpl in Hle. lia.
    + unfold l4. rewrite Hq, (truthy_str_Some _ Htext). simpl.
      by rewrite Hparse, Hold.
  - intros text Hq Hparse. unfold l4, l3. rewrite Hq. simpl.
    rewrite Hparse. by destruct (negb (text =? "")%string).
  - intros text Hq Hparse. unfold l4. rewrite Hq. simpl.
    rewrite Hparse. by destruct (negb (text =? "")%string).
Qed.

(** ** The focus tracker over the life of the process *)

Lemma focus_live_ext st st' :
  connections st' = connections st → focus_live st → focus_live st'.
Proof.
  unfold connections. intros [= Hs Hl Ha] [H1 H2 H3].
  constructor; rewrite ?Hs, ?Hl, ?Ha; done.
Qed.

Lemma focus_live_preserved (c : M unit) st :
  preserves connections c → focus_live st → focus_live (exec c st).
Proof. intros Hc. apply focus_live_ext, Hc. Qed.

Lemma handleSendMessage_connections ws u r content imageUrl :
  preserves connections (handleSendMessage ws u r content imageUrl).
Proof. unfold handleSendMessage. preserving. Qed.

Lemma handleTyping_connections u r isTyping :
  preserves connections (handleTyping u r isTyping).
Proof. unfold handleTyping. preserving. Qed.

Lemma getUserProfile_connections reqUser userId :
  preserves connections (getUserProfile reqUser userId).
Proof. unfold getUserProfile. preserving. Qed.

Lemma focus_live_initial st : initial st → focus_live st.
Proof.
  intros []. constructor.
  - intros ws u. by rewrite init_listeners0, lookup_empty.
  - intros u peers. by rewrite init_activeChatWindows0, lookup_empty.
  - intros u peers. by rewrite init_activeChatWindows0, lookup_empty.
Qed.

Lemma focus_live_step st e :
  invariant st → focus_live st → focus_live (step st e).
Proof.
  intros Hinv [Hlisteners Hnonempty Howner].
  destruct e as [ws req storeErr|ws message|ws|reqUser logoutErr|reqUser userId
                | |sid data].
  - destruct (sockets st !! ws) as [rs|] eqn:Hws.
    + assert (step st (Connection ws req storeErr) = st) as ->; [|done].
      unfold step, exec. simpl. rewrite run_bind. unfold known_socket. simpl.
      by rewrite Hws.
    + destruct (sessionVerifier req storeErr st) as [A| | |] eqn:Hv.
      * rewrite (step_Connection_accepted ws req storeErr A) by done.
        constructor; simpl.
        -- intros ws' u Hl. apply lookup_insert_Some in Hl as [[<- _]|[Hne Hl]].
           ++ rewrite lookup_insert_eq. by eexists.
           ++ rewrite lookup_insert_ne by done. eauto.
        -- exact Hnonempty.
        -- intros u peers Hu. destruct (Howner u peers Hu) as [ws' Hl].
           exists ws'. rewrite lookup_insert_ne; [done|].
           intros <-. destruct (Hlisteners _ _ Hl) as [? Hsome]. congruence.
      * rewrite (step_Connection_rejected ws req storeErr 1008
                   "Authentication required") by (by rewrite ?Hv).
        constructor; simpl; [|done|done].
        intros ws' u Hl. destruct (decide (ws = ws')) as [<-|Hne].
        -- rewrite lookup_insert_eq. by eexists.
        -- rewrite lookup_insert_ne by done. eauto.
      * rewrite (step_Connection_rejected ws req storeErr 1008
                   "User not found") by (by rewrite ?Hv).
        constructor; simpl; [|done|done].
        intros ws' u Hl. destruct (decide (ws = ws')) as [<-|Hne].
        -- rewrite lookup_insert_eq. by eexists.
        -- rewrite lookup_insert_ne by done. eauto.
      * rewrite (step_Connection_rejected ws req storeErr 1011
                   "Authentication failed") by (by rewrite ?Hv).
        constructor; simpl; [|done|done].
        intros ws' u Hl. destruct (decide (ws = ws')) as [<-|Hne].
        -- rewrite lookup_insert_eq. by eexists.
        -- rewrite lookup_insert_ne by done. eauto.
  - destruct (listeners st !! ws) as [u|] eqn:Hl.
    + pose proof (inv_listeners st Hinv ws u Hl) as Hu.
      destruct message as [x|x|R content imageUrl|R isTyping|].
      * rewrite (step_focus_frame ws u true x) by done.
        constructor; simpl; [done| |].
        -- intros v peers. rewrite lookup_focus_open.
           destruct (decide (u = v)) as [<-|Hne]; [|apply Hnonempty].
           intros [= <-]. set_solver.
        -- intros v peers. rewrite lookup_focus_open.
           destruct (decide (u = v)) as [<-|Hne]; [by exists ws|apply Howner].
      * rewrite (step_focus_frame ws u false x) by done.
        constructor; simpl; [done| |].
        -- intros v peers. rewrite lookup_focus_close.
           destruct (decide (u = v)) as [<-|Hne]; [|apply Hnonempty].
           destruct (activeChatWindows st !! u) as [old|]; [|done].
           destruct (decide (old ∖ {[x]} = ∅)); [done|]. by intros [= <-].
        -- intros v peers. rewrite lookup_focus_close.
           destruct (decide (u = v)) as [<-|Hne]; [by exists ws|apply Howner].
      * assert (step st (WsMessage ws (sendMessage R content imageUrl))
                = exec (handleSendMessage ws u R content imageUrl) st) as ->.
        { unfold step, exec. simpl. rewrite run_bind. unfold listener_of. simpl.
          by rewrite Hl. }
        by apply focus_live_preserved; [apply handleSendMessage_connections|].
      * rewrite (step_typing ws u) by done.
        by apply focus_live_preserved; [apply handleTyping_connections|].
      * assert (step st (WsMessage ws unrecognized) = st) as ->; [|done].
        unfold step, exec. simpl. rewrite run_bind. unfold listener_of. simpl.
        by rewrite Hl.
    + assert (step st (WsMessage ws message) = st) as ->; [|done].
      unfold step, exec. simpl. rewrite run_bind. unfold listener_of. simpl.
      by rewrite Hl.
  - destruct (listeners st !! ws) as [u|] eqn:Hl.
    + pose proof (inv_listeners st Hinv ws u Hl) as Hu.
      rewrite (step_WsClosed ws u), onClose_exec by done.
      constructor; simpl.
      * intros ws' v Hl'. apply lookup_delete_Some in Hl' as [Hne Hl'].
        rewrite lookup_alter_ne by done. eauto.
      * intros v peers Hv. apply lookup_delete_Some in Hv as [_ Hv]. eauto.
      * intros v peers Hv. apply lookup_delete_Some in Hv as [Hne Hv].
        destruct (Howner v peers Hv) as [ws' Hl'].
        exists ws'. rewrite lookup_delete_ne; [done|]. intros <-. congruence.
    + assert (step st (WsClosed ws) = set_sockets (alter (λ _, CLOSED) ws) st)
        as ->.
      { unfold step, exec. simpl. rewrite !run_bind. unfold listener_of. simpl.
        by rewrite Hl. }
      constructor; simpl; [|done|done].
      intros ws' v Hl'. destruct (decide (ws = ws')) as [<-|Hne].
      * congruence.
      * rewrite lookup_alter_ne by done. eauto.
  - rewrite step_PostLogout. destruct reqUser as [usr|]; [|done].
    destruct (JsMap.get (User.id usr) (connectedUsers st)) as [c|] eqn:Hc.
    + rewrite (postLogout_exec usr c) by done. constructor; simpl.
      * intros ws' v Hl'. destruct (Hlisteners _ _ Hl') as [rs Hrs].
        destruct (decide (conn_ws c = ws')) as [<-|Hne].
        -- rewrite lookup_alter_eq, Hrs. by eexists.
        -- rewrite lookup_alter_ne by done. by eexists.
      * intros v peers Hv. apply lookup_delete_Some in Hv as [_ Hv]. eauto.
      * intros v peers Hv. apply lookup_delete_Some in Hv as [_ Hv]. eauto.
    + by rewrite (postLogout_absent_exec usr) by done.
  - by apply focus_live_preserved; [apply getUserProfile_connections|].
  - done.
  - done.
Qed.

(** X28. Over the life of the process the focus tracker stays tidy: in
    every state the event loop reaches from a start with no sockets
    (by handshakes, frames, close events, logouts and profile views), no
    user is tracked with an empty set of open windows, and every user who
    is tracked still has an accepted socket whose listeners are installed
    (a focus set is removed, at the latest, when that user's socket
    closes). *)
Theorem focus_sets_are_nonempty_and_owned (st : State) :
  reachable st →
  ∀ u peers,
    activeChatWindows st !! u = Some peers →
    peers ≠ ∅
    ∧ ∃ ws, listeners st !! ws = Some u ∧ is_Some (sockets st !! ws).
Proof.
  intros Hreach.
  assert (focus_live st) as [Hlisteners Hnonempty Howner].
  { induction Hreach as [st Hinit|st e Hreach IH].
    - by apply focus_live_initial.
    - apply focus_live_step; [by apply reachable_invariant|exact IH]. }
  intros u peers Hu. split; [by eapply Hnonempty|].
  destruct (Howner u peers Hu) as [ws Hl]. exists ws. split; [done|eauto].
Qed.

Lemma focus_sets_witness :
  reachable (run sample_online
               [WsMessage 1 (openChatWindow "B");
                WsMessage 1 (openChatWindow "C");
                WsMessage 1 (closeChatWindow "B")])
  ∧ activeChatWindows
      (run sample_online
         [WsMessage 1 (openChatWindow "B");
          WsMessage 1 (openChatWindow "C");
          WsMessage 1 (closeChatWindow "B")]) !! "A" = Some {["C"]}
  ∧ ({["C"]} : gset string) ≠ ∅.
Proof.
  assert (reachable (run sample_online
               [WsMessage 1 (openChatWindow "B");
                WsMessage 1 (openChatWindow "C");
                WsMessage 1 (closeChatWindow "B")])) as Hreach
    by (do 3 apply reachable_step; exact sample_online_reachable).
  assert (activeChatWindows
      (run sample_online
         [WsMessage 1 (openChatWindow "B");
          WsMessage 1 (openChatWindow "C");
          WsMessage 1 (closeChatWindow "B")]) !! "A" = Some {["C"]}) as Hfocus
    by (vm_compute; reflexivity).
  split_and!; [exact Hreach|exact Hfocus|].
  exact (proj1 (focus_sets_are_nonempty_and_owned _ Hreach "A" {["C"]} Hfocus)).
Defined.

(** ** The registry and the listeners *)

Lemma registry_live_preserved (c : M unit) st :
  preserves registrations c → registry_live st → registry_live (exec c st).
Proof.
  intros Hc Hlive u entry. specialize (Hc st). unfold registrations in Hc.
  injection Hc as -> ->. apply Hlive.
Qed.

Lemma handleSendMessage_registrations ws u r content imageUrl :
  preserves registrations (handleSendMessage ws u r content imageUrl).
Proof. unfold handleSendMessage. preserving. Qed.

Lemma handleTyping_registrations u r isTyping :
  preserves registrations (handleTyping u r isTyping).
Proof. unfold handleTyping. preserving. Qed.

Lemma getUserProfile_registrations reqUser userId :
  preserves registrations (getUserProfile reqUser userId).
Proof. unfold getUserProfile. preserving. Qed.

Lemma registry_live_step st e :
  invariant st → focus_live st → registry_live st → registry_live (step st e).
Proof.
  intros Hinv [Hlisteners _ _] Hlive.
  destruct e as [ws req storeErr|ws message|ws|reqUser logoutErr|reqUser userId
                | |sid data].
  - destruct (sockets st !! ws) as [rs|] eqn:Hws.
    + assert (step st (Connection ws req storeErr) = st) as ->; [|done].
      unfold step, exec. simpl. rewrite run_bind. unfold known_socket. simpl.
      by rewrite Hws.
    + destruct (sessionVerifier req storeErr st) as [A| | |] eqn:Hv.
      * rewrite (step_Connection_accepted ws req storeErr A) by done.
        intros u c. simpl. destruct (decide (A = u)) as [<-|Hne].
        -- rewrite JsMap_get_set_eq. intros [= <-]. simpl.
           by rewrite lookup_insert_eq.
        -- rewrite JsMap_get_set_ne by done. intros Hc.
           destruct (Hlive u c Hc) as [Hid Hl]. split; [done|].
           rewrite lookup_insert_ne; [done|].
           intros Heq. rewrite <- Heq in Hl.
           destruct (Hlisteners _ _ Hl) as [? Hsome]. congruence.
      * by rewrite (step_Connection_rejected ws req storeErr 1008
                      "Authentication required") by (by rewrite ?Hv).
      * by rewrite (step_Connection_rejected ws req storeErr 1008
                      "User not found") by (by rewrite ?Hv).
      * by rewrite (step_Connection_rejected ws req storeErr 1011
                      "Authentication failed") by (by rewrite ?Hv).
  - destruct (listeners st !! ws) as [u|] eqn:Hl.
    + pose proof (inv_listeners st Hinv ws u Hl) as Hu.
      destruct message as [x|x|R content imageUrl|R isTyping|].
      * by rewrite (step_focus_frame ws u true x) by done.
      * by rewrite (step_focus_frame ws u false x) by done.
      * assert (step st (WsMessage ws (sendMessage R content imageUrl))
                = exec (handleSendMessage ws u R content imageUrl) st) as ->.
        { unfold step, exec. simpl. rewrite run_bind. unfold listener_of. simpl.
          by rewrite Hl. }
        by apply registry_live_preserved;
          [apply handleSendMessage_registrations|].
      * rewrite (step_typing ws u) by done.
        by apply registry_live_preserved; [apply handleTyping_registrations|].
      * assert (step st (WsMessage ws unrecognized) = st) as ->; [|done].
        unfold step, exec. simpl. rewrite run_bind. unfold listener_of. simpl.
        by rewrite Hl.
    + assert (step st (WsMessage ws message) = st) as ->; [|done].
      unfold step, exec. simpl. rewrite run_bind. unfold listener_of. simpl.
      by rewrite Hl.
  - destruct (listeners st !! ws) as [u|] eqn:Hl.
    + pose proof (inv_listeners st Hinv ws u Hl) as Hu.
      rewrite (step_WsClosed ws u), onClose_exec by done.
      intros v c. simpl. destruct (decide (u = v)) as [<-|Hne].
      * by rewrite JsMap_get_delete_eq.
      * rewrite JsMap_get_delete_ne by done. intros Hc.
        destruct (Hlive v c Hc) as [Hid Hl']. split; [done|].
        rewrite lookup_delete_ne; [done|]. intros Heq. rewrite <- Heq in Hl'.
        congruence.
    + assert (step st (WsClosed ws) = set_sockets (alter (λ _, CLOSED) ws) st)
        as ->; [|done].
      unfold step, exec. simpl. rewrite !run_bind. unfold listener_of. simpl.
      by rewrite Hl.
  - rewrite step_PostLogout. destruct reqUser as [usr|]; [|done].
    destruct (JsMap.get (User.id usr) (connectedUsers st)) as [c|] eqn:Hc.
    + rewrite (postLogout_exec usr c) by done.
      intros v c'. simpl. destruct (decide (User.id usr = v)) as [<-|Hne].
      * by rewrite JsMap_get_delete_eq.
      * rewrite JsMap_get_delete_ne by done. apply Hlive.
    + by rewrite (postLogout_absent_exec usr) by done.
  - by apply registry_live_preserved; [apply getUserProfile_registrations|].
  - done.
  - done.
Qed.

(** X29. In every state the event loop reaches from a start with no
    sockets, a registry entry is filed under the user it names and holds
    a socket the server accepted and on which the listeners of that very
    user are installed; so the close event of that socket will find the
    entry and remove it. *)
Theorem registry_entries_have_their_listeners (st : State) :
  reachable st →
  ∀ u c,
    JsMap.get u (connectedUsers st) = Some c →
    conn_userId c = u
    ∧ listeners st !! conn_ws c = Some u
    ∧ is_Some (sockets st !! conn_ws c).
Proof.
  intros Hreach.
  assert (focus_live st ∧ registry_live st) as [Hlive Hregistry].
  { induction Hreach as [st Hinit|st e Hreach [IH1 IH2]].
    - split; [by apply focus_live_initial|].
      intros u c. by rewrite (init_connectedUsers st Hinit).
    - pose proof (reachable_invariant _ Hreach) as Hinv. split.
      + by apply focus_live_step.
      + by apply registry_live_step. }
  intros u c Hc. destruct (Hregistry u c Hc) as [Hid Hl].
  split_and!; [done|done|]. by apply (live_listeners st Hlive _ u).
Qed.

Lemma registry_entries_witness :
  reachable sample_online
  ∧ JsMap.get "A" (connectedUsers sample_online) = Some (mkUserConnection 1 "A")
  ∧ listeners sample_online !! 1 = Some "A".
Proof.
  assert (JsMap.get "A" (connectedUsers sample_online)
          = Some (mkUserConnection 1 "A")) as Hc by (vm_compute; reflexivity).
  split_and!; [exact sample_online_reachable|exact Hc|].
  exact (proj1 (proj2 (registry_entries_have_their_listeners sample_online
                         sample_online_reachable "A" _ Hc))).
Defined.

(** ** What the router does not check *)

Lemma or_null_falsy o : truthy_str o = false → or_null o = None.
Proof. unfold or_null. by intros ->. Qed.

(** X30. The router does not look at what a message holds: a
    [sendMessage] frame with neither text nor image (both missing or
    empty) is stored as a message whose content and image are both
    [null], is delivered to a receiver who can be written to, and is
    confirmed to the sender, like any other message. *)
Theorem empty_message_is_stored_all_the_same
    (ws : nat) (S R : string) (content imageUrl : option string) (st : State) :
  invariant st →
  listeners st !! ws = Some S →
  truthy_str content = false →
  truthy_str imageUrl = false →
  let st' := step st (WsMessage ws (sendMessage R content imageUrl)) in
  ∃ m,
    MemStorage.messages (storage st')
    = MemStorage.messages (storage st) ++ [(Message.id m, m)]
    ∧ Message.senderId m = S
    ∧ Message.content m = None
    ∧ Message.imageUrl m = None
    ∧ (∀ h, deliverable R st = Some h →
            WsSend h (newMessage m
                        (publicOrNull (MemStorage.getUser S (storage st))))
            ∈ new_effects st st')
    ∧ last (trace st') = Some (WsSend ws (messageConfirmed m)).
Proof.
  intros Hinv Hl Hcontent Himage. cbv zeta.
  pose proof (inv_listeners st Hinv ws S Hl) as HS.
  rewrite (step_sendMessage ws S) by done.
  destruct (router_steps_spec ws S R content imageUrl st Hinv)
    as (m & notified & Htrace & Hmsgs & _ & Hsender & Hc & Hi & _).
  exists m. split_and!; try done.
  - by rewrite Hc, or_null_falsy.
  - by rewrite Hi, or_null_falsy.
  - intros h Hh. rewrite (new_effects_app _ _ _ Htrace), Hh.
    rewrite !elem_of_app. right. right. left. by apply list_elem_of_singleton.
  - rewrite Htrace, !app_assoc. apply last_snoc.
Qed.

Lemma empty_message_witness :
  invariant sample_online
  ∧ listeners sample_online !! 1 = Some "A"
  ∧ truthy_str (Some "") = false
  ∧ truthy_str None = false
  ∧ ∃ m,
      MemStorage.messages
        (storage (step sample_online (WsMessage 1 (sendMessage "B" (Some "") None))))
      = [(Message.id m, m)]
      ∧ Message.content m = None ∧ Message.imageUrl m = None.
Proof.
  assert (invariant sample_online) as Hinv
    by exact (reachable_invariant _ sample_online_reachable).
  assert (listeners sample_online !! 1 = Some "A") as Hl
    by (vm_compute; reflexivity).
  split_and!; [exact Hinv|exact Hl|reflexivity|reflexivity|].
  destruct (empty_message_is_stored_all_the_same 1 "A" "B" (Some "") None
              sample_online Hinv Hl eq_refl eq_refl)
    as (m & Hmsgs & _ & Hcontent & Himage & _).
  exists m. split_and!; [exact Hmsgs|exact Hcontent|exact Himage].
Defined.
